(** * MSPMetro ingestion engine: a shallow embedding and its properties

    The development follows the Python sources of the repository:
    - [backend/src/mspmetro_backend/text_clean.py]  (module [TextClean])
    - [backend/src/mspmetro_backend/ingest.py]      (modules [Hashing], [Ingest])
    - [backend/src/mspmetro_backend/static_build.py] (module [StaticBuild])
    - [backend/src/mspmetro_backend/models.py], [db.py] (modules [Models], [Db])
    - [scripts/discover_sources.py]                 (module [Discover])

    A Python [str] is a sequence of Unicode code points and is modelled as
    [list N]; [bytes] is a list of octets, each a [Z] in [0, 256). *)

From Stdlib Require Import ZArith NArith Lia Bool Ascii String.
From stdpp Require Import base list gmap.

Local Open Scope nat_scope.

(** ** Python text *)

Abbreviation str := (list N).

(** An ASCII literal as a Python [str]. *)
Definition py (lit : string) : str :=
  map N_of_ascii (list_ascii_of_string lit).

Module Py.

(** Truthiness of a string: non-empty. *)
Definition truthy (s : str) : bool :=
  match s with [] => false | _ :: _ => true end.

(** [x or y] where [x : str | None] and [y : str]. *)
Definition or_str (x : option str) (y : str) : str :=
  match x with
  | Some s => if truthy s then s else y
  | None => y
  end.

(** [s or None] for a string [s]. *)
Definition or_none (s : str) : option str :=
  if truthy s then Some s else None.

(** [a or b] where both are strings. *)
Definition or_else (a b : str) : str := if truthy a then a else b.

(** [str.isspace] on one code point, the set CPython's
    [_PyUnicode_IsWhitespace] accepts. The class [\s] of [re] on [str]
    patterns and [str.strip()] use the same set. *)
Definition isspace (c : N) : bool :=
  ((9 <=? c) && (c <=? 13) || (28 <=? c) && (c <=? 32)
   || (c =? 0x85) || (c =? 0xA0) || (c =? 0x1680)
   || (0x2000 <=? c) && (c <=? 0x200A)
   || (c =? 0x2028) || (c =? 0x2029) || (c =? 0x202F)
   || (c =? 0x205F) || (c =? 0x3000))%N.

Fixpoint take_while {A} (p : A -> bool) (l : list A) : list A :=
  match l with
  | x :: l' => if p x then x :: take_while p l' else []
  | [] => []
  end.

Fixpoint drop_while {A} (p : A -> bool) (l : list A) : list A :=
  match l with
  | x :: l' => if p x then drop_while p l' else l
  | [] => []
  end.

Definition lstrip (s : str) : str := drop_while isspace s.
Definition rstrip (s : str) : str := rev (drop_while isspace (rev s)).
Definition strip (s : str) : str := rstrip (lstrip s).

(** [s.replace(a, b)] for one-character [a]. *)
Definition replace1 (a : N) (b : str) (s : str) : str :=
  flat_map (fun c => if (c =? a)%N then b else [c]) s.

(** [sep.join(parts)]. *)
Fixpoint join (sep : str) (parts : list str) : str :=
  match parts with
  | [] => []
  | [p] => p
  | p :: rest => p ++ sep ++ join sep rest
  end.

(** [s.endswith(t)]. *)
Definition endswith (s t : str) : bool :=
  bool_decide (drop (length s - length t) s = t).

End Py.

(** ** Parsed documents

    What [xml.etree.ElementTree] and [json] hand to the ingest code. *)

#[local] Unset Elimination Schemes.
Inductive Element :=
| Elem (tag : str) (attrib : list (str * str)) (text : option str) (children : list Element).
#[local] Set Elimination Schemes.

(** The [properties] object of one GeoJSON feature of the weather API, as
    the members the ingest loop reads; each is a JSON string or absent. *)
Module Props.
Record t := {
  at_id : option str;       (* "@id" *)
  headline : option str;
  event : option str;
  severity : option str;
  description : option str;
  instruction : option str;
  expires : option str;
  ends : option str;
  sent : option str;
  effective : option str;
}.
Definition empty : t := Build_t None None None None None None None None None None.
End Props.

(** One member of the [features] array. *)
Module Feature.
Record t := {
  id : option str;
  properties : option Props.t;
}.
End Feature.

(** ** What the interpreter and its libraries supply

    Functions of the Python standard library whose behaviour rests on large
    tables (HTML entities, the Unicode database, the regular expression
    engine, date parsers) are not part of the repository. The code is
    embedded over an arbitrary implementation of them. *)

Inductive gen_category :=
| Lu | Ll | Lt | Lm | Lo | Mn | Mc | Me | Nd | Nl | No
| Pc | Pd | Ps | Pe | Pi | Pf | Po | Sm | Sc | Sk | So
| Zs | Zl | Zp | Cc | Cf | Cs | Co | Cn.

(** A compiled pattern, seen through the one question [re.sub] asks: given
    the text before the scan position and the text from it on, the length of
    the match that starts at this position, if there is one. *)
Definition matcher := str -> str -> option nat.

Record PyLib := {
  html_unescape : str -> str;
  unicodedata_category : N -> gen_category;
  str_lower : str -> str;
  (** [datetime.fromisoformat]; [None] stands for the [ValueError]. *)
  datetime_fromisoformat : str -> option Z;
  (** [email.utils.parsedate_to_datetime], naive results read as UTC. *)
  parsedate_to_datetime : str -> option Z;
  (** [<(script|style)[^>]*>.*?</\1>], IGNORECASE | DOTALL *)
  SCRIPT_STYLE_RE : matcher;
  IMG_ATTR_GARBAGE_RE : matcher;
  ATTR_GARBAGE_RE : matcher;
  WP_IMG_GARBAGE_RE : matcher;
  (** [raw.decode("utf-8", errors="replace")] *)
  decode_utf8_replace : list Z -> str;
  (** [ET.fromstring]; the error is the text of the [ParseError]. *)
  ET_fromstring : str -> Element + str;
  (** [json.loads(resp.read().decode("utf-8")).get("features") or []];
      the error is the text of the exception raised. *)
  json_loads_features : list Z -> list Feature.t + str;
}.

(** ** text_clean.py *)

Module TextClean.

Definition LT : N := 60.   (* '<' *)
Definition GT : N := 62.   (* '>' *)
Definition SP : N := 32.   (* ' ' *)
Definition LF : N := 10.   (* '\n' *)

(** [pattern.sub(repl, s)]: scan left to right; where the pattern matches,
    emit [repl] and skip the matched span, elsewhere copy the character.
    [skip] counts the characters of the current match still to pass. *)
Fixpoint sub_loop (m : matcher) (repl : str) (pre suf : str) (skip : nat) : str :=
  match suf with
  | [] =>
      match skip with
      | 0 => match m pre [] with Some _ => repl | None => [] end
      | S _ => []
      end
  | c :: rest =>
      match skip with
      | S k => sub_loop m repl (pre ++ [c]) rest k
      | 0 =>
          match m pre suf with
          | Some 0 => repl ++ c :: sub_loop m repl (pre ++ [c]) rest 0
          | Some (S k) => repl ++ sub_loop m repl (pre ++ [c]) rest k
          | None => c :: sub_loop m repl (pre ++ [c]) rest 0
          end
      end
  end.

Definition re_sub (m : matcher) (repl : str) (s : str) : str :=
  sub_loop m repl [] s 0.

(** [_WELL_FORMED_TAG_RE = <[^>]*>] *)
Definition WELL_FORMED_TAG_RE : matcher := fun _ suf =>
  match suf with
  | c :: rest =>
      if (c =? LT)%N then
        let inner := Py.take_while (fun x => negb (x =? GT)%N) rest in
        match drop (length inner) rest with
        | _ :: _ => Some (length inner + 2)
        | [] => None
        end
      else None
  | [] => None
  end.

(** [<[^\n]*$]: [$] holds at the end of the text and before a final
    newline. *)
Definition DANGLING_RE : matcher := fun _ suf =>
  match suf with
  | c :: rest =>
      if (c =? LT)%N then
        let line := Py.take_while (fun x => negb (x =? LF)%N) rest in
        match drop (length line) rest with
        | [] | [_] => Some (S (length line))
        | _ => None
        end
      else None
  | [] => None
  end.

Definition tag_start (c : N) : bool :=
  ((65 <=? c) && (c <=? 90) || (97 <=? c) && (c <=? 122)
   || (c =? 33) || (c =? 47))%N.

(** [_TAG_FRAGMENT_RE = <[A-Za-z!/][^>\n]{0,5000}] *)
Definition TAG_FRAGMENT_RE : matcher := fun _ suf =>
  match suf with
  | c :: d :: rest =>
      if (c =? LT)%N && tag_start d then
        let body := Py.take_while (fun x => negb (x =? GT)%N && negb (x =? LF)%N) rest in
        Some (2 + length (take 5000 body))
      else None
  | _ => None
  end.

(** [\s+] *)
Definition WS_RUN_RE : matcher := fun _ suf =>
  match length (Py.take_while Py.isspace suf) with
  | 0 => None
  | n => Some n
  end.

(** What [re.sub(r"\s+", " ", s)] computes, as a one-pass scan that
    remembers whether it is inside a run. *)
Fixpoint collapse (in_run : bool) (s : str) : str :=
  match s with
  | [] => []
  | c :: r =>
      if Py.isspace c
      then (if in_run then collapse true r else SP :: collapse true r)
      else c :: collapse false r
  end.

Definition is_Cc_or_Cf (g : gen_category) : bool :=
  match g with Cc | Cf => true | _ => false end.

(** No two neighbours are both whitespace. *)
Fixpoint no_ws_pair (s : str) : Prop :=
  match s with
  | a :: (b :: _) as t => ~ (Py.isspace a = true /\ Py.isspace b = true) /\ no_ws_pair t
  | _ => True
  end.

(** The only whitespace character present is U+0020. *)
Definition only_plain_space (s : str) : Prop :=
  Forall (fun c => Py.isspace c = true -> c = SP) s.

Section WithLib.
Context (lib : PyLib).

Definition strip_markup_to_text (s : str) : str :=
  if negb (Py.truthy s) then [] else
  let s := Py.replace1 0xA0 [SP] (html_unescape lib s) in
  let s := re_sub (SCRIPT_STYLE_RE lib) [SP] s in
  let s := re_sub WELL_FORMED_TAG_RE [SP] s in
  let s := re_sub DANGLING_RE [SP] s in
  let s := re_sub TAG_FRAGMENT_RE [SP] s in
  let s := Py.replace1 GT [SP] (Py.replace1 LT [SP] s) in
  let s := re_sub (IMG_ATTR_GARBAGE_RE lib) [SP] s in
  let s := re_sub (ATTR_GARBAGE_RE lib) [SP] s in
  let s := re_sub (WP_IMG_GARBAGE_RE lib) [SP] s in
  let s := List.filter (fun ch => negb (is_Cc_or_Cf (unicodedata_category lib ch))) s in
  let s := Py.replace1 0xFFFC [SP] (Py.replace1 0xFFFD [SP] s) in
  Py.strip (re_sub WS_RUN_RE [SP] s).

End WithLib.

End TextClean.

(** ** hashlib.sha256 and str.encode("utf-8") *)

Module Hashing.
Local Open Scope Z_scope.

Abbreviation bytes := (list Z).

(** *** UTF-8 *)

(** The octets of one code point; [None] is the [UnicodeEncodeError]
    raised for a surrogate (no code point lies above U+10FFFF). *)
Definition encode_cp (c : N) : option bytes :=
  let z := Z.of_N c in
  if z <? 0x80 then Some [z]
  else if z <? 0x800 then Some [0xC0 + z / 64; 0x80 + z mod 64]
  else if z <? 0x10000 then
    if (0xD800 <=? z) && (z <=? 0xDFFF) then None
    else Some [0xE0 + z / 4096; 0x80 + (z / 64) mod 64; 0x80 + z mod 64]
  else if z <? 0x110000 then
    Some [0xF0 + z / 262144; 0x80 + (z / 4096) mod 64;
          0x80 + (z / 64) mod 64; 0x80 + z mod 64]
  else None.

Fixpoint encode_utf8 (s : str) : option bytes :=
  match s with
  | [] => Some []
  | c :: rest =>
      match encode_cp c, encode_utf8 rest with
      | Some b, Some bs => Some (b ++ bs)
      | _, _ => None
      end
  end.

(** *** SHA-256 (FIPS 180-4) on 32-bit words *)

Definition w32 (x : Z) : Z := x mod 2 ^ 32.
Definition add32 (a b : Z) : Z := w32 (a + b).
Definition rotr (n x : Z) : Z :=
  Z.lor (Z.shiftr x n) (w32 (Z.shiftl x (32 - n))).
Definition shr (n x : Z) : Z := Z.shiftr x n.

Definition Ch (x y z : Z) : Z :=
  Z.lxor (Z.land x y) (Z.land (Z.lxor x 0xffffffff) z).
Definition Maj (x y z : Z) : Z :=
  Z.lxor (Z.lxor (Z.land x y) (Z.land x z)) (Z.land y z).
Definition Sigma0 (x : Z) : Z := Z.lxor (Z.lxor (rotr 2 x) (rotr 13 x)) (rotr 22 x).
Definition Sigma1 (x : Z) : Z := Z.lxor (Z.lxor (rotr 6 x) (rotr 11 x)) (rotr 25 x).
Definition sigma0 (x : Z) : Z := Z.lxor (Z.lxor (rotr 7 x) (rotr 18 x)) (shr 3 x).
Definition sigma1 (x : Z) : Z := Z.lxor (Z.lxor (rotr 17 x) (rotr 19 x)) (shr 10 x).

(** The round constants: the first 32 bits of the fractional parts of the
    cube roots of the first 64 primes; the initial hash value: the same of
    the square roots of the first 8 primes. *)
Definition is_prime (n : Z) : bool :=
  forallb (fun d => negb (n mod d =? 0)) (map Z.of_nat (seq 2 (Z.to_nat n - 2))).

Definition primes : list Z :=
  List.filter is_prime (map Z.of_nat (seq 2 310)).

(** The integer cube root, one bit at a time from bit [n - 1] down. *)
Fixpoint cbrt_bits (n : nat) (x acc : Z) : Z :=
  match n with
  | O => acc
  | S k =>
      let b := acc + 2 ^ Z.of_nat k in
      if b * b * b <=? x then cbrt_bits k x b else cbrt_bits k x acc
  end.

Definition K256 : list Z :=
  map (fun p => w32 (cbrt_bits 40 (p * 2 ^ 96) 0)) primes.

Definition H256 : list Z :=
  map (fun p => w32 (Z.sqrt (p * 2 ^ 64))) (firstn 8 primes).

(** Big-endian octets of [x], [n] of them. *)
Fixpoint be_bytes (n : nat) (x : Z) : bytes :=
  match n with
  | O => []
  | S k => (x / 256 ^ Z.of_nat k) mod 256 :: be_bytes k x
  end.

(** The message followed by 0x80, zeros up to 56 modulo 64, and the bit
    length on eight octets. *)
Definition pad (msg : bytes) : bytes :=
  let len := Z.of_nat (length msg) in
  let zeros := Z.to_nat ((55 - len) mod 64) in
  msg ++ [0x80] ++ repeat 0 zeros ++ be_bytes 8 (8 * len).

Fixpoint be_words (n : nat) (b : bytes) : list Z :=
  match n, b with
  | S k, b0 :: b1 :: b2 :: b3 :: rest =>
      (((b0 * 256 + b1) * 256 + b2) * 256 + b3) :: be_words k rest
  | _, _ => []
  end.

(** The message schedule, most recent word first: [extend n ws] appends
    [n] words to a schedule whose reversed prefix is [ws]. *)
Fixpoint extend (n : nat) (ws : list Z) : list Z :=
  match n with
  | O => ws
  | S k =>
      let w := add32 (add32 (sigma1 (nth 1 ws 0)) (nth 6 ws 0))
                     (add32 (sigma0 (nth 14 ws 0)) (nth 15 ws 0)) in
      extend k (w :: ws)
  end.

Definition schedule (block : list Z) : list Z := rev (extend 48 (rev block)).

Record regs := Regs { ra : Z; rb : Z; rc : Z; rd : Z; re : Z; rf : Z; rg : Z; rh : Z }.

Definition round (r : regs) (kw : Z * Z) : regs :=
  let '(k, w) := kw in
  let t1 := add32 (add32 (add32 (add32 (rh r) (Sigma1 (re r))) (Ch (re r) (rf r) (rg r))) k) w in
  let t2 := add32 (Sigma0 (ra r)) (Maj (ra r) (rb r) (rc r)) in
  Regs (add32 t1 t2) (ra r) (rb r) (rc r) (add32 (rd r) t1) (re r) (rf r) (rg r).

Definition compress (h : regs) (block : list Z) : regs :=
  let r := fold_left round (combine K256 (schedule block)) h in
  Regs (add32 (ra h) (ra r)) (add32 (rb h) (rb r)) (add32 (rc h) (rc r)) (add32 (rd h) (rd r))
       (add32 (re h) (re r)) (add32 (rf h) (rf r)) (add32 (rg h) (rg r)) (add32 (rh h) (rh r)).

Fixpoint blocks (n : nat) (b : bytes) : list (list Z) :=
  match n with
  | O => []
  | S k => be_words 16 (firstn 64 b) :: blocks k (skipn 64 b)
  end.

Definition sha256 (msg : bytes) : bytes :=
  let p := pad msg in
  let h := fold_left compress (blocks (length p / 64) p)
             (Regs 0x6a09e667 0xbb67ae85 0x3c6ef372 0xa54ff53a
                   0x510e527f 0x9b05688c 0x1f83d9ab 0x5be0cd19) in
  flat_map (be_bytes 4) [ra h; rb h; rc h; rd h; re h; rf h; rg h; rh h].

(** *** hexdigest *)

Definition hex_digit (n : Z) : N :=
  if n <? 10 then Z.to_N (48 + n) else Z.to_N (87 + n).

Definition hexdigest (d : bytes) : str :=
  flat_map (fun b => [hex_digit (b / 16); hex_digit (b mod 16)]) d.

(** *** ingest.py: [_sha256_text] *)

Definition _sha256_text (value : str) : option str :=
  match encode_utf8 value with
  | Some b => Some (hexdigest (sha256 b))
  | None => None
  end.

End Hashing.

(** ** models.py *)

Module Models.

(** A timezone-aware [datetime], as microseconds since the epoch. *)
Definition datetime := Z.

Module AlertSeverity.
Inductive t := INFO | ADVISORY | WARNING | EMERGENCY.
End AlertSeverity.

Module EndpointKind.
Inductive t := RSS | ATOM | JSON_API | HTML_SCRAPE.
End EndpointKind.

Module ItemKind.
Inductive t := RSS | ATOM | JSON_API | HTML_SCRAPE | MANUAL.
End ItemKind.

Module SourceTier.
Inductive t := T1_AUTH | T2_INST | T3_COMM | T4_OBS.
End SourceTier.

Module ScopeKind.
Inductive t := REGION | COUNTY | NEIGHBORHOOD | CITY | CUSTOM.
End ScopeKind.

(** The JSONB payload kept with an item: the feed's
    [{"feed_title": ..., "endpoint": ...}] or the alert's [properties]. *)
Inductive raw_payload :=
| RawFeed (feed_title : option str) (endpoint : str)
| RawProps (props : Props.t).

(** A JSON value of a run's [details]. *)
#[local] Unset Elimination Schemes.
Inductive json :=
| JStr (s : str)
| JInt (n : Z)
| JObj (members : list (str * json)).
#[local] Set Elimination Schemes.

Module Source.
Record t := {
  id : N;
  name : str;
  homepage_url : option str;
  tier : SourceTier.t;
  kind : ItemKind.t;
  default_language : option str;
  trust_notes : option str;
  enabled : bool;
}.
End Source.

Module SourceEndpoint.
Record t := {
  id : N;
  source_id : N;
  kind : EndpointKind.t;
  url : str;
  poll_interval_seconds : Z;
  http_etag : option str;
  http_last_modified : option str;
  enabled : bool;
}.
Definition set_http_etag (v : option str) (e : t) : t :=
  Build_t (id e) (source_id e) (kind e) (url e) (poll_interval_seconds e)
          v (http_last_modified e) (enabled e).
Definition set_http_last_modified (v : option str) (e : t) : t :=
  Build_t (id e) (source_id e) (kind e) (url e) (poll_interval_seconds e)
          (http_etag e) v (enabled e).
End SourceEndpoint.

(** [id] and [ingested_at] are filled by column defaults at INSERT and
    are not read by the ingest code; they are left out. *)
Module Item.
Record t := {
  source_id : N;
  endpoint_id : N;
  external_id : str;
  published_at : option datetime;
  updated_at : option datetime;
  title : option str;
  author : option str;
  canonical_url : option str;
  summary : option str;
  content_text : option str;
  content_html : option str;
  raw_json : option raw_payload;
  raw_html : option str;
  hash_content : str;
}.
End Item.

Module Alert.
Record t := {
  severity : AlertSeverity.t;
  title : str;
  body : str;
  scope_kind : ScopeKind.t;
  scope_ref : str;
  trigger_source_id : option N;
  trigger_url : option str;
  language_profile : AlertSeverity.t;
  created_at : datetime;
  updated_at : datetime;
  expires_at : option datetime;
}.
End Alert.

Module IngestionMetric.
Record t := {
  metric : str;
  value : Z;
  tags : list (str * str);
}.
End IngestionMetric.

Module IngestionRun.
Record t := {
  started_at : datetime;
  finished_at : option datetime;
  status : str;
  details : list (str * json);
}.
End IngestionRun.

#[global] Instance AlertSeverity_eq_dec : EqDecision AlertSeverity.t.
Proof. solve_decision. Defined.
#[global] Instance EndpointKind_eq_dec : EqDecision EndpointKind.t.
Proof. solve_decision. Defined.

End Models.

(** ** db.py and the SQLAlchemy session

    [sessionmaker(autoflush=False, autocommit=False, expire_on_commit=False)]:
    a query reads the rows the database holds inside the open transaction;
    objects handed to [db.add] stay pending, unseen by queries, until
    [db.flush()] or [db.commit()]. A loaded object is shared with its row:
    assigning to an attribute changes the row read by later code of the same
    session. No query of the ingest code filters on a column it assigns, so
    row and object are kept as one. *)

Module Db.
Import Models.

(** Exceptions: [urllib.error.HTTPError] is told apart by the code, every
    other exception is only caught as [Exception] and printed. *)
Inductive exn :=
| HTTPError (code : Z) (msg : str)
| Error (msg : str).

(** [str(e)] *)
Definition str_of_exn (e : exn) : str :=
  match e with HTTPError _ msg => msg | Error msg => msg end.

(** How a computation ends: a value, a raised exception, or the death of
    the process (kill, power loss), which no handler sees. *)
Inductive outcome (A : Type) :=
| Ok (a : A)
| Raise (e : exn)
| Abort.
Arguments Ok {A} a.
Arguments Raise {A} e.
Arguments Abort {A}.

Record table (A : Type) := Table { rows : list A; pending : list A }.
Arguments Table {A} rows pending.
Arguments rows {A} t.
Arguments pending {A} t.

Definition add {A} (x : A) (t : table A) : table A :=
  Table (rows t) (pending t ++ [x]).

Definition flush_table {A} (t : table A) : table A :=
  Table (rows t ++ pending t) [].

(** [obj.attr = v] on the loaded object that is row [i]. *)
Definition update {A} (i : nat) (f : A -> A) (t : table A) : table A :=
  Table (alter f i (rows t)) (pending t).

(** The rows a query selects, each with its position. *)
Definition select {A} (p : A -> bool) (l : list A) : list (nat * A) :=
  List.filter (fun ix => p ix.2) (imap (fun i x => (i, x)) l).

(** [query.one_or_none()] *)
Definition one_or_none {A} (p : A -> bool) (t : table A) : outcome (option (nat * A)) :=
  match select p (rows t) with
  | [] => Ok None
  | [r] => Ok (Some r)
  | _ => Raise (Error (py "Multiple rows were found when one or none was required"))
  end.

(** What has been committed. *)
Record store := Store {
  st_sources : list Source.t;
  st_endpoints : list SourceEndpoint.t;
  st_items : list Item.t;
  st_alerts : list Alert.t;
  st_metrics : list IngestionMetric.t;
  st_runs : list IngestionRun.t;
}.

Record session := Session {
  sources : table Source.t;
  endpoints : table SourceEndpoint.t;
  items : table Item.t;
  alerts : table Alert.t;
  metrics : table IngestionMetric.t;
  runs : table IngestionRun.t;
}.

(** [session()]: a new transaction over the committed rows. *)
Definition open_session (d : store) : session :=
  Session (Table (st_sources d) []) (Table (st_endpoints d) [])
          (Table (st_items d) []) (Table (st_alerts d) [])
          (Table (st_metrics d) []) (Table (st_runs d) []).

Definition item_key (it : Item.t) : N * str :=
  (Item.endpoint_id it, Item.external_id it).

(** [uq_items_endpoint_external] *)
Definition items_unique (l : list Item.t) : bool :=
  bool_decide (NoDup (map item_key l)).

(** [db.flush()]: INSERT the pending objects; the unique constraint of
    [items] is the one the ingest code can violate. *)
Definition flush (s : session) : outcome session :=
  if items_unique (rows (items s) ++ pending (items s)) then
    Ok (Session (flush_table (sources s)) (flush_table (endpoints s))
                (flush_table (items s)) (flush_table (alerts s))
                (flush_table (metrics s)) (flush_table (runs s)))
  else Raise (Error (py "duplicate key value violates unique constraint uq_items_endpoint_external")).

Definition snapshot (s : session) : store :=
  Store (rows (sources s)) (rows (endpoints s)) (rows (items s))
        (rows (alerts s)) (rows (metrics s)) (rows (runs s)).

Definition set_sources v s := Session v (endpoints s) (items s) (alerts s) (metrics s) (runs s).
Definition set_endpoints v s := Session (sources s) v (items s) (alerts s) (metrics s) (runs s).
Definition set_items v s := Session (sources s) (endpoints s) v (alerts s) (metrics s) (runs s).
Definition set_alerts v s := Session (sources s) (endpoints s) (items s) v (metrics s) (runs s).
Definition set_metrics v s := Session (sources s) (endpoints s) (items s) (alerts s) v (runs s).
Definition set_runs v s := Session (sources s) (endpoints s) (items s) (alerts s) (metrics s) v.

(** *** The running process

    [durable] is the committed database, [ses] the open session, [tick]
    counts the readings of the clock and [uuids] the identifiers drawn. *)
Record state := State {
  durable : store;
  ses : session;
  tick : nat;
  uuids : nat;
}.

Definition M (A : Type) : Type := state -> outcome A * state.

Definition ret {A} (a : A) : M A := fun st => (Ok a, st).
Definition raise {A} (e : exn) : M A := fun st => (Raise e, st).
Definition abort {A} : M A := fun st => (Abort, st).

Definition bind {A B} (c : M A) (k : A -> M B) : M B := fun st =>
  match c st with
  | (Ok a, st') => k a st'
  | (Raise e, st') => (Raise e, st')
  | (Abort, st') => (Abort, st')
  end.

(** [try: c  except Exception as e: h e] *)
Definition try_except {A} (c : M A) (h : exn -> M A) : M A := fun st =>
  match c st with
  | (Raise e, st') => h e st'
  | r => r
  end.

Definition lift {A} (o : outcome A) : M A := fun st => (o, st).
Definition get_ses : M session := fun st => (Ok (ses st), st).
Definition modify_ses (f : session -> session) : M unit := fun st =>
  (Ok tt, State (durable st) (f (ses st)) (tick st) (uuids st)).

Definition db_flush : M unit := fun st =>
  match flush (ses st) with
  | Ok s' => (Ok tt, State (durable st) s' (tick st) (uuids st))
  | Raise e => (Raise e, st)
  | Abort => (Abort, st)
  end.

(** [db.commit()]: flush, then make the transaction's rows the committed
    ones. *)
Definition db_commit : M unit := fun st =>
  match flush (ses st) with
  | Ok s' => (Ok tt, State (snapshot s') s' (tick st) (uuids st))
  | Raise e => (Raise e, st)
  | Abort => (Abort, st)
  end.

(** [with session() as db: body]: the session starts from the committed
    rows and what it did not commit is rolled back when the block is left. *)
Definition with_session {A} (body : M A) : M A := fun st =>
  let st0 := State (durable st) (open_session (durable st)) (tick st) (uuids st) in
  match body st0 with
  | (Abort, st') => (Abort, st')
  | (r, st') => (r, State (durable st') (open_session (durable st')) (tick st') (uuids st'))
  end.

(** Whatever the outcome, the state a computation leaves is related to the
    state it started in. *)
Definition stable (R : state -> state -> Prop) {A} (c : M A) : Prop :=
  forall st, R st (c st).2.

(** Computations that leave one table of the session alone. *)
Definition keeps {T} (proj : session -> T) : state -> state -> Prop :=
  fun st st' => proj (ses st') = proj (ses st).

End Db.

Declare Scope py_scope.
Delimit Scope py_scope with py.
Notation "x <- c ;; k" := (Db.bind c (fun x => k))
  (at level 100, c at next level, right associativity) : py_scope.
Notation "c ;; k" := (Db.bind c (fun _ => k))
  (at level 100, right associativity) : py_scope.

(** ** ingest.py *)

Module Ingest.
Import Models Db.
Local Open Scope py_scope.

Record IngestResult := { inserted : nat; updated : nat }.

(** What [urlopen] does with a request. *)
Inductive reply :=
| Response (status : Z) (body : list Z) (headers : list (str * str))
| Fails (e : exn)
| Dies.

(** The surroundings of one run: the network, the clock, the random
    identifiers, the process environment and the file system. *)
Record World := {
  urlopen : str -> list (str * str) -> reply;
  utcnow : nat -> datetime;
  uuid4 : nat -> N;
  environ : str -> option str;
  (** the lines of a text file; [None] when it cannot be opened or read *)
  read_lines : str -> option (list str);
  (** [int(os.environ.get("MSPMETRO_FEED_MAX_ITEMS", "25"))] *)
  feed_max_items : Z;
}.

(** [d.get(k)] on a dict built from [items] in order: the last binding of a
    key is the one kept. *)
Definition dict_get {V} (k : str) (items : list (str * V)) : option V :=
  match List.filter (fun kv => bool_decide (kv.1 = k)) (rev items) with
  | kv :: _ => Some kv.2
  | [] => None
  end.

(** [l[:n]] for an [int] n. *)
Definition slice_to {A} (n : Z) (l : list A) : list A :=
  if (0 <=? n)%Z then take (Z.to_nat n) l
  else take (length l - Z.to_nat (- n)) l.

(** [a or b] on optional values whose falsy members are [None] and the
    empty string. *)
Definition or_opt (a b : option str) : option str :=
  match a with
  | Some s => if Py.truthy s then a else b
  | None => b
  end.

Definition is_truthy (a : option str) : bool :=
  match a with Some s => Py.truthy s | None => false end.

Module Entry.
Record t := {
  external_id : str;
  title : option str;
  url : option str;
  author : option str;
  published : option str;
  summary : option str;
  content_html : option str;
}.
End Entry.

Record FetchBytesResult := {
  status : Z;
  body : list Z;
  etag : option str;
  last_modified : option str;
}.

(** The attributes the feed update path may assign, and their values. *)
Inductive attr :=
| updated_at | title | author | canonical_url | summary | content_text
| content_html | raw_json | hash_content | published_at.

Inductive value :=
| VNone
| VStr (s : str)
| VTime (t : datetime)
| VRaw (r : raw_payload).

Definition of_str (o : option str) : value :=
  match o with Some s => VStr s | None => VNone end.
Definition of_time (o : option datetime) : value :=
  match o with Some t => VTime t | None => VNone end.
Definition of_raw (o : option raw_payload) : value :=
  match o with Some r => VRaw r | None => VNone end.
Definition to_str (v : value) : option str :=
  match v with VStr s => Some s | _ => None end.
Definition to_time (v : value) : option datetime :=
  match v with VTime t => Some t | _ => None end.
Definition to_raw (v : value) : option raw_payload :=
  match v with VRaw r => Some r | _ => None end.

Definition getattr (i : Item.t) (a : attr) : value :=
  match a with
  | updated_at => of_time (Item.updated_at i)
  | title => of_str (Item.title i)
  | author => of_str (Item.author i)
  | canonical_url => of_str (Item.canonical_url i)
  | summary => of_str (Item.summary i)
  | content_text => of_str (Item.content_text i)
  | content_html => of_str (Item.content_html i)
  | raw_json => of_raw (Item.raw_json i)
  | hash_content => VStr (Item.hash_content i)
  | published_at => of_time (Item.published_at i)
  end.

(** [setattr(i, a, v)] for a value of the column's type; the update path
    never assigns [None]. *)
Definition assign {X} (i : Item.t) (o : option X) (g : X -> Item.t) : Item.t :=
  match o with Some x => g x | None => i end.

Definition setattr (i : Item.t) (a : attr) (v : value) : Item.t :=
  match a with
  | updated_at => assign i (to_time v) (fun x =>
      Item.Build_t (Item.source_id i) (Item.endpoint_id i) (Item.external_id i)
        (Item.published_at i) (Some x) (Item.title i) (Item.author i) (Item.canonical_url i)
        (Item.summary i) (Item.content_text i) (Item.content_html i) (Item.raw_json i)
        (Item.raw_html i) (Item.hash_content i))
  | title => assign i (to_str v) (fun x =>
      Item.Build_t (Item.source_id i) (Item.endpoint_id i) (Item.external_id i)
        (Item.published_at i) (Item.updated_at i) (Some x) (Item.author i) (Item.canonical_url i)
        (Item.summary i) (Item.content_text i) (Item.content_html i) (Item.raw_json i)
        (Item.raw_html i) (Item.hash_content i))
  | author => assign i (to_str v) (fun x =>
      Item.Build_t (Item.source_id i) (Item.endpoint_id i) (Item.external_id i)
        (Item.published_at i) (Item.updated_at i) (Item.title i) (Some x) (Item.canonical_url i)
        (Item.summary i) (Item.content_text i) (Item.content_html i) (Item.raw_json i)
        (Item.raw_html i) (Item.hash_content i))
  | canonical_url => assign i (to_str v) (fun x =>
      Item.Build_t (Item.source_id i) (Item.endpoint_id i) (Item.external_id i)
        (Item.published_at i) (Item.updated_at i) (Item.title i) (Item.author i) (Some x)
        (Item.summary i) (Item.content_text i) (Item.content_html i) (Item.raw_json i)
        (Item.raw_html i) (Item.hash_content i))
  | summary => assign i (to_str v) (fun x =>
      Item.Build_t (Item.source_id i) (Item.endpoint_id i) (Item.external_id i)
        (Item.published_at i) (Item.updated_at i) (Item.title i) (Item.author i) (Item.canonical_url i)
        (Some x) (Item.content_text i) (Item.content_html i) (Item.raw_json i)
        (Item.raw_html i) (Item.hash_content i))
  | content_text => assign i (to_str v) (fun x =>
      Item.Build_t (Item.source_id i) (Item.endpoint_id i) (Item.external_id i)
        (Item.published_at i) (Item.updated_at i) (Item.title i) (Item.author i) (Item.canonical_url i)
        (Item.summary i) (Some x) (Item.content_html i) (Item.raw_json i)
        (Item.raw_html i) (Item.hash_content i))
  | content_html => assign i (to_str v) (fun x =>
      Item.Build_t (Item.source_id i) (Item.endpoint_id i) (Item.external_id i)
        (Item.published_at i) (Item.updated_at i) (Item.title i) (Item.author i) (Item.canonical_url i)
        (Item.summary i) (Item.content_text i) (Some x) (Item.raw_json i)
        (Item.raw_html i) (Item.hash_content i))
  | raw_json => assign i (to_raw v) (fun x =>
      Item.Build_t (Item.source_id i) (Item.endpoint_id i) (Item.external_id i)
        (Item.published_at i) (Item.updated_at i) (Item.title i) (Item.author i) (Item.canonical_url i)
        (Item.summary i) (Item.content_text i) (Item.content_html i) (Some x)
        (Item.raw_html i) (Item.hash_content i))
  | hash_content => assign i (to_str v) (fun x =>
      Item.Build_t (Item.source_id i) (Item.endpoint_id i) (Item.external_id i)
        (Item.published_at i) (Item.updated_at i) (Item.title i) (Item.author i) (Item.canonical_url i)
        (Item.summary i) (Item.content_text i) (Item.content_html i) (Item.raw_json i)
        (Item.raw_html i) x)
  | published_at => assign i (to_time v) (fun x =>
      Item.Build_t (Item.source_id i) (Item.endpoint_id i) (Item.external_id i)
        (Some x) (Item.updated_at i) (Item.title i) (Item.author i) (Item.canonical_url i)
        (Item.summary i) (Item.content_text i) (Item.content_html i) (Item.raw_json i)
        (Item.raw_html i) (Item.hash_content i))
  end.

#[global] Instance attr_eq_dec : EqDecision attr.
Proof. solve_decision. Defined.
#[global] Instance props_eq_dec : EqDecision Props.t.
Proof. solve_decision. Defined.
#[global] Instance raw_payload_eq_dec : EqDecision raw_payload.
Proof. solve_decision. Defined.
#[global] Instance value_eq_dec : EqDecision value.
Proof. solve_decision. Defined.

(** [for x in l: acc = f acc x] *)
Fixpoint foldM {A B} (f : B -> A -> M B) (l : list A) (b : B) : M B :=
  match l with
  | [] => ret b
  | x :: l' => b' <- f b x ;; foldM f l' b'
  end.

(** The loop of the update path: for each [(attr, value)] of the dict, in
    order, overwrite when the stored value differs and the new one is not
    [None]; [changed] records whether any assignment took place. *)
Fixpoint merge (existing : Item.t) (changed : bool) (kvs : list (attr * value))
  : Item.t * bool :=
  match kvs with
  | [] => (existing, changed)
  | (a, v) :: rest =>
      if bool_decide (getattr existing a <> v) && bool_decide (v <> VNone)
      then merge (setattr existing a v) true rest
      else merge existing changed rest
  end.

(** The verdict of the loop for one pair. *)
Definition overwrites (i : Item.t) (kv : attr * value) : bool :=
  bool_decide (getattr i kv.1 <> kv.2) && bool_decide (kv.2 <> VNone).

(** A value fits a column when it is [None] or of the column's type. *)
Definition fits (a : attr) (v : value) : Prop :=
  match a, v with
  | _, VNone => True
  | (updated_at | published_at), VTime _ => True
  | raw_json, VRaw _ => True
  | (title | author | canonical_url | summary | content_text | content_html | hash_content), VStr _ => True
  | _, _ => False
  end.

Section WithWorld.
Context (lib : PyLib) (W : World).

Definition now : M datetime := fun st =>
  (Ok (utcnow W (tick st)), State (durable st) (ses st) (S (tick st)) (uuids st)).

Definition new_uuid : M N := fun st =>
  (Ok (uuid4 W (uuids st)), State (durable st) (ses st) (tick st) (S (uuids st))).

Definition _normalize_url (u : str) : str :=
  let u := Py.strip u in
  if negb (Py.truthy u) then [] else
  let u := Py.strip (Py.take_while (fun c => negb (c =? 35)%N) u) in
  if Py.endswith u (py "/") then take (length u - 1) u else u.

Definition startswith (s t : str) : bool := bool_decide (take (length t) s = t).

Definition _load_denylist_urls : gset str :=
  let path := Py.strip (Py.or_str (environ W (py "MSPMETRO_DENYLIST_URLS_FILE"))
                                  (py "backend/config/denylist_urls.txt")) in
  match read_lines W path with
  | None => ∅
  | Some lines =>
      fold_left (fun denied ln =>
                   let ln := Py.strip ln in
                   if negb (Py.truthy ln) || startswith ln (py "#") then denied
                   else denied ∪ {[ _normalize_url ln ]})
                lines ∅
  end.

Definition _user_agent : str :=
  let ua := Py.strip (match environ W (py "MSPMETRO_USER_AGENT") with Some v => v | None => [] end) in
  if Py.truthy ua then ua else
  let profile := Py.strip (Py.or_str (environ W (py "MSPMETRO_UA_PROFILE")) (py "chrome-linux")) in
  let chrome_linux :=
    py "Mozilla/5.0 (X11; Linux x86_64) AppleWebKit/537.36 (KHTML, like Gecko) Chrome/134.0.0.0 Safari/537.3" in
  if bool_decide (profile = py "safari-mac") then
    py "Mozilla/5.0 (Macintosh; Intel Mac OS X 10_15_7) AppleWebKit/605.1.15 (KHTML, like Gecko) Version/17.10 Safari/605.1.1"
  else if bool_decide (profile = py "chrome-mac") then
    py "Mozilla/5.0 (Macintosh; Intel Mac OS X 10_15_7) AppleWebKit/537.36 (KHTML, like Gecko) Chrome/113.0.0.0 Safari/537.3"
  else if bool_decide (profile = py "chrome-win") then
    py "Mozilla/5.0 (Windows NT 10.0; Win64; x64) AppleWebKit/537.36 (KHTML, like Gecko) Chrome/134.0.0.0 Safari/537.3"
  else chrome_linux.

Definition _parse_dt (value : option str) : option datetime :=
  match value with
  | None => None
  | Some v =>
      if negb (Py.truthy v) then None
      else datetime_fromisoformat lib (Py.replace1 90 (py "+00:00") v)
  end.

Definition _parse_dt_any (value : option str) : option datetime :=
  match value with
  | None => None
  | Some value =>
      if negb (Py.truthy value) then None else
      let v := Py.strip value in
      if negb (Py.truthy v) then None else
      match _parse_dt (Some v) with
      | Some dt => Some dt
      | None => parsedate_to_datetime lib v
      end
  end.

Definition _map_nws_severity (nws : option str) : AlertSeverity.t :=
  let v := str_lower lib (Py.strip (Py.or_str nws [])) in
  if bool_decide (v = py "extreme") then AlertSeverity.EMERGENCY
  else if bool_decide (v = py "severe") then AlertSeverity.WARNING
  else if bool_decide (v = py "moderate") then AlertSeverity.ADVISORY
  else AlertSeverity.INFO.

Definition _fetch_json (url : str) : M (list Feature.t) :=
  match urlopen W url [(py "User-Agent", _user_agent); (py "Accept", py "application/geo+json")] with
  | Response _ raw _ =>
      match json_loads_features lib raw with
      | inl features => ret features
      | inr msg => raise (Error msg)
      end
  | Fails e => raise e
  | Dies => abort
  end.

Definition _fetch_bytes (url accept : str) (etag last_modified : option str)
  : M FetchBytesResult :=
  let headers :=
    [(py "User-Agent", _user_agent); (py "Accept", accept);
     (py "Accept-Language", py "en-US,en;q=0.8"); (py "DNT", py "1")]
    ++ (match etag with
        | Some e => if Py.truthy e then [(py "If-None-Match", e)] else []
        | None => []
        end)
    ++ (match last_modified with
        | Some m => if Py.truthy m then [(py "If-Modified-Since", m)] else []
        | None => []
        end) in
  match urlopen W url headers with
  | Response st body hdrs =>
      let status := if (st =? 0)%Z then 200%Z else st in
      let resp_headers := map (fun kv => (str_lower lib kv.1, kv.2)) hdrs in
      ret {| status := status; body := body;
             etag := dict_get (py "etag") resp_headers;
             last_modified := dict_get (py "last-modified") resp_headers |}
  | Fails (HTTPError code msg) =>
      if (code =? 304)%Z
      then ret {| status := 304; body := []; etag := etag; last_modified := last_modified |}
      else raise (HTTPError code msg)
  | Fails e => raise e
  | Dies => abort
  end.

Definition _strip_html_to_text (s : str) : str :=
  TextClean.strip_markup_to_text lib s.

Definition tag_of (e : Element) : str := match e with Elem t _ _ _ => t end.
Definition children_of (e : Element) : list Element := match e with Elem _ _ _ c => c end.
Definition attrib_of (e : Element) : list (str * str) := match e with Elem _ a _ _ => a end.

(** [el.findall(tag)] and [el.find(tag)]: the direct children with this
    tag, in document order, and the first of them. *)
Definition findall (tag : str) (e : Element) : list Element :=
  List.filter (fun c => bool_decide (tag_of c = tag)) (children_of e).
Definition find (tag : str) (e : Element) : option Element :=
  head (findall tag e).

Definition _text (el : option Element) : str :=
  match el with
  | Some (Elem _ _ (Some t) _) => Py.strip t
  | _ => []
  end.

Fixpoint _first (vals : list str) : str :=
  match vals with
  | [] => []
  | v :: rest => let v := Py.strip v in if Py.truthy v then v else _first rest
  end.

Definition atom (name : str) : str := py "{http://www.w3.org/2005/Atom}" ++ name.
Definition dc (name : str) : str := py "{http://purl.org/dc/elements/1.1/}" ++ name.

Definition sha_or_raise (s : str) : outcome str :=
  match Hashing._sha256_text s with
  | Some h => Ok h
  | None => Raise (Error (py "'utf-8' codec can't encode character: surrogates not allowed"))
  end.

Definition rss_item (it : Element) : outcome Entry.t :=
  let link := _text (find (py "link") it) in
  let guid := _text (find (py "guid") it) in
  let creator := _text (find (dc (py "creator")) it) in
  let author := _text (find (py "author") it) in
  let pub := _text (find (py "pubDate") it) in
  let desc := _text (find (py "description") it) in
  let content := _text (find (py "{http://purl.org/rss/1.0/modules/content/}encoded") it) in
  match sha_or_raise (_text (find (py "title") it) ++ pub) with
  | Ok h =>
      Ok {| Entry.external_id := _first [guid; link; h];
            Entry.title := Py.or_none (_text (find (py "title") it));
            Entry.url := Py.or_none (_first [link; guid]);
            Entry.author := Py.or_none (_first [creator; author]);
            Entry.published := Py.or_none pub;
            Entry.summary := Py.or_none (take 500 desc);
            Entry.content_html := Py.or_none (Py.or_else content desc) |}
  | Raise e => Raise e
  | Abort => Abort
  end.

Fixpoint atom_link (links : list Element) : str :=
  match links with
  | [] => []
  | l :: rest =>
      let rel := str_lower lib (Py.strip (Py.or_str (dict_get (py "rel") (attrib_of l)) (py "alternate"))) in
      let href := Py.strip (Py.or_str (dict_get (py "href") (attrib_of l)) []) in
      if bool_decide (rel = py "alternate") && Py.truthy href then href
      else atom_link rest
  end.

Definition atom_entry (entry : Element) : outcome Entry.t :=
  let link := atom_link (findall (atom (py "link")) entry) in
  let eid := _text (find (atom (py "id")) entry) in
  let title := Py.or_none (_text (find (atom (py "title")) entry)) in
  let pub := Py.or_else (_text (find (atom (py "published")) entry))
                        (_text (find (atom (py "updated")) entry)) in
  let author :=
    Py.or_none (_text (head (flat_map (findall (atom (py "name")))
                                      (findall (atom (py "author")) entry)))) in
  let summary := Py.or_none (_text (find (atom (py "summary")) entry)) in
  let content := Py.or_none (_text (find (atom (py "content")) entry)) in
  match sha_or_raise (Py.or_str title [] ++ pub) with
  | Ok h =>
      Ok {| Entry.external_id := _first [eid; link; h];
            Entry.title := title;
            Entry.url := Py.or_none link;
            Entry.author := author;
            Entry.published := Py.or_none pub;
            Entry.summary := Py.or_none (take 500 (Py.or_str summary []));
            Entry.content_html := or_opt content summary |}
  | Raise e => Raise e
  | Abort => Abort
  end.

(** [[f(x) for x in l]] where [f] may raise. *)
Fixpoint map_outcome {A B} (f : A -> outcome B) (l : list A) : outcome (list B) :=
  match l with
  | [] => Ok []
  | x :: rest =>
      match f x with
      | Ok y => match map_outcome f rest with
                | Ok ys => Ok (y :: ys)
                | Raise e => Raise e
                | Abort => Abort
                end
      | Raise e => Raise e
      | Abort => Abort
      end
  end.

Definition _parse_feed_xml (feed_url : str) (raw : list Z) (limit : Z)
  : outcome (str * option str * list Entry.t) :=
  let txt := decode_utf8_replace lib raw in
  match ET_fromstring lib txt with
  | inr msg => Raise (Error msg)
  | inl root =>
      match find (py "channel") root with
      | Some channel =>
          let title := Py.or_none (_text (find (py "title") channel)) in
          match map_outcome rss_item (slice_to limit (findall (py "item") channel)) with
          | Ok items => Ok (py "rss", title, items)
          | Raise e => Raise e
          | Abort => Abort
          end
      | None =>
          let feed_title := Py.or_none (_text (find (atom (py "title")) root)) in
          match map_outcome atom_entry (slice_to limit (findall (atom (py "entry")) root)) with
          | Ok items => Ok (py "atom", feed_title, items)
          | Raise e => Raise e
          | Abort => Abort
          end
      end
  end.

End WithWorld.

(** The trigger URLs of a list of alerts, and what "at most one alert per
    trigger URL" means for it. *)
Definition alert_urls (l : list Alert.t) : list str := omap Alert.trigger_url l.
Definition at_most_one_alert (l : list Alert.t) : Prop := NoDup (alert_urls l).

(** The filter [Alert.trigger_url == u]. *)
Definition by_url (u : str) (a : Alert.t) : bool :=
  bool_decide (Alert.trigger_url a = Some u).

(** The alerts a commit of the session would write. *)
Definition all_alerts (s : session) : list Alert.t :=
  rows (alerts s) ++ pending (alerts s).

Section Engine.
Context (lib : PyLib) (W : World).

Definition NWS_NAME : str := py "National Weather Service".

Definition _get_or_create_nws_source : M (Source.t * SourceEndpoint.t) :=
  db <- get_ses ;;
  found <- lift (one_or_none (fun s => bool_decide (Source.name s = NWS_NAME)) (sources db)) ;;
  src <- match found with
         | Some (_, src) => ret src
         | None =>
             id <- new_uuid W ;;
             let src := {| Source.id := id; Source.name := NWS_NAME;
                           Source.homepage_url := Some (py "https://www.weather.gov/");
                           Source.tier := SourceTier.T1_AUTH;
                           Source.kind := ItemKind.JSON_API;
                           Source.default_language := Some (py "en");
                           Source.trust_notes := Some (py "Authoritative weather warnings/advisories.");
                           Source.enabled := true |} in
             modify_ses (fun s => set_sources (add src (sources s)) s) ;;
             db_flush ;;
             ret src
         end ;;
  db <- get_ses ;;
  found <- lift (one_or_none
                   (fun e => bool_decide (SourceEndpoint.source_id e = Source.id src)
                             && bool_decide (SourceEndpoint.kind e = EndpointKind.JSON_API))
                   (endpoints db)) ;;
  ep <- match found with
        | Some (_, ep) => ret ep
        | None =>
            id <- new_uuid W ;;
            let ep := {| SourceEndpoint.id := id;
                         SourceEndpoint.source_id := Source.id src;
                         SourceEndpoint.kind := EndpointKind.JSON_API;
                         SourceEndpoint.url := py "https://api.weather.gov/alerts/active?point={lat},{lon}";
                         SourceEndpoint.poll_interval_seconds := 300;
                         SourceEndpoint.http_etag := None;
                         SourceEndpoint.http_last_modified := None;
                         SourceEndpoint.enabled := true |} in
            modify_ses (fun s => set_endpoints (add ep (endpoints s)) s) ;;
            db_flush ;;
            ret ep
        end ;;
  ret (src, ep).

Definition or_time (a b : option datetime) : option datetime :=
  match a with Some _ => a | None => b end.

(** What the loop body derives from one feature. *)
Definition trigger_of (f : Feature.t) : str :=
  let props := match Feature.properties f with Some p => p | None => Props.empty end in
  Py.or_str (or_opt (Feature.id f) (Props.at_id props)) [].

Definition title_of (props : Props.t) : str :=
  Py.strip (Py.or_str (or_opt (Props.headline props) (Props.event props))
                      (py "Weather alert")).

Definition body_of (props : Props.t) : str :=
  let body_parts :=
    (if is_truthy (Props.description props)
     then [Py.strip (Py.or_str (Props.description props) [])] else [])
    ++ (if is_truthy (Props.instruction props)
        then [Py.strip (Py.or_str (Props.instruction props) [])] else []) in
  Py.or_else (take 4000 (Py.join [10; 10]%N (List.filter Py.truthy body_parts)))
             (title_of props).

Definition expires_of (props : Props.t) : option datetime :=
  or_time (_parse_dt lib (Props.expires props)) (_parse_dt lib (Props.ends props)).

(** The alert the loop body writes for a feature: every field but
    [trigger_source_id] and [created_at], which an existing row keeps (its
    [trigger_url] is the one it was selected by). *)
Definition alert_of (scope_ref : str) (now : datetime) (trigger_url : str)
    (props : Props.t) (source_id : option N) (created : datetime) : Alert.t :=
  {| Alert.severity := _map_nws_severity lib (Props.severity props);
     Alert.title := title_of props;
     Alert.body := body_of props;
     Alert.scope_kind := ScopeKind.REGION;
     Alert.scope_ref := scope_ref;
     Alert.trigger_source_id := source_id;
     Alert.trigger_url := Some trigger_url;
     Alert.language_profile := _map_nws_severity lib (Props.severity props);
     Alert.created_at := created;
     Alert.updated_at := now;
     Alert.expires_at := expires_of props |}.

(** First half of the loop body: the item of the feature (lines 327-357). *)
Definition nws_item (src : Source.t) (ep : SourceEndpoint.t) (now : datetime)
    (trigger_url : str) (props : Props.t) : M unit :=
  let external_id := trigger_url in
  let title := title_of props in
  let body := body_of props in
  let summary := Py.or_none (take 500 (Py.or_str (Props.description props) [])) in
  db <- get_ses ;;
  item <- lift (one_or_none
                  (fun i => bool_decide (Item.endpoint_id i = SourceEndpoint.id ep)
                            && bool_decide (Item.external_id i = external_id))
                  (items db)) ;;
  match item with
  | Some (ix, _) =>
      modify_ses (fun s => set_items (update ix (fun i =>
        Item.Build_t (Item.source_id i) (Item.endpoint_id i) (Item.external_id i)
          (Item.published_at i)
          (or_time (_parse_dt lib (Props.sent props)) (Some now))
          (Some title) None (Some trigger_url) summary (Some body)
          (Item.content_html i) (Some (RawProps props)) (Item.raw_html i)
          (Item.hash_content i)) (items s)) s) ;;
      h <- lift (sha_or_raise body) ;;
      modify_ses (fun s => set_items (update ix (fun i => setattr i hash_content (VStr h)) (items s)) s)
  | None =>
      h <- lift (sha_or_raise body) ;;
      modify_ses (fun s => set_items (add
        {| Item.source_id := Source.id src;
           Item.endpoint_id := SourceEndpoint.id ep;
           Item.external_id := external_id;
           Item.published_at := or_time (_parse_dt lib (Props.effective props))
                                        (_parse_dt lib (Props.sent props));
           Item.updated_at := _parse_dt lib (Props.sent props);
           Item.title := Some title;
           Item.author := None;
           Item.canonical_url := Some trigger_url;
           Item.summary := summary;
           Item.content_text := Some body;
           Item.content_html := None;
           Item.raw_json := Some (RawProps props);
           Item.raw_html := None;
           Item.hash_content := h |} (items s)) s)
  end.

(** Second half: the alert of the feature (lines 359-385); [acc] is
    [(inserted, updated)]. *)
Definition nws_alert (scope_ref : str) (now : datetime) (trigger_url : str)
    (props : Props.t) (acc : nat * nat) : M (nat * nat) :=
  db <- get_ses ;;
  existing <- lift (one_or_none (by_url trigger_url) (alerts db)) ;;
  match existing with
  | Some (ix, _) =>
      modify_ses (fun s => set_alerts (update ix (fun a =>
        alert_of scope_ref now trigger_url props
                 (Alert.trigger_source_id a) (Alert.created_at a)) (alerts s)) s) ;;
      ret (acc.1, S acc.2)
  | None =>
      modify_ses (fun s => set_alerts (add
        (alert_of scope_ref now trigger_url props None now) (alerts s)) s) ;;
      ret (S acc.1, acc.2)
  end.

(** The body of the loop over [features]. *)
Definition nws_feature (src : Source.t) (ep : SourceEndpoint.t) (scope_ref : str)
    (now : datetime) (acc : nat * nat) (f : Feature.t) : M (nat * nat) :=
  let props := match Feature.properties f with Some p => p | None => Props.empty end in
  let trigger_url := trigger_of f in
  if negb (Py.truthy trigger_url) then ret acc else
  nws_item src ep now trigger_url props ;;
  nws_alert scope_ref now trigger_url props acc.

Definition ingest_nws_alerts (point scope_ref : str) : M IngestResult :=
  se <- _get_or_create_nws_source ;;
  let url := py "https://api.weather.gov/alerts/active?point=" ++ point in
  features <- _fetch_json lib W url ;;
  t <- now W ;;
  acc <- foldM (nws_feature se.1 se.2 scope_ref t) features (0, 0) ;;
  ret {| inserted := acc.1; updated := acc.2 |}.

End Engine.

Section Feeds.
Context (lib : PyLib) (W : World).

(** Code point order on strings, for [ORDER BY name, url]. *)
Fixpoint str_leb (a b : str) : bool :=
  match a, b with
  | [], _ => true
  | _ :: _, [] => false
  | x :: a', y :: b' => (x <? y)%N || ((x =? y)%N && str_leb a' b')
  end.

Definition row_leb (p q : nat * SourceEndpoint.t * Source.t) : bool :=
  let key r := (Source.name r.2, SourceEndpoint.url r.1.2) in
  if bool_decide ((key p).1 = (key q).1) then str_leb (key p).2 (key q).2
  else str_leb (key p).1 (key q).1.

Fixpoint insert_row (r : nat * SourceEndpoint.t * Source.t) (l : list (nat * SourceEndpoint.t * Source.t)) :=
  match l with
  | [] => [r]
  | x :: l' => if row_leb r x then r :: l else x :: insert_row r l'
  end.

(** The enabled RSS and Atom endpoints of enabled sources, each with its
    position in the table and its source. *)
Definition feed_endpoints (db : session) : list (nat * SourceEndpoint.t * Source.t) :=
  let wanted e :=
    SourceEndpoint.enabled e
    && (bool_decide (SourceEndpoint.kind e = EndpointKind.RSS)
        || bool_decide (SourceEndpoint.kind e = EndpointKind.ATOM)) in
  let joined :=
    flat_map (fun ie =>
                map (fun src => (ie, src))
                    (List.filter (fun s => bool_decide (Source.id s = SourceEndpoint.source_id ie.2)
                                           && Source.enabled s)
                                 (rows (sources db))))
             (select wanted (rows (endpoints db))) in
  fold_right insert_row [] joined.

Definition add_metric (name : str) (v : Z) (tags : list (str * str)) : M unit :=
  modify_ses (fun s => set_metrics (add {| IngestionMetric.metric := name;
                                           IngestionMetric.value := v;
                                           IngestionMetric.tags := tags |} (metrics s)) s).

(** The dict of the update path, in the order it is written. *)
Definition update_values (now : datetime) (title author url summary content_text : option str)
    (content_html : str) (raw : raw_payload) (hash : str) (published : option datetime)
  : list (attr * value) :=
  [(updated_at, VTime now);
   (Ingest.title, of_str title);
   (Ingest.author, of_str author);
   (canonical_url, of_str url);
   (Ingest.summary, of_str summary);
   (Ingest.content_text, of_str content_text);
   (Ingest.content_html, of_str (Py.or_none content_html));
   (raw_json, VRaw raw);
   (hash_content, VStr hash);
   (published_at, of_time published)].

(** The text whose digest is the content hash. *)
Definition hash_input (title summary : option str) (content_html : str) : str :=
  Py.join [10%N] [Py.or_str title []; Py.or_str summary []; content_html].

(** [hash_content] of a feed entry. *)
Definition content_hash (title summary : option str) (content_html : str) : outcome str :=
  sha_or_raise (hash_input title summary content_html).

(** The body of the loop over the parsed entries of one feed. *)
Definition feed_item (deny_urls : gset str) (src : Source.t) (ep : SourceEndpoint.t)
    (feed_title : option str) (now : datetime) (acc : nat * nat) (it : Entry.t)
  : M (nat * nat) :=
  let external_id := Py.strip (Entry.external_id it) in
  if negb (Py.truthy external_id) then ret acc else
  let title := Py.or_none (_strip_html_to_text lib (Py.strip (Py.or_str (Entry.title it) []))) in
  let url := Py.or_none (Py.strip (Py.or_str (Entry.url it) [])) in
  if match url with
     | Some u => bool_decide (_normalize_url u ∈ deny_urls)
     | None => false
     end
  then ret acc else
  let author := Py.or_none (_strip_html_to_text lib (Py.strip (Py.or_str (Entry.author it) []))) in
  let published := _parse_dt_any lib (Entry.published it) in
  let summary_html := Py.strip (Py.or_str (Entry.summary it) []) in
  let content_html := Py.strip (Py.or_str (Entry.content_html it) []) in
  let summary := Py.or_none (_strip_html_to_text lib summary_html) in
  let content_text := or_opt (Py.or_none (_strip_html_to_text lib content_html)) summary in
  let raw := RawFeed feed_title (SourceEndpoint.url ep) in
  db <- get_ses ;;
  existing <- lift (one_or_none
                      (fun i => bool_decide (Item.endpoint_id i = SourceEndpoint.id ep)
                                && bool_decide (Item.external_id i = external_id))
                      (items db)) ;;
  hash <- lift (content_hash title summary content_html) ;;
  match existing with
  | Some (ix, row) =>
      let r := merge row false
                 (update_values now title author url summary content_text content_html
                                raw hash published) in
      modify_ses (fun s => set_items (update ix (fun _ => r.1) (items s)) s) ;;
      ret (if r.2 then (acc.1, S acc.2) else acc)
  | None =>
      modify_ses (fun s => set_items (add
        {| Item.source_id := Source.id src;
           Item.endpoint_id := SourceEndpoint.id ep;
           Item.external_id := external_id;
           Item.published_at := published;
           Item.updated_at := Some now;
           Item.title := title;
           Item.author := author;
           Item.canonical_url := url;
           Item.summary := summary;
           Item.content_text := content_text;
           Item.content_html := Py.or_none content_html;
           Item.raw_json := Some raw;
           Item.raw_html := None;
           Item.hash_content := hash |} (items s)) s) ;;
      ret (S acc.1, acc.2)
  end.

Definition ACCEPT : str :=
  py "application/rss+xml,application/atom+xml,application/xml,text/xml,*/*".

Definition error_tags (src : Source.t) (ep : SourceEndpoint.t) (e : exn) : list (str * str) :=
  [(py "source", Source.name src); (py "url", SourceEndpoint.url ep);
   (py "error", take 200 (str_of_exn e))].

(** Lines 416-419: validators that came with the response replace the
    stored ones. *)
Definition store_validators (ix : nat) (ep : SourceEndpoint.t) (fetched : FetchBytesResult)
  : M unit :=
  (if is_truthy (etag fetched) && bool_decide (etag fetched <> SourceEndpoint.http_etag ep)
   then modify_ses (fun s => set_endpoints
          (update ix (SourceEndpoint.set_http_etag (etag fetched)) (endpoints s)) s)
   else ret tt) ;;
  (if is_truthy (last_modified fetched)
      && bool_decide (last_modified fetched <> SourceEndpoint.http_last_modified ep)
   then modify_ses (fun s => set_endpoints
          (update ix (SourceEndpoint.set_http_last_modified (last_modified fetched)) (endpoints s)) s)
   else ret tt).

(** What [store_validators] leaves in the endpoint's row. *)
Definition stored (ep : SourceEndpoint.t) (f : FetchBytesResult) : SourceEndpoint.t :=
  let ep1 := if is_truthy (etag f) then SourceEndpoint.set_http_etag (etag f) ep else ep in
  if is_truthy (last_modified f)
  then SourceEndpoint.set_http_last_modified (last_modified f) ep1 else ep1.

(** Lines 421-496: parse the body and reconcile its entries. *)
Definition feed_entries (deny_urls : gset str) (max_items_per_feed : Z)
    (results : gmap str IngestResult) (src : Source.t) (ep : SourceEndpoint.t)
    (fetched : FetchBytesResult) : M (gmap str IngestResult) :=
  let nothing := <[Source.name src := {| inserted := 0; updated := 0 |}]> results in
  if (status fetched =? 304)%Z || bool_decide (body fetched = []) then ret nothing else
  match _parse_feed_xml lib (SourceEndpoint.url ep) (body fetched) max_items_per_feed with
  | Raise e =>
      add_metric (py "feed_parse_error") 1 (error_tags src ep e) ;; ret nothing
  | Abort => abort
  | Ok (_, feed_title, items) =>
      t <- now W ;;
      acc <- foldM (feed_item deny_urls src ep feed_title t) items (0, 0) ;;
      add_metric (py "feed_items_inserted") (Z.of_nat acc.1) [(py "source", Source.name src)] ;;
      add_metric (py "feed_items_updated") (Z.of_nat acc.2) [(py "source", Source.name src)] ;;
      ret (<[Source.name src := {| inserted := acc.1; updated := acc.2 |}]> results)
  end.

(** The body of the loop over the endpoints. The endpoint object is the row
    at position [q.1.1]; it is read again here because it is shared with
    the session. The sleep that ends the body changes no state. *)
Definition feed_endpoint (deny_urls : gset str) (max_items_per_feed : Z)
    (results : gmap str IngestResult) (q : nat * SourceEndpoint.t * Source.t)
  : M (gmap str IngestResult) :=
  let ix := q.1.1 in
  let src := q.2 in
  db <- get_ses ;;
  let ep := default q.1.2 (rows (endpoints db) !! ix) in
  fetched <- try_except
               (f <- _fetch_bytes lib W (SourceEndpoint.url ep) ACCEPT
                       (SourceEndpoint.http_etag ep) (SourceEndpoint.http_last_modified ep) ;;
                ret (Some f))
               (fun e => add_metric (py "feed_fetch_error") 1 (error_tags src ep e) ;; ret None) ;;
  match fetched with
  | None => ret (<[Source.name src := {| inserted := 0; updated := 0 |}]> results)
  | Some fetched =>
      store_validators ix ep fetched ;;
      feed_entries deny_urls max_items_per_feed results src ep fetched
  end.

Definition ingest_rss_atom (max_items_per_feed : Z) : M (gmap str IngestResult) :=
  let deny_urls := _load_denylist_urls W in
  db <- get_ses ;;
  foldM (feed_endpoint deny_urls max_items_per_feed) (feed_endpoints db) ∅.

Definition environ_get (k default : str) : str :=
  match environ W k with Some v => v | None => default end.

Definition set_run (finished : datetime) (st : str) (extra : list (str * json))
    (r : IngestionRun.t) : IngestionRun.t :=
  {| IngestionRun.started_at := IngestionRun.started_at r;
     IngestionRun.finished_at := Some finished;
     IngestionRun.status := st;
     IngestionRun.details := IngestionRun.details r ++ extra |}.

Definition feeds_json (feed_res : gmap str IngestResult) : json :=
  JObj (map (fun kv => (kv.1, JObj [(py "inserted", JInt (Z.of_nat (inserted kv.2)));
                                    (py "updated", JInt (Z.of_nat (updated kv.2)))]))
            (map_to_list feed_res)).

(** Lines 510-512: the run's row, added and flushed; the result is the
    position of that row. *)
Definition begin_run (started : datetime) (point scope_ref : str) : M nat :=
  db <- get_ses ;;
  let run_ix := length (rows (runs db)) + length (pending (runs db)) in
  modify_ses (fun s => set_runs (add
    {| IngestionRun.started_at := started;
       IngestionRun.finished_at := None;
       IngestionRun.status := py "running";
       IngestionRun.details := [(py "point", JStr point); (py "scope_ref", JStr scope_ref)] |}
    (runs s)) s) ;;
  db_flush ;;
  ret run_ix.

(** Lines 517-529: the two alert metrics, the run's row completed, and the
    commit. *)
Definition finish_run (run_ix : nat) (scope_ref : str) (res : IngestResult)
    (feed_res : gmap str IngestResult) : M unit :=
  add_metric (py "nws_alerts_inserted") (Z.of_nat (inserted res)) [(py "scope_ref", scope_ref)] ;;
  add_metric (py "nws_alerts_updated") (Z.of_nat (updated res)) [(py "scope_ref", scope_ref)] ;;
  finished <- now W ;;
  modify_ses (fun s => set_runs (update run_ix
    (set_run finished (py "ok")
       [(py "nws_inserted", JInt (Z.of_nat (inserted res)));
        (py "nws_updated", JInt (Z.of_nat (updated res)));
        (py "feeds", feeds_json feed_res)]) (runs s)) s) ;;
  db_commit.

(** Lines 534-538: the run recorded after a failure. *)
Definition record_error (started : datetime) (e : exn) : M unit :=
  modify_ses (fun s => set_runs (add
    {| IngestionRun.started_at := started;
       IngestionRun.finished_at := None;
       IngestionRun.status := py "error";
       IngestionRun.details := [(py "error", JStr (str_of_exn e))] |}
    (runs s)) s) ;;
  db_commit.

(** [ingest()]; the two [print] calls are left out. *)
Definition ingest : M unit :=
  let point := environ_get (py "MSPMETRO_NWS_POINT") (py "44.9778,-93.2650") in
  let scope_ref := environ_get (py "MSPMETRO_SCOPE_REF") (py "twin-cities") in
  let max_items := feed_max_items W in
  started <- now W ;;
  try_except
    (with_session (
       run_ix <- begin_run started point scope_ref ;;
       res <- ingest_nws_alerts lib W point scope_ref ;;
       feed_res <- ingest_rss_atom max_items ;;
       finish_run run_ix scope_ref res feed_res))
    (fun e =>
       try_except
         (with_session (record_error started e))
         (fun _ => ret tt)).

End Feeds.

End Ingest.

(** ** Vocabulary of the invariants *)

Module Invariants.
Import Models Db Ingest.

(** The row an existing alert becomes. *)
Definition overwritten lib scope now u props (a : Alert.t) : Alert.t :=
  alert_of lib scope now u props (Alert.trigger_source_id a) (Alert.created_at a).

(** None of the features' trigger URLs is held by an alert still pending. *)
Definition fresh_for (fs : list Feature.t) (s : session) : Prop :=
  Forall (fun f => Py.truthy (trigger_of f) = true ->
                   trigger_of f ∉ alert_urls (pending (alerts s))) fs.

(** Steps that leave the alerts of the session as they are, and none
    pending if none was. *)
Definition same_alerts (st st' : state) : Prop :=
  all_alerts (ses st') = all_alerts (ses st) /\
  (pending (alerts (ses st)) = [] -> pending (alerts (ses st')) = []).

(** The committed store is untouched. *)
Definition same_durable (st st' : state) : Prop := durable st' = durable st.

(** The committed alerts, and those the session would commit, have
    pairwise distinct trigger URLs. *)
Definition alerts_ok (st : state) : Prop :=
  at_most_one_alert (st_alerts (durable st)) /\
  at_most_one_alert (all_alerts (ses st)).

Definition alerts_ok_fresh (st : state) : Prop :=
  alerts_ok st /\ pending (alerts (ses st)) = [].

(** A step under which a property of the state survives. *)
Definition preserves (I : state -> Prop) (st st' : state) : Prop := I st -> I st'.

End Invariants.

(** ** Vocabulary of the further properties *)

Module Outcomes.
Import Models Db Ingest.

(** A line of the denylist file that is neither blank nor a comment. *)
Definition listed (ln : str) : Prop :=
  Py.strip ln <> [] /\ startswith (Py.strip ln) (py "#") = false.

(** A lower-case hexadecimal digit. *)
Definition hex_char (c : N) : Prop := (48 <= c <= 57 \/ 97 <= c <= 102)%N.

(** A surrogate code point, which UTF-8 cannot encode. *)
Definition surrogate (c : N) : Prop := (0xD800 <= c <= 0xDFFF)%N.

(** A computation that the death of the process never interrupts. *)
Definition survives {A} (c : M A) : Prop := forall st, (c st).1 <> Abort.

(** A network that answers or fails, but under which the process lives. *)
Definition process_lives (W : World) : Prop :=
  forall url headers, urlopen W url headers <> Dies.

(** With no run pending, the runs of the session stay as they are. *)
Definition runs_kept (st st' : state) : Prop :=
  pending (runs (ses st)) = [] -> runs (ses st') = runs (ses st).

(** The row [ingest] adds when a run begins. *)
Definition running_row (started : datetime) (point scope : str) : IngestionRun.t :=
  {| IngestionRun.started_at := started;
     IngestionRun.finished_at := None;
     IngestionRun.status := py "running";
     IngestionRun.details := [(py "point", JStr point); (py "scope_ref", JStr scope)] |}.

(** A feature that carries a trigger URL. *)
Definition identified (f : Feature.t) : bool := Py.truthy (trigger_of f).

(** The metric written when a feed could not be fetched or parsed. *)
Definition error_metric (name : str) (src : Source.t) (ep : SourceEndpoint.t) (e : exn)
  : IngestionMetric.t :=
  {| IngestionMetric.metric := name;
     IngestionMetric.value := 1;
     IngestionMetric.tags := [(py "source", Source.name src);
                              (py "url", SourceEndpoint.url ep);
                              (py "error", take 200 (str_of_exn e))] |}.

(** The state after [db.add] of one metric. *)
Definition with_metric (m : IngestionMetric.t) (st : state) : state :=
  State (durable st) (set_metrics (add m (metrics (ses st))) (ses st)) (tick st) (uuids st).

(** The two queries of [_get_or_create_nws_source]. *)
Definition is_nws (s : Source.t) : bool := bool_decide (Source.name s = NWS_NAME).
Definition is_api_of (src : Source.t) (e : SourceEndpoint.t) : bool :=
  bool_decide (SourceEndpoint.source_id e = Source.id src)
  && bool_decide (SourceEndpoint.kind e = EndpointKind.JSON_API).

End Outcomes.

(** ** More of Python's text operations *)

Module PyText.

(** [needle in hay] for strings. *)
Fixpoint contains (needle hay : str) : bool :=
  bool_decide (take (length needle) hay = needle)
  || match hay with
     | [] => false
     | _ :: rest => contains needle rest
     end.

(** [s.strip(c)] for a set of one character. *)
Definition strip_char (c : N) (s : str) : str :=
  rev (Py.drop_while (fun x => (x =? c)%N) (rev (Py.drop_while (fun x => (x =? c)%N) s))).

(** The pattern [[...]+] for a character class. *)
Definition run_of (class : N -> bool) : matcher := fun _ suf =>
  match length (Py.take_while class suf) with
  | 0 => None
  | n => Some n
  end.

(** What [re.sub("[...]+", r, s)] computes for a one-character [r], as a
    one-pass scan that remembers whether it is inside a run. *)
Fixpoint squeeze (class : N -> bool) (r : N) (in_run : bool) (s : str) : str :=
  match s with
  | [] => []
  | c :: rest =>
      if class c
      then (if in_run then squeeze class r true rest else r :: squeeze class r true rest)
      else c :: squeeze class r false rest
  end.

(** No two neighbours are both [c]. *)
Fixpoint no_double (c : N) (s : str) : Prop :=
  match s with
  | a :: (b :: _) as t => ~ (a = c /\ b = c) /\ no_double c t
  | _ => True
  end.

Definition HYPHEN : N := 45.

Definition is_digit (c : N) : bool := ((48 <=? c) && (c <=? 57))%N.
Definition is_lower (c : N) : bool := ((97 <=? c) && (c <=? 122))%N.
Definition is_upper (c : N) : bool := ((65 <=? c) && (c <=? 90))%N.

(** The loop [for a in l: if a not in out: out.append(a)]. *)
Fixpoint unique_into (out l : list str) : list str :=
  match l with
  | [] => out
  | a :: rest =>
      if bool_decide (a ∈ out) then unique_into out rest
      else unique_into (out ++ [a]) rest
  end.

End PyText.

(** ** static_build.py *)

Module StaticBuild.

Definition ELLIPSIS : N := 0x2026.

Section WithLib.
Context (lib : PyLib).

Definition _strip_html (s : str) : str := TextClean.strip_markup_to_text lib s.

Definition _clean_title (s : option str) : str :=
  let t := _strip_html (Py.or_str s []) in
  if negb (Py.truthy t) then []
  else if 140 <? length t then Py.rstrip (take 137 t) ++ [ELLIPSIS]
  else t.

End WithLib.

(** What [re] supplies for the snippet cleaner. *)
Record SnippetRe := {
  (** [re.search(r"\bappeared first on\b", s, flags=re.IGNORECASE)] finds a match *)
  APPEARED_RE_search : str -> bool;
  (** [\bThe post\b.*?\bappeared first on\b.*?$], IGNORECASE *)
  THE_POST_RE : matcher;
}.

(** The groups of readers a story may be marked for. *)
Definition AFFECTED : list str :=
  [py "Commuters"; py "Drivers"; py "Riders"; py "Parents"; py "Students";
   py "Residents"; py "Air travelers"].

Section Pages.
Context (lib : PyLib) (sre : SnippetRe).

(** [_slugify]; the argument is a [str], for which [s or ""] is [s]. *)
Definition _slugify (s : str) : str :=
  let s := str_lower lib (Py.strip s) in
  let s := PyText.strip_char PyText.HYPHEN
             (TextClean.re_sub
                (PyText.run_of (fun c => negb (PyText.is_lower c || PyText.is_digit c)))
                [PyText.HYPHEN] s) in
  Py.or_else (take 60 s) (py "item").

Definition any_in (keys : list str) (t : str) : bool :=
  existsb (fun k => PyText.contains k t) keys.

Definition _affects_from_title (title : str) : list str :=
  let t := str_lower lib title in
  let affects :=
    (if any_in [py "snow"; py "ice"; py "blizzard"; py "wind"; py "weather"; py "cold"; py "storm"] t
     then [py "Commuters"; py "Drivers"] else [])
    ++ (if any_in [py "bus"; py "train"; py "rail"; py "transit"; py "metro transit"; py "bike"] t
        then [py "Riders"; py "Commuters"] else [])
    ++ (if any_in [py "school"; py "student"; py "campus"; py "class"] t
        then [py "Parents"; py "Students"] else [])
    ++ (if any_in [py "budget"; py "council"; py "board"; py "election"; py "mayor"] t
        then [py "Residents"] else [])
    ++ (if any_in [py "airport"; py "flight"; py "tsa"] t
        then [py "Air travelers"] else []) in
  take 4 (PyText.unique_into [] affects).

Definition _clean_feed_snippet (s : str) : str :=
  let s := _strip_html lib s in
  if negb (Py.truthy s) then [] else
  let s1 := if APPEARED_RE_search sre s
            then Py.strip (TextClean.re_sub (THE_POST_RE sre) [] s) else s in
  if APPEARED_RE_search sre s && negb (Py.truthy s1) then [] else
  if Ingest.startswith (str_lower lib s1) (py "the post ")
     && PyText.contains (py "appeared first on") (str_lower lib s1) then [] else
  let s2 := Py.strip (Py.replace1 93 [] (Py.replace1 91 [] s1)) in
  if 240 <? length s2 then Py.rstrip (take 237 s2) ++ [ELLIPSIS] else s2.

End Pages.

End StaticBuild.

(** ** scripts/discover_sources.py: the fetcher's throttling

    [Fetcher.get_bytes] runs as coroutines on one event loop. Between two
    [await]s a coroutine runs alone, so each stretch of code between awaits
    is one step of one task; the loop's scheduler picks which enabled task
    steps next, and time passes between steps. Times are in milliseconds. *)

Module Discover.

Record DomainLimiter := {
  _lock : option nat;     (* the task inside [async with self._lock] *)
  _next_ok : Z;
}.

(** Where a [get_bytes] call stands. [passed] is the time at which
    [wait_turn] returned, [started] the time at which the request was
    sent. *)
Inductive pc :=
| Called                              (* not yet run *)
| Sleeping (until : Z)                (* in [wait_turn], lock held, in [asyncio.sleep] *)
| Waiting (passed : Z)                (* [wait_turn] done; at [async with self._sem] *)
| InFlight (passed started : Z)       (* [_blocking_get] running in its thread *)
| Returned (sent : option (Z * Z)).   (* finished; [None]: no request was sent *)

Record task := {
  host : str;                (* [urlparse(url).netloc.lower()] *)
  cached : bool;             (* [cache.get(url)] holds a fresh 200 response *)
  allowed : bool;            (* robots.txt permits the URL, or it is not consulted *)
  delay : Z;                 (* what [random.uniform(min_delay, max_delay)] returns *)
  at_ : pc;
}.

Definition set_pc (p : pc) (t : task) : task :=
  {| host := host t; cached := cached t; allowed := allowed t; delay := delay t; at_ := p |}.

Record Fetcher := {
  clock : Z;                                   (* [time.time()] *)
  _sem : nat;                                  (* free slots of the semaphore *)
  _limiters : gmap str DomainLimiter;
  tasks : list task;
}.

(** [Fetcher._limiter]: the host's limiter, created on first use with
    [_next_ok = 0.0]. *)
Definition _limiter (f : Fetcher) (h : str) : DomainLimiter :=
  default {| _lock := None; _next_ok := 0 |} (_limiters f !! h).

Inductive event :=
| Tick (dt : Z)        (* time passes *)
| Run (i : nat).       (* the loop resumes task [i] *)

Definition set_task (f : Fetcher) (i : nat) (p : pc) : Fetcher :=
  {| clock := clock f; _sem := _sem f; _limiters := _limiters f;
     tasks := alter (set_pc p) i (tasks f) |}.

Definition set_limiter (f : Fetcher) (h : str) (l : DomainLimiter) : Fetcher :=
  {| clock := clock f; _sem := _sem f; _limiters := <[h := l]> (_limiters f);
     tasks := tasks f |}.

Definition set_sem (f : Fetcher) (n : nat) : Fetcher :=
  {| clock := clock f; _sem := n; _limiters := _limiters f; tasks := tasks f |}.

(** One step; [None] when the event cannot happen in this state (a task
    blocked on the lock, on its sleep or on the semaphore; time running
    backwards). *)
Definition step (f : Fetcher) (e : event) : option Fetcher :=
  match e with
  | Tick dt =>
      if (0 <=? dt)%Z
      then Some {| clock := (clock f + dt)%Z; _sem := _sem f;
                   _limiters := _limiters f; tasks := tasks f |}
      else None
  | Run i =>
      match tasks f !! i with
      | None => None
      | Some t =>
          match at_ t with
          | Called =>
              (* cache hit, or PermissionError from the robots check *)
              if cached t || negb (allowed t) then Some (set_task f i (Returned None))
              else
                (* limiter = self._limiter(url); await limiter.wait_turn() *)
                let l := _limiter f (host t) in
                match _lock l with
                | Some _ => None
                | None =>
                    if (clock f <? _next_ok l)%Z
                    then Some (set_task (set_limiter f (host t)
                                           {| _lock := Some i; _next_ok := _next_ok l |})
                                        i (Sleeping (_next_ok l)))
                    else Some (set_task (set_limiter f (host t)
                                           {| _lock := None; _next_ok := (clock f + delay t)%Z |})
                                        i (Waiting (clock f)))
                end
          | Sleeping until =>
              if (until <=? clock f)%Z
              then Some (set_task (set_limiter f (host t)
                                     {| _lock := None; _next_ok := (clock f + delay t)%Z |})
                                  i (Waiting (clock f)))
              else None
          | Waiting passed =>
              (* async with self._sem: await asyncio.to_thread(self._blocking_get, ...) *)
              match _sem f with
              | O => None
              | S k => Some (set_task (set_sem f k) i (InFlight passed (clock f)))
              end
          | InFlight passed started =>
              Some (set_task (set_sem f (S (_sem f))) i (Returned (Some (passed, started))))
          | Returned _ => None
          end
      end
  end.

(** A schedule, run from a state. *)
Fixpoint run (f : Fetcher) (es : list event) : option Fetcher :=
  match es with
  | [] => Some f
  | e :: es' => match step f e with Some f' => run f' es' | None => None end
  end.

(** The time at which a task's request was sent, once it was. *)
Definition started_at (t : task) : option Z :=
  match at_ t with
  | InFlight _ s => Some s
  | Returned (Some (_, s)) => Some s
  | _ => None
  end.

(** The time at which a task passed its host's limiter, once it did. *)
Definition passed_at (t : task) : option Z :=
  match at_ t with
  | Waiting p | InFlight p _ | Returned (Some (p, _)) => Some p
  | _ => None
  end.

(** Any two calls for one host passed the limiter at least [min_delay]
    apart. *)
Definition spaced (min_delay : Z) (f : Fetcher) : Prop :=
  forall i j ti tj p q,
    i <> j -> tasks f !! i = Some ti -> tasks f !! j = Some tj ->
    host ti = host tj -> passed_at ti = Some p -> passed_at tj = Some q ->
    (min_delay <= Z.abs (p - q))%Z.

(** A fetcher as [Fetcher.__init__] leaves it: no limiter yet, every slot
    free, the calls not yet run, each with a delay drawn from the range. *)
Definition fresh (min_delay max_delay : Z) (f : Fetcher) : Prop :=
  _limiters f = ∅ /\
  Forall (fun t => at_ t = Called /\ (min_delay <= delay t <= max_delay)%Z) (tasks f).

(** What the limiters guarantee between two steps: no drawn delay is below
    [min_delay]; a host's limiter opens no sooner than [min_delay] after a
    call passed it; the calls that passed are spaced; and a call asleep in
    [wait_turn] holds its host's lock until the limiter opens. *)
Definition limiter_inv (min_delay : Z) (f : Fetcher) : Prop :=
  Forall (fun t => (min_delay <= delay t)%Z) (tasks f) /\
  (forall i t p, tasks f !! i = Some t -> passed_at t = Some p ->
                 (p + min_delay <= _next_ok (_limiter f (host t)))%Z) /\
  spaced min_delay f /\
  (forall i t u, tasks f !! i = Some t -> at_ t = Sleeping u ->
                 _limiter f (host t) = {| _lock := Some i; _next_ok := u |}).

(** Whether the request of a call is running in its thread. *)
Definition flying (p : pc) : nat :=
  match p with InFlight _ _ => 1 | _ => 0 end.

(** The number of requests running at once. *)
Definition in_flight (f : Fetcher) : nat :=
  sum_list (map (fun t => flying (at_ t)) (tasks f)).

(** A call that was answered from the cache or refused by robots.txt, or
    is still to run. *)
Definition idle (t : task) : Prop := at_ t = Called \/ at_ t = Returned None.

(** *** The pure helpers of the script *)

(** What [urllib.parse] and [html.parser] supply. *)
Record UrlLib := {
  urljoin : str -> str -> str;
  (** [f"{parsed.scheme}://{parsed.netloc}"] for [parsed = urlparse(base)] *)
  origin_of : str -> str;
  (** the start tags [HTMLParser.feed] reports, each with its attributes,
      up to the end of the text or to the exception that stops it *)
  start_tags : str -> list (str * list (str * option str));
}.

Definition normalize_url (u : str) : str :=
  let u := Py.strip u in
  if negb (Py.truthy u) then [] else Py.take_while (fun c => negb (c =? 35)%N) u.

Definition FEED_TYPES : list str :=
  [py "application/rss+xml"; py "application/atom+xml"; py "application/xml"; py "text/xml"].

Definition COMMON_PATHS : list str :=
  [py "/feed"; py "/rss"; py "/rss.xml"; py "/atom.xml"; py "/index.xml"; py "/feed.xml";
   py "/feeds/posts/default?alt=rss"].

(** A list of candidates: none twice, none empty, none with a fragment. *)
Definition tidy (out : list str) : Prop :=
  NoDup out /\ Forall (fun u => u <> [] /\ 35%N ∉ u) out.

Section Script.
Context (lib : PyLib) (ul : UrlLib).

(** [FeedLinkParser.handle_starttag]: the list is [self.feed_hrefs]. *)
Definition handle_starttag (feed_hrefs : list str) (tag : str)
    (attrs : list (str * option str)) : list str :=
  if negb (bool_decide (str_lower lib tag = py "link")) then feed_hrefs else
  let d := map (fun kv => (str_lower lib kv.1, Py.or_str kv.2 [])) attrs in
  let get k := default [] (Ingest.dict_get k d) in
  let rel := str_lower lib (get (py "rel")) in
  let typ := str_lower lib (get (py "type")) in
  let href := Py.strip (get (py "href")) in
  if negb (Py.truthy href) then feed_hrefs else
  if negb (PyText.contains (py "alternate") rel) then feed_hrefs else
  if bool_decide (typ ∈ FEED_TYPES) then feed_hrefs ++ [href] else feed_hrefs.

(** The closure [add] of [candidate_feed_urls]: [seen] holds what [out]
    holds, so membership in [out] stands for membership in [seen]. *)
Definition add_candidate (out : list str) (u : str) : list str :=
  let u := normalize_url u in
  if negb (Py.truthy u) then out
  else if bool_decide (u ∈ out) then out
  else out ++ [u].

Definition candidate_feed_urls (base : str) (html_bytes : list Z) : list str :=
  let html := decode_utf8_replace lib html_bytes in
  let feed_hrefs :=
    fold_left (fun hrefs ta => handle_starttag hrefs ta.1 ta.2) (start_tags ul html) [] in
  let out := fold_left (fun out href => add_candidate out (urljoin ul base href)) feed_hrefs [] in
  let origin := origin_of ul base in
  fold_left (fun out path => add_candidate out (urljoin ul origin path)) COMMON_PATHS out.

(** [_safe_slug] *)
Definition _safe_slug (s : str) : str :=
  let s := PyText.strip_char PyText.HYPHEN
             (TextClean.re_sub
                (PyText.run_of (fun c => negb (PyText.is_lower c || PyText.is_upper c
                                               || PyText.is_digit c)))
                [PyText.HYPHEN] (str_lower lib (Py.strip s))) in
  Py.or_else (take 80 s) (py "site").

End Script.

End Discover.

(** ** A small instance of the library interface

    Enough of the interpreter to run the code on plain text: lower-casing
    and decoding for Basic Latin, the five predefined entities, the general
    categories of Latin-1 and of the format characters of the Basic
    Multilingual Plane, and markup patterns that find nothing (the texts run
    here hold no script element and no image attribute). The XML and JSON
    parsers are given per scenario. *)

Module Sample.
Import Models Db Ingest.

Definition lower (s : str) : str :=
  map (fun c => if ((65 <=? c) && (c <=? 90))%N then (c + 32)%N else c) s.

Definition category_ranges : list (N * N * gen_category) :=
  [(0x00, 0x1F, Cc); (0x20, 0x20, Zs); (0x21, 0x23, Po); (0x24, 0x24, Sc);
   (0x25, 0x27, Po); (0x28, 0x28, Ps); (0x29, 0x29, Pe); (0x2A, 0x2A, Po);
   (0x2B, 0x2B, Sm); (0x2C, 0x2C, Po); (0x2D, 0x2D, Pd); (0x2E, 0x2F, Po);
   (0x30, 0x39, Nd); (0x3A, 0x3B, Po); (0x3C, 0x3E, Sm); (0x3F, 0x40, Po);
   (0x41, 0x5A, Lu); (0x5B, 0x5B, Ps); (0x5C, 0x5C, Po); (0x5D, 0x5D, Pe);
   (0x5E, 0x5E, Sk); (0x5F, 0x5F, Pc); (0x60, 0x60, Sk); (0x61, 0x7A, Ll);
   (0x7B, 0x7B, Ps); (0x7C, 0x7C, Sm); (0x7D, 0x7D, Pe); (0x7E, 0x7E, Sm);
   (0x7F, 0x9F, Cc); (0xA0, 0xA0, Zs); (0xA1, 0xA1, Po); (0xA2, 0xA5, Sc);
   (0xA6, 0xA6, So); (0xA7, 0xA7, Po); (0xA8, 0xA8, Sk); (0xA9, 0xA9, So);
   (0xAA, 0xAA, Lo); (0xAB, 0xAB, Pi); (0xAC, 0xAC, Sm); (0xAD, 0xAD, Cf);
   (0xAE, 0xAE, So); (0xAF, 0xAF, Sk); (0xB0, 0xB0, So); (0xB1, 0xB1, Sm);
   (0xB2, 0xB3, No); (0xB4, 0xB4, Sk); (0xB5, 0xB5, Ll); (0xB6, 0xB7, Po);
   (0xB8, 0xB8, Sk); (0xB9, 0xB9, No); (0xBA, 0xBA, Lo); (0xBB, 0xBB, Pf);
   (0xBC, 0xBE, No); (0xBF, 0xBF, Po); (0xC0, 0xD6, Lu); (0xD7, 0xD7, Sm);
   (0xD8, 0xDE, Lu); (0xDF, 0xF6, Ll); (0xF7, 0xF7, Sm); (0xF8, 0xFF, Ll);
   (0x600, 0x605, Cf); (0x61C, 0x61C, Cf); (0x6DD, 0x6DD, Cf); (0x70F, 0x70F, Cf);
   (0x180E, 0x180E, Cf); (0x200B, 0x200F, Cf); (0x2026, 0x2026, Po);
   (0x2028, 0x2028, Zl); (0x2029, 0x2029, Zp); (0x202A, 0x202E, Cf);
   (0x2060, 0x2064, Cf); (0x2066, 0x206F, Cf); (0xFEFF, 0xFEFF, Cf);
   (0xFFF9, 0xFFFB, Cf); (0xFFFC, 0xFFFD, So)]%N.

Definition category (c : N) : gen_category :=
  match List.filter (fun r => (r.1.1 <=? c)%N && (c <=? r.1.2)%N) category_ranges with
  | r :: _ => r.2
  | [] => Cn
  end.

(** A pattern that is one literal text. *)
Definition literal (a : str) : matcher := fun _ suf =>
  if Py.truthy a && bool_decide (take (length a) suf = a) then Some (length a) else None.

Definition unescape (s : str) : str :=
  let sub a b := TextClean.re_sub (literal a) b in
  sub (py "&amp;") [38%N] (sub (py "&#39;") [39%N] (sub (py "&quot;") [34%N]
    (sub (py "&gt;") [62%N] (sub (py "&lt;") [60%N] s)))).

Definition never : matcher := fun _ _ => None.

Definition decode (raw : list Z) : str :=
  map (fun b => if (b <? 128)%Z then Z.to_N b else 0xFFFD%N) raw.

Definition lib (parse_xml : str -> Element + str)
    (parse_json : list Z -> list Feature.t + str) : PyLib :=
  {| html_unescape := unescape;
     unicodedata_category := category;
     str_lower := lower;
     datetime_fromisoformat := fun _ => None;
     parsedate_to_datetime := fun _ => None;
     SCRIPT_STYLE_RE := never;
     IMG_ATTR_GARBAGE_RE := never;
     ATTR_GARBAGE_RE := never;
     WP_IMG_GARBAGE_RE := never;
     decode_utf8_replace := decode;
     ET_fromstring := parse_xml;
     json_loads_features := parse_json |}.

(** A library whose parsers reject every document. *)
Definition plain_lib : PyLib :=
  lib (fun _ => inr (py "syntax error")) (fun _ => inr (py "Expecting value")).

(** A world around a given network: the process starts at time [t0] and its
    clock advances by one second per reading, no environment variable is
    set, no denylist file exists. *)
Definition world (t0 : Z) (net : str -> list (str * str) -> reply) : World :=
  {| urlopen := net;
     utcnow := fun n => (t0 + 1000000 * Z.of_nat n)%Z;
     uuid4 := fun n => (1000 + N.of_nat n)%N;
     environ := fun _ => None;
     read_lines := fun _ => None;
     feed_max_items := 25 |}.

Definition empty_store : store := Store [] [] [] [] [] [].

Definition boot (d : store) : state :=
  State d (open_session d) 0 0.

End Sample.

(** ** Concrete runs *)

Module Scenario.
Import Models Db Ingest.
Local Open Scope py_scope.

Definition desk : Source.t :=
  {| Source.id := 1; Source.name := py "Weather Desk"; Source.homepage_url := None;
     Source.tier := SourceTier.T3_COMM; Source.kind := ItemKind.RSS;
     Source.default_language := None; Source.trust_notes := None;
     Source.enabled := true |}.

Definition desk_feed (etag last_modified : option str) : SourceEndpoint.t :=
  {| SourceEndpoint.id := 2; SourceEndpoint.source_id := 1;
     SourceEndpoint.kind := EndpointKind.RSS;
     SourceEndpoint.url := py "https://desk.example/feed.xml";
     SourceEndpoint.poll_interval_seconds := 900;
     SourceEndpoint.http_etag := etag;
     SourceEndpoint.http_last_modified := last_modified;
     SourceEndpoint.enabled := true |}.

Definition desk_store (etag last_modified : option str) : store :=
  Store [desk] [desk_feed etag last_modified] [] [] [] [].

(** An RSS document with one item, and its parse. *)
Definition storm_xml : str :=
  py "<rss><channel><title>Weather Desk</title><item><guid>abc</guid><title>Storm Warning</title></item></channel></rss>".

Definition storm_tree : Element :=
  Elem (py "rss") [] None
    [Elem (py "channel") [] None
       [Elem (py "title") [] (Some (py "Weather Desk")) [];
        Elem (py "item") [] None
          [Elem (py "guid") [] (Some (py "abc")) [];
           Elem (py "title") [] (Some (py "Storm Warning")) []]]].

Definition parse_storm (txt : str) : Element + str :=
  if bool_decide (txt = storm_xml) then inl storm_tree else inr (py "syntax error").

Definition storm_bytes : list Z := map Z.of_N storm_xml.

(** The weather API answers with the given features; every other URL
    serves the storm feed. *)
Definition storm_lib (features : list Feature.t) : PyLib :=
  Sample.lib parse_storm (fun _ => inl features).

Definition storm_world (t0 : Z) : World :=
  Sample.world t0 (fun _ _ => Response 200 storm_bytes []).

(** Two starting times, five minutes apart. *)
Definition T1 : Z := 1700000000000000.
Definition T2 : Z := 1700000300000000.

(** One alert feature. *)
Definition alert_feature (id severity : str) : Feature.t :=
  {| Feature.id := Some id;
     Feature.properties := Some
       {| Props.at_id := None; Props.headline := Some (py "Tornado Warning");
          Props.event := None; Props.severity := Some severity;
          Props.description := Some (py "Take shelter now.");
          Props.instruction := None; Props.expires := None; Props.ends := None;
          Props.sent := None; Props.effective := None |} |}.

(** [ingest()] by a fresh process over the committed store [d]. *)
Definition ingest_over (lib : PyLib) (W : World) (d : store) : outcome unit * state :=
  ingest lib W (Sample.boot d).

(** The committed store after [ingest()]. *)
Definition after (lib : PyLib) (W : World) (d : store) : store :=
  durable (ingest_over lib W d).2.

(** The details of the run recorded last. *)
Definition last_details (d : store) : list (str * json) :=
  match last (st_runs d) with
  | Some r => IngestionRun.details r
  | None => []
  end.

Definition feeds_of (d : store) : option json :=
  dict_get (py "feeds") (last_details d).

(** The store [d] after its alerts were deleted. *)
Definition pruned (d : store) : store :=
  Store (st_sources d) (st_endpoints d) (st_items d) [] (st_metrics d) (st_runs d).

(** An RSS item whose description has 501 characters, and a feed made of
    it. *)
Definition long_item : Element :=
  Elem (py "item") [] None
    [Elem (py "guid") [] (Some (py "abc")) [];
     Elem (py "title") [] (Some (py "Storm Warning")) [];
     Elem (py "description") [] (Some (repeat 97%N 501)) []].

Definition long_lib : PyLib :=
  Sample.lib (fun _ => inl (Elem (py "rss") [] None [Elem (py "channel") [] None [long_item]]))
             (fun _ => inl []).

(** A fetcher with four slots (the default concurrency) and delays of 10
    seconds, asked for one page of each of four slow hosts and two pages of a
    news host; and a schedule in which the slow hosts answer after 20 seconds
    and the news host after 0.2 seconds. *)
Definition page (h : str) : Discover.task :=
  {| Discover.host := h; Discover.cached := false; Discover.allowed := true;
     Discover.delay := 10000; Discover.at_ := Discover.Called |}.

Definition fetcher0 : Discover.Fetcher :=
  {| Discover.clock := 1700000000000; Discover._sem := 4; Discover._limiters := ∅;
     Discover.tasks := [page (py "a.example"); page (py "b.example");
                        page (py "c.example"); page (py "d.example");
                        page (py "news.example"); page (py "news.example")] |}.

Definition schedule : list Discover.event :=
  [Discover.Run 0; Discover.Run 0;      (* a: limiter passed, request sent *)
   Discover.Run 1; Discover.Run 1;      (* b, c, d likewise: the four slots are taken *)
   Discover.Run 2; Discover.Run 2;
   Discover.Run 3; Discover.Run 3;
   Discover.Run 4;                      (* news 1: limiter passed, waits for a slot *)
   Discover.Tick 10000;
   Discover.Run 5;                      (* news 2: limiter passed 10 s later, waits *)
   Discover.Tick 10000;
   Discover.Run 0;                      (* a: response read, slot released *)
   Discover.Run 4;                      (* news 1: request sent *)
   Discover.Tick 200;
   Discover.Run 1;                      (* b: response read, slot released *)
   Discover.Run 5].                     (* news 2: request sent *)

(** An exception text of 201 characters. *)
Definition long_message : str := repeat 120%N 201.

End Scenario.

(** * Properties *)

(** ** Text cleaning *)

Module TextCleanProps.
Import TextClean.

Section Preservation.
Context (P : N -> Prop).

Lemma sub_loop_Forall m repl pre suf skip :
  Forall P repl -> Forall P suf -> Forall P (sub_loop m repl pre suf skip).
Proof.
  intros Hr Hs. revert pre skip.
  induction Hs as [|c rest Hc Hrest IH]; intros pre skip; simpl.
  - destruct skip; [destruct (m pre []) |]; auto.
  - destruct skip as [|k]; [|apply IH].
    destruct (m pre (c :: rest)) as [[|k]|].
    + apply Forall_app; split; [exact Hr | constructor; [exact Hc | apply IH]].
    + apply Forall_app; split; [exact Hr | apply IH].
    + constructor; [exact Hc | apply IH].
Qed.

Lemma re_sub_Forall m s :
  P SP -> Forall P s -> Forall P (re_sub m [SP] s).
Proof.
  intros Hsp Hs. apply sub_loop_Forall; [repeat constructor; exact Hsp | exact Hs].
Qed.

Lemma replace1_Forall a s :
  P SP -> Forall P s -> Forall P (Py.replace1 a [SP] s).
Proof.
  intros Hsp Hs. unfold Py.replace1.
  induction Hs as [|c rest Hc Hrest IH]; simpl; [constructor|].
  apply Forall_app; split; [|exact IH].
  destruct (c =? a)%N; repeat constructor; assumption.
Qed.

Lemma filter_Forall f (s : str) :
  Forall P s -> Forall P (List.filter f s).
Proof.
  induction 1 as [|c rest Hc Hrest IH]; simpl; [constructor|].
  destruct (f c); [constructor|]; assumption.
Qed.

Lemma drop_while_Forall f (s : str) :
  Forall P s -> Forall P (Py.drop_while f s).
Proof.
  induction 1 as [|c rest Hc Hrest IH]; simpl; [constructor|].
  destruct (f c); [|constructor]; assumption.
Qed.

Lemma strip_Forall s : Forall P s -> Forall P (Py.strip s).
Proof.
  intros Hs. unfold Py.strip, Py.rstrip, Py.lstrip.
  apply Forall_rev, drop_while_Forall, Forall_rev, drop_while_Forall, Hs.
Qed.
End Preservation.

(** [s.replace(a, " ")] leaves no [a] behind. *)
Lemma replace1_removes a s :
  a <> SP -> Forall (fun c => c <> a) (Py.replace1 a [SP] s).
Proof.
  intros Hne. unfold Py.replace1. induction s as [|c rest IH]; simpl; [constructor|].
  destruct (N.eqb_spec c a) as [->|Hca]; simpl; constructor; auto.
Qed.

Lemma filter_holds f (s : str) :
  Forall (fun c => f c = true) (List.filter f s).
Proof.
  induction s as [|c rest IH]; simpl; [constructor|].
  destruct (f c) eqn:E; [constructor|]; assumption.
Qed.

(** *** Whitespace runs *)

Lemma WS_RUN_RE_space pre c rest :
  Py.isspace c = true ->
  WS_RUN_RE pre (c :: rest) = Some (S (length (Py.take_while Py.isspace rest))).
Proof. intros E. unfold WS_RUN_RE. simpl. rewrite E. reflexivity. Qed.

Lemma WS_RUN_RE_other pre c rest :
  Py.isspace c = false -> WS_RUN_RE pre (c :: rest) = None.
Proof. intros E. unfold WS_RUN_RE. simpl. rewrite E. reflexivity. Qed.

Lemma sub_ws_collapse suf : forall pre,
  sub_loop WS_RUN_RE [SP] pre suf 0 = collapse false suf /\
  sub_loop WS_RUN_RE [SP] pre suf (length (Py.take_while Py.isspace suf)) = collapse true suf.
Proof.
  induction suf as [|c rest IH]; intros pre; [split; reflexivity|].
  destruct (IH (pre ++ [c])) as [IH0 IHk].
  destruct (Py.isspace c) eqn:Ec.
  - split.
    + cbn [sub_loop collapse]. rewrite (WS_RUN_RE_space _ _ _ Ec), Ec, IHk. reflexivity.
    + cbn [Py.take_while collapse]. rewrite Ec. cbn [length sub_loop]. exact IHk.
  - assert (H0 : sub_loop WS_RUN_RE [SP] pre (c :: rest) 0 = collapse false (c :: rest)).
    { cbn [sub_loop collapse]. rewrite (WS_RUN_RE_other _ _ _ Ec), Ec, IH0. reflexivity. }
    split; [exact H0|].
    cbn [Py.take_while]. rewrite Ec. cbn [length]. rewrite H0.
    cbn [collapse]. rewrite Ec. reflexivity.
Qed.

Lemma re_sub_ws s : re_sub WS_RUN_RE [SP] s = collapse false s.
Proof. apply sub_ws_collapse. Qed.

Lemma collapse_plain s : forall b, only_plain_space (collapse b s).
Proof.
  induction s as [|c r IH]; intros b; simpl; [constructor|].
  destruct (Py.isspace c) eqn:E; [destruct b|].
  - apply IH.
  - constructor; [reflexivity | apply IH].
  - constructor; [congruence | apply IH].
Qed.

Lemma collapse_head_true s c :
  head (collapse true s) = Some c -> Py.isspace c = false.
Proof.
  induction s as [|d r IH]; simpl; [discriminate|].
  destruct (Py.isspace d) eqn:E; [exact IH|].
  simpl. intros [= <-]. exact E.
Qed.

Lemma no_ws_pair_cons a s :
  (forall b, head s = Some b -> ~ (Py.isspace a = true /\ Py.isspace b = true)) ->
  no_ws_pair s -> no_ws_pair (a :: s).
Proof. destruct s as [|b t]; simpl; auto. Qed.

Lemma collapse_no_pair s : forall b, no_ws_pair (collapse b s).
Proof.
  induction s as [|c r IH]; intros b; simpl; [exact I|].
  destruct (Py.isspace c) eqn:E; [destruct b|].
  - apply IH.
  - apply no_ws_pair_cons; [|apply IH].
    intros d Hd [_ Hds]. apply collapse_head_true in Hd. congruence.
  - apply no_ws_pair_cons; [|apply IH]. intros d _ [Hc _]. congruence.
Qed.

Lemma no_ws_pair_tail a s : no_ws_pair (a :: s) -> no_ws_pair s.
Proof. destruct s; simpl; tauto. Qed.

Lemma no_ws_pair_drop_while f s : no_ws_pair s -> no_ws_pair (Py.drop_while f s).
Proof.
  induction s as [|c r IH]; simpl; [auto|].
  intros H. destruct (f c); [apply IH, (no_ws_pair_tail _ _ H) | exact H].
Qed.

Lemma no_ws_pair_app_l s t : no_ws_pair (s ++ t) -> no_ws_pair s.
Proof.
  induction s as [|a s IH]; [intros _; exact I|].
  destruct s as [|b s']; [intros _; exact I|].
  intros [H1 H2]. split; [exact H1 | apply IH, H2].
Qed.

Lemma no_ws_pair_app_r s t : no_ws_pair (s ++ t) -> no_ws_pair t.
Proof.
  induction s as [|a s IH]; simpl; [auto|].
  intros H. apply IH. destruct (s ++ t); simpl in *; tauto.
Qed.

Lemma drop_while_suffix {A} (f : A -> bool) s :
  exists p, s = p ++ Py.drop_while f s.
Proof.
  induction s as [|c r [p Hp]]; simpl; [exists []; reflexivity|].
  destruct (f c); [exists (c :: p); simpl; congruence | exists []; reflexivity].
Qed.

Lemma rstrip_prefix s : exists t, s = Py.rstrip s ++ t.
Proof.
  unfold Py.rstrip.
  destruct (drop_while_suffix Py.isspace (rev s)) as [p Hp].
  exists (rev p). rewrite <- rev_app_distr, <- Hp, rev_involutive. reflexivity.
Qed.

Lemma drop_while_head {A} (f : A -> bool) s c :
  head (Py.drop_while f s) = Some c -> f c = false.
Proof.
  induction s as [|d r IH]; simpl; [discriminate|].
  destruct (f d) eqn:E; [exact IH|]. simpl. intros [= <-]. exact E.
Qed.

Lemma strip_no_pair s : no_ws_pair s -> no_ws_pair (Py.strip s).
Proof.
  intros H. unfold Py.strip.
  destruct (rstrip_prefix (Py.lstrip s)) as [t Ht].
  apply (no_ws_pair_app_l _ t). rewrite <- Ht.
  apply no_ws_pair_drop_while, H.
Qed.

Lemma head_app_some {A} (s t : list A) c : head s = Some c -> head (s ++ t) = Some c.
Proof. destruct s; simpl; [discriminate | auto]. Qed.

Lemma strip_head s c : head (Py.strip s) = Some c -> Py.isspace c = false.
Proof.
  unfold Py.strip. intros H.
  destruct (rstrip_prefix (Py.lstrip s)) as [t Ht].
  apply (drop_while_head Py.isspace s). fold (Py.lstrip s).
  rewrite Ht. apply head_app_some, H.
Qed.

Lemma last_rev_head {A} (l : list A) : last (rev l) = head l.
Proof. destruct l as [|a l]; [reflexivity|]. simpl. apply last_snoc. Qed.

Lemma strip_last s c : last (Py.strip s) = Some c -> Py.isspace c = false.
Proof.
  unfold Py.strip, Py.rstrip. rewrite last_rev_head. apply drop_while_head.
Qed.

(** C10: whatever the input, the text returned by [strip_markup_to_text]
    holds no ['<'] and no ['>'], no character of general category Cc or
    Cf, no whitespace other than single U+0020 characters between words,
    and neither starts nor ends with whitespace. The Unicode database is
    only asked to class U+0020 as a space separator. *)
Theorem strip_markup_to_text_clean (lib : PyLib) (s : str) :
  unicodedata_category lib 32 = Zs ->
  let out := strip_markup_to_text lib s in
  Forall (fun c => c <> LT /\ c <> GT) out /\
  Forall (fun c => unicodedata_category lib c <> Cc /\
                   unicodedata_category lib c <> Cf) out /\
  only_plain_space out /\ no_ws_pair out /\
  (forall c, head out = Some c -> Py.isspace c = false) /\
  (forall c, last out = Some c -> Py.isspace c = false).
Proof.
  intros Hsp out. subst out. unfold strip_markup_to_text.
  destruct (Py.truthy s); simpl negb; cbv iota;
    [|repeat split; try constructor; simpl; discriminate].
  set (s4 := re_sub TAG_FRAGMENT_RE _ _).
  set (s5 := Py.replace1 GT [SP] (Py.replace1 LT [SP] s4)).
  set (s8 := re_sub (WP_IMG_GARBAGE_RE lib) _ _).
  set (keep := fun ch => negb (is_Cc_or_Cf (unicodedata_category lib ch))).
  set (s10 := Py.replace1 0xFFFC [SP] (Py.replace1 0xFFFD [SP] (List.filter keep s8))).
  assert (H5 : Forall (fun c => c <> LT /\ c <> GT) s5).
  { subst s5. apply Forall_and. split.
    - apply replace1_Forall; [discriminate | apply replace1_removes; discriminate].
    - apply replace1_removes. discriminate. }
  assert (H8 : Forall (fun c => c <> LT /\ c <> GT) s8).
  { subst s8. do 3 (apply re_sub_Forall; [split; discriminate|]). exact H5. }
  assert (Hk : keep SP = true).
  { unfold keep, SP. rewrite Hsp. reflexivity. }
  assert (H10 : Forall (fun c => keep c = true) s10).
  { subst s10. do 2 (apply replace1_Forall; [exact Hk|]). apply filter_holds. }
  rewrite re_sub_ws.
  split; [|split; [|split; [|split; [|split]]]].
  - apply strip_Forall. rewrite <- re_sub_ws.
    apply re_sub_Forall; [split; discriminate|].
    subst s10. do 2 (apply replace1_Forall; [split; discriminate|]).
    apply filter_Forall, H8.
  - apply strip_Forall. rewrite <- re_sub_ws.
    apply re_sub_Forall; [unfold SP; cbv beta; rewrite Hsp; split; discriminate|].
    eapply Forall_impl; [exact H10|]. intros c Hc. unfold keep in Hc.
    destruct (unicodedata_category lib c); simpl in Hc; split; congruence.
  - apply strip_Forall, collapse_plain.
  - apply strip_no_pair, collapse_no_pair.
  - apply strip_head.
  - apply strip_last.
Qed.

Lemma strip_markup_to_text_clean_witness :
  let lib := Sample.plain_lib in
  let out := strip_markup_to_text lib (py "<p>Storm &amp; flood <b>warning</b></p> <img src=x") in
  Forall (fun c => c <> LT /\ c <> GT) out /\
  Forall (fun c => unicodedata_category lib c <> Cc /\
                   unicodedata_category lib c <> Cf) out /\
  only_plain_space out /\ no_ws_pair out /\
  (forall c, head out = Some c -> Py.isspace c = false) /\
  (forall c, last out = Some c -> Py.isspace c = false).
Proof.
  exact (strip_markup_to_text_clean Sample.plain_lib
           (py "<p>Storm &amp; flood <b>warning</b></p> <img src=x") eq_refl).
Defined.

Example strip_markup_to_text_sample :
  strip_markup_to_text Sample.plain_lib
    (py "<p>Storm &amp; flood <b>warning</b></p> <img src=x")
  = py "Storm & flood warning".
Proof. vm_compute. reflexivity. Qed.

End TextCleanProps.

Module HashingProps.
Import Hashing.
Example sha_empty : _sha256_text [] = Some (py "e3b0c44298fc1c149afbf4c8996fb92427ae41e4649b934ca495991b7852b855").
Proof. vm_compute. reflexivity. Qed.
Example sha_abc : _sha256_text (py "abc") = Some (py "ba7816bf8f01cfea414140de5dae2223b00361a396177a9cb410ff61f20015ad").
Proof. vm_compute. reflexivity. Qed.
Example sha_constants :
  length K256 = 64 /\ nth 0 K256 0%Z = 0x428a2f98%Z /\ nth 63 K256 0%Z = 0xc67178f2%Z /\
  nth 0 H256 0%Z = 0x6a09e667%Z /\ nth 7 H256 0%Z = 0x5be0cd19%Z.
Proof. vm_compute. repeat split; reflexivity. Qed.

Example sha_two_blocks :
  _sha256_text (repeat 97%N 70 ++ [0xE9; 0x20AC; 0x1F600]%N)
  = Some (py "be235fe69c12ff31e3ca59424fffcd436a7e164646003a58dda6779f047b7036").
Proof. vm_compute. reflexivity. Qed.
End HashingProps.

(** ** The update path of the feed reconcile step *)

Module MergeProps.
Import Models Db Ingest.

Lemma getattr_setattr_same i a v :
  fits a v -> v <> VNone -> getattr (setattr i a v) a = v.
Proof. destruct a, v; simpl; intros Hf Hn; try contradiction; try congruence; reflexivity. Qed.

Lemma getattr_setattr_other i a b v :
  a <> b -> getattr (setattr i a v) b = getattr i b.
Proof. destruct a, b, v; simpl; intros Hn; try contradiction; reflexivity. Qed.

Lemma merge_cons i c a v rest :
  merge i c ((a, v) :: rest) =
  if overwrites i (a, v) then merge (setattr i a v) true rest else merge i c rest.
Proof. reflexivity. Qed.

Lemma merge_untouched kvs : forall i c a,
  a ∉ map fst kvs -> getattr (merge i c kvs).1 a = getattr i a.
Proof.
  induction kvs as [|[a0 v0] rest IH]; intros i c a Hn; [reflexivity|].
  rewrite merge_cons. simpl in Hn. apply not_elem_of_cons in Hn as [Hne Hn].
  destruct (overwrites i (a0, v0)); rewrite IH by exact Hn; [|reflexivity].
  apply getattr_setattr_other. congruence.
Qed.

Lemma merge_field kvs : forall i c,
  NoDup (map fst kvs) ->
  Forall (fun kv => fits kv.1 kv.2) kvs ->
  Forall (fun kv => getattr (merge i c kvs).1 kv.1 =
                    if overwrites i kv then kv.2 else getattr i kv.1) kvs.
Proof.
  induction kvs as [|[a0 v0] rest IH]; intros i c Hnd Hfit; [constructor|].
  simpl in Hnd. apply NoDup_cons in Hnd as [Hnotin Hnd].
  apply Forall_cons in Hfit as [Hf0 Hfit].
  rewrite merge_cons. constructor.
  - cbn [fst snd]. destruct (overwrites i (a0, v0)) eqn:E.
    + rewrite merge_untouched by exact Hnotin.
      apply getattr_setattr_same; [exact Hf0|].
      unfold overwrites in E. apply andb_true_iff in E as [_ E].
      apply bool_decide_eq_true in E. exact E.
    + apply merge_untouched, Hnotin.
  - assert (Hsame : forall i', (forall b, b <> a0 -> getattr i' b = getattr i b) ->
              Forall (fun kv => overwrites i' kv = overwrites i kv /\
                                getattr i' kv.1 = getattr i kv.1) rest).
    { intros i' Hi'. apply Forall_forall. intros [b w] Hin. cbn [fst snd].
      assert (Hb : b <> a0).
      { intros ->. apply Hnotin. apply list_elem_of_fmap. exists (a0, w). split; [reflexivity | exact Hin]. }
      unfold overwrites. cbn [fst snd]. rewrite (Hi' b Hb). split; reflexivity. }
    destruct (overwrites i (a0, v0)).
    + specialize (IH (setattr i a0 v0) true Hnd Hfit).
      specialize (Hsame (setattr i a0 v0)
                    (fun b Hb => getattr_setattr_other i a0 b v0 (not_eq_sym Hb))).
      pose proof (conj IH Hsame) as Hc. apply Forall_and in Hc.
      eapply Forall_impl; [exact Hc|].
      intros kv [H1 [H2 H3]]. cbv beta in *. rewrite H1, H2, H3. reflexivity.
    + apply IH; assumption.
Qed.

Lemma merge_changed_true kvs : forall i, (merge i true kvs).2 = true.
Proof.
  induction kvs as [|[a v] rest IH]; intros i; [reflexivity|].
  rewrite merge_cons. destruct (overwrites i (a, v)); apply IH.
Qed.

Lemma merge_changed kvs : forall i,
  (merge i false kvs).2 = false -> (merge i false kvs).1 = i.
Proof.
  induction kvs as [|[a v] rest IH]; intros i; [reflexivity|].
  rewrite merge_cons. destruct (overwrites i (a, v)).
  - rewrite merge_changed_true. discriminate.
  - apply IH.
Qed.

Lemma update_values_keys now t a u s ct ch raw h p :
  NoDup (map fst (update_values now t a u s ct ch raw h p)).
Proof. apply (bool_decide_eq_true_1 _). reflexivity. Qed.

Lemma update_values_fit now t a u s ct ch raw h p :
  Forall (fun kv => fits kv.1 kv.2) (update_values now t a u s ct ch raw h p).
Proof.
  unfold update_values.
  repeat (apply Forall_cons; split); try apply Forall_nil; cbn [fst snd fits];
    try exact I.
  all: match goal with
       | |- context [of_str ?x] => destruct x
       | |- context [of_time ?x] => destruct x
       end; exact I.
Qed.


End MergeProps.

(** ** Reasoning about the state monad *)

Module MonadProps.
Import Models Db Ingest.
Local Open Scope py_scope.

Section Stable.
Context (R : state -> state -> Prop).
Hypothesis R_refl : forall st, R st st.
Hypothesis R_trans : forall a b c, R a b -> R b c -> R a c.

Lemma stable_ret {A} (a : A) : stable R (ret a).
Proof. intros st. apply R_refl. Qed.

Lemma stable_raise {A} e : stable R (@raise A e).
Proof. intros st. apply R_refl. Qed.

Lemma stable_abort {A} : stable R (@abort A).
Proof. intros st. apply R_refl. Qed.

Lemma stable_lift {A} (o : outcome A) : stable R (lift o).
Proof. intros st. apply R_refl. Qed.

Lemma stable_get_ses : stable R get_ses.
Proof. intros st. apply R_refl. Qed.

Lemma stable_bind {A B} (c : M A) (k : A -> M B) :
  stable R c -> (forall a, stable R (k a)) -> stable R (bind c k).
Proof.
  intros Hc Hk st. unfold bind. specialize (Hc st).
  destruct (c st) as [[a|e|] st']; simpl in *; [|exact Hc|exact Hc].
  eapply R_trans; [exact Hc | apply Hk].
Qed.

Lemma stable_try_except {A} (c : M A) (h : exn -> M A) :
  stable R c -> (forall e, stable R (h e)) -> stable R (try_except c h).
Proof.
  intros Hc Hh st. unfold try_except. specialize (Hc st).
  destruct (c st) as [[a|e|] st']; simpl in *; [exact Hc| |exact Hc].
  eapply R_trans; [exact Hc | apply Hh].
Qed.

Lemma stable_foldM {A B} (f : B -> A -> M B) (l : list A) :
  (forall b a, stable R (f b a)) -> forall b, stable R (foldM f l b).
Proof.
  intros Hf. induction l as [|x l IH]; intros b; simpl.
  - apply stable_ret.
  - apply stable_bind; [apply Hf | exact IH].
Qed.

Lemma stable_modify_ses (f : session -> session) :
  (forall st, R st (State (durable st) (f (ses st)) (tick st) (uuids st))) ->
  stable R (modify_ses f).
Proof. intros H st. apply H. Qed.

End Stable.

Lemma keeps_refl {T} (proj : session -> T) st : keeps proj st st.
Proof. reflexivity. Qed.

Lemma keeps_trans {T} (proj : session -> T) a b c :
  keeps proj a b -> keeps proj b c -> keeps proj a c.
Proof. unfold keeps. congruence. Qed.

Lemma stable_now {T} (proj : session -> T) W : stable (keeps proj) (now W).
Proof. intros st. reflexivity. Qed.

Ltac stable_step :=
  first
    [ apply stable_ret; apply keeps_refl
    | apply stable_raise; apply keeps_refl
    | apply stable_abort; apply keeps_refl
    | apply stable_lift; apply keeps_refl
    | apply stable_get_ses; apply keeps_refl
    | apply stable_now
    | apply stable_bind; [apply keeps_trans | | intros ?]
    | apply stable_try_except; [apply keeps_trans | | intros ?]
    | apply stable_foldM; [apply keeps_refl | apply keeps_trans | intros ? ?]
    | apply stable_modify_ses; intros ?; reflexivity ].

Lemma bind_ok {A B} (c : M A) (k : A -> M B) st a st' :
  c st = (Ok a, st') -> bind c k st = k a st'.
Proof. intros H. unfold bind. rewrite H. reflexivity. Qed.

End MonadProps.

(** ** Conditional fetch *)

Module FetchProps.
Import Models Db Ingest MonadProps.
Local Open Scope py_scope.

Lemma add_metric_keeps_endpoints name v tags :
  stable (keeps endpoints) (add_metric name v tags).
Proof. unfold add_metric. apply stable_modify_ses. intros st. reflexivity. Qed.

Lemma feed_item_keeps_endpoints lib deny src ep ft t acc it :
  stable (keeps endpoints) (feed_item lib deny src ep ft t acc it).
Proof.
  unfold feed_item.
  repeat match goal with
         | |- stable _ (if ?b then _ else _) => destruct b
         | |- stable _ (match ?x with _ => _ end) => destruct x
         | |- stable _ (let '(_, _) := ?x in _) => destruct x
         | _ => stable_step
         end.
Qed.

Lemma feed_entries_keeps_endpoints lib W deny mx results src ep f :
  stable (keeps endpoints) (feed_entries lib W deny mx results src ep f).
Proof.
  unfold feed_entries.
  repeat match goal with
         | |- stable _ (if ?b then _ else _) => destruct b
         | |- stable _ (match ?x with _ => _ end) => destruct x
         | |- stable _ (add_metric _ _ _) => apply add_metric_keeps_endpoints
         | |- stable _ (feed_item _ _ _ _ _ _ _ _) => apply feed_item_keeps_endpoints
         | _ => stable_step
         end.
Qed.

Lemma fetch_304 lib W url accept e m msg st :
  (forall hdrs, urlopen W url hdrs = Fails (HTTPError 304 msg)) ->
  _fetch_bytes lib W url accept e m st
  = (Ok {| status := 304; body := []; etag := e; last_modified := m |}, st).
Proof. intros H. unfold _fetch_bytes. rewrite H. reflexivity. Qed.

Lemma fetch_200 lib W url accept e m code body hdrs st :
  (forall h, urlopen W url h = Response code body hdrs) ->
  _fetch_bytes lib W url accept e m st
  = (Ok {| status := if (code =? 0)%Z then 200%Z else code; body := body;
           etag := dict_get (py "etag") (map (fun kv => (str_lower lib kv.1, kv.2)) hdrs);
           last_modified := dict_get (py "last-modified")
                              (map (fun kv => (str_lower lib kv.1, kv.2)) hdrs) |}, st).
Proof. intros H. unfold _fetch_bytes. rewrite H. reflexivity. Qed.

Lemma bool_decide_ne_same {A} `{EqDecision A} (x : A) : bool_decide (x <> x) = false.
Proof. apply bool_decide_eq_false. intros H. apply H. reflexivity. Qed.

Lemma store_validators_same ix ep code b st :
  store_validators ix ep
    {| status := code; body := b; etag := SourceEndpoint.http_etag ep;
       last_modified := SourceEndpoint.http_last_modified ep |} st
  = (Ok tt, st).
Proof.
  unfold store_validators. cbn [etag last_modified].
  rewrite !bool_decide_ne_same, !andb_false_r. reflexivity.
Qed.

Lemma store_validators_row ix ep f st :
  rows (endpoints (ses st)) !! ix = Some ep ->
  exists st2, store_validators ix ep f st = (Ok tt, st2) /\
              rows (endpoints (ses st2)) !! ix = Some (stored ep f).
Proof.
  intros Hrow. unfold store_validators, stored, bind.
  destruct ep as [i si k u p e0 m0 en]. cbn [SourceEndpoint.http_etag SourceEndpoint.http_last_modified].
  destruct (is_truthy (etag f)) eqn:T1; cbn [andb];
    [case_bool_decide as D1|]; cbn [modify_ses ret];
    (destruct (is_truthy (last_modified f)) eqn:T2; cbn [andb];
     [case_bool_decide as D2|]); cbn [modify_ses ret ses endpoints set_endpoints update rows];
    eexists; (split; [reflexivity|]); cbn [ses endpoints set_endpoints update rows];
    rewrite ?list_lookup_alter, ?Hrow; cbn;
    unfold SourceEndpoint.set_http_etag, SourceEndpoint.set_http_last_modified; cbn;
    repeat (case_decide; [|congruence]); cbn;
    repeat match goal with
           | H : ~ (_ <> _) |- _ => apply dec_stable in H; cbn in H
           end; congruence.
Qed.

(** C4: when the server answers 304 to an endpoint's conditional request,
    the fetch returns no body and the validators it was sent with, and the
    loop body changes nothing at all: no item, no validator, no metric.
    When it answers 200, each non-empty validator among the response headers
    is the one held by the endpoint's row afterwards. *)
Theorem conditional_fetch (lib : PyLib) (W : World) (deny_urls : gset str)
    (max_items : Z) (results : gmap str IngestResult) (ix : nat)
    (ep : SourceEndpoint.t) (src : Source.t) (st : state) :
  rows (endpoints (ses st)) !! ix = Some ep ->
  (forall msg,
     (forall hdrs, urlopen W (SourceEndpoint.url ep) hdrs = Fails (HTTPError 304 msg)) ->
     _fetch_bytes lib W (SourceEndpoint.url ep) ACCEPT
                  (SourceEndpoint.http_etag ep) (SourceEndpoint.http_last_modified ep) st
     = (Ok {| status := 304; body := [];
              etag := SourceEndpoint.http_etag ep;
              last_modified := SourceEndpoint.http_last_modified ep |}, st)
     /\ feed_endpoint lib W deny_urls max_items results (ix, ep, src) st
        = (Ok (<[Source.name src := {| inserted := 0; updated := 0 |}]> results), st))
  /\
  (forall body hdrs,
     (forall h, urlopen W (SourceEndpoint.url ep) h = Response 200 body hdrs) ->
     let st' := (feed_endpoint lib W deny_urls max_items results (ix, ep, src) st).2 in
     let lower := map (fun kv => (str_lower lib kv.1, kv.2)) hdrs in
     (forall e, dict_get (py "etag") lower = Some e -> Py.truthy e = true ->
        SourceEndpoint.http_etag <$> rows (endpoints (ses st')) !! ix = Some (Some e)) /\
     (forall m, dict_get (py "last-modified") lower = Some m -> Py.truthy m = true ->
        SourceEndpoint.http_last_modified <$> rows (endpoints (ses st')) !! ix = Some (Some m))).
Proof.
  intros Hrow. split.
  - intros msg H304. split; [eapply fetch_304; exact H304|].
    unfold feed_endpoint. cbn [fst snd]. unfold bind at 1. cbn [get_ses].
    rewrite Hrow. cbn [default from_option]. unfold id.
    unfold bind at 1, try_except. unfold bind at 1.
    rewrite (fetch_304 _ _ _ _ _ _ msg _ H304). cbn [ret].
    unfold bind. rewrite store_validators_same.
    reflexivity.
  - intros body hdrs H200 st' lower.
    set (fetched := {| status := 200; body := body; etag := dict_get (py "etag") lower;
                       last_modified := dict_get (py "last-modified") lower |}).
    destruct (store_validators_row ix ep fetched st Hrow) as (st2 & Hsv & Hrow2).
    assert (Hst' : endpoints (ses st') = endpoints (ses st2)).
    { subst st'. unfold feed_endpoint. cbn [fst snd]. unfold bind at 1. cbn [get_ses].
      rewrite Hrow. cbn [default from_option]. unfold id.
      unfold bind at 1, try_except. unfold bind at 1.
      rewrite (fetch_200 _ _ _ _ _ _ _ _ _ _ H200). cbn [ret Z.eqb].
      fold lower. fold fetched. unfold id. unfold bind at 1. rewrite Hsv.
      apply feed_entries_keeps_endpoints. }
    rewrite Hst', Hrow2. cbn [fmap option_fmap option_map].
    unfold stored. cbn [etag last_modified fetched].
    split; intros x Hx Tx; rewrite Hx; cbn [is_truthy]; rewrite Tx.
    + destruct (dict_get (py "last-modified") lower) as [m|]; cbn [is_truthy];
        [destruct (Py.truthy m)|]; reflexivity.
    + reflexivity.
Qed.

Lemma conditional_fetch_witness :
  let ep := Scenario.desk_feed (Some (py "v1")) None in
  let st := Sample.boot (Scenario.desk_store (Some (py "v1")) None) in
  feed_endpoint Sample.plain_lib
    (Sample.world Scenario.T1 (fun _ _ => Fails (HTTPError 304 (py "Not Modified"))))
    ∅ 25 ∅ (0, ep, Scenario.desk) st
  = (Ok {[ py "Weather Desk" := {| inserted := 0; updated := 0 |} ]}, st)
  /\
  SourceEndpoint.http_etag <$>
    rows (endpoints (ses
      (feed_endpoint Sample.plain_lib
         (Sample.world Scenario.T1
            (fun _ _ => Response 200 Scenario.storm_bytes [(py "ETag", py "v2")]))
         ∅ 25 ∅ (0, ep, Scenario.desk) st).2)) !! 0
  = Some (Some (py "v2")).
Proof.
  intros ep st. split.
  - destruct (conditional_fetch Sample.plain_lib
                (Sample.world Scenario.T1 (fun _ _ => Fails (HTTPError 304 (py "Not Modified"))))
                ∅ 25 ∅ 0 ep Scenario.desk st eq_refl) as [H304 _].
    apply (H304 (py "Not Modified")). intros hdrs. reflexivity.
  - destruct (conditional_fetch Sample.plain_lib
                (Sample.world Scenario.T1
                   (fun _ _ => Response 200 Scenario.storm_bytes [(py "ETag", py "v2")]))
                ∅ 25 ∅ 0 ep Scenario.desk st eq_refl) as [_ H200].
    destruct (H200 Scenario.storm_bytes [(py "ETag", py "v2")] (fun _ => eq_refl)) as [He _].
    apply (He (py "v2")); reflexivity.
Defined.

End FetchProps.

(** ** Whole runs *)

Module RunProps.
Import Models Db Ingest MergeProps Scenario.

(** On a later poll the update path always reports a change: the first
    pair of the dict is [updated_at], its value the time of this poll. *)
Lemma update_path_reports_change (row : Item.t) (now : datetime)
    (title author url summary content_text : option str) (content_html : str)
    (raw : raw_payload) (hash : str) (published : option datetime) :
  Item.updated_at row <> Some now ->
  (merge row false (update_values now title author url summary content_text
                                  content_html raw hash published)).2 = true.
Proof.
  intros Hne. unfold update_values. rewrite merge_cons.
  assert (Hov : overwrites row (updated_at, VTime now) = true).
  { unfold overwrites. cbn [fst snd getattr]. apply andb_true_iff. split.
    - apply bool_decide_eq_true. destruct (Item.updated_at row); simpl; congruence.
    - apply bool_decide_eq_true. discriminate. }
  rewrite Hov. apply merge_changed_true.
Qed.

Lemma overwrites_same (i : Item.t) (a : attr) (v : value) :
  getattr i a = v -> overwrites i (a, v) = false.
Proof.
  intros H. unfold overwrites. cbn [fst snd]. apply andb_false_iff. left.
  apply bool_decide_eq_false. intros Hn. apply Hn, H.
Qed.

(** With the clock reading of the insert, reconciling the same values again
    changes nothing. *)
Lemma same_clock_unchanged (src_id ep_id : N) (external_id : str) (now : datetime)
    (title author url summary content_text : option str) (content_html : str)
    (raw : raw_payload) (hash : str) (published : option datetime) :
  let row := {| Item.source_id := src_id; Item.endpoint_id := ep_id;
                Item.external_id := external_id; Item.published_at := published;
                Item.updated_at := Some now; Item.title := title;
                Item.author := author; Item.canonical_url := url;
                Item.summary := summary; Item.content_text := content_text;
                Item.content_html := Py.or_none content_html;
                Item.raw_json := Some raw; Item.raw_html := None;
                Item.hash_content := hash |} in
  merge row false (update_values now title author url summary content_text
                                 content_html raw hash published) = (row, false).
Proof.
  intros row. unfold update_values.
  repeat (rewrite merge_cons, overwrites_same by reflexivity).
  reflexivity.
Qed.

(** C1 (the code departs from the claim): the feed with the single item
    [abc] / [Storm Warning] is ingested by two runs five minutes apart, from
    identical bytes. The first run reports inserted=1, updated=0; the second
    reports inserted=0 but updated=1, the stored row having been given the
    time of the second poll. One row exists afterwards. A second run that
    reads the clock of the first reports updated=0. *)
Theorem second_run_counts_an_update :
  let lib := storm_lib [] in
  let d1 := after lib (storm_world T1) (desk_store None None) in
  let d2 := after lib (storm_world T2) d1 in
  let counts i u := Some (JObj [(py "Weather Desk",
                                 JObj [(py "inserted", JInt i); (py "updated", JInt u)])]) in
  feeds_of d1 = counts 1%Z 0%Z /\
  feeds_of d2 = counts 0%Z 1%Z /\
  length (st_items d2) = 1 /\
  map Item.updated_at (st_items d2) = [Some (T2 + 2000000)%Z] /\
  feeds_of (after lib (storm_world T1) d1) = counts 0%Z 0%Z.
Proof. vm_compute. repeat split; reflexivity. Qed.

(** C6 (the code departs from the claim): the process dies inside the first
    network call of a run. The row with status [running] had been flushed
    into the open transaction and is in the session, but nothing was
    committed: the database holds no row of this run. *)
Theorem killed_run_leaves_no_row :
  let r := ingest_over Sample.plain_lib (Sample.world T1 (fun _ _ => Dies))
                       Sample.empty_store in
  r.1 = Abort /\
  map IngestionRun.status (rows (runs (ses r.2))) = [py "running"] /\
  st_runs (durable r.2) = [].
Proof. vm_compute. repeat split; reflexivity. Qed.

(** The error text stored with a metric is cut at 200 characters. *)
Lemma metric_error_truncated (src : Source.t) (ep : SourceEndpoint.t) (e : exn) :
  exists v, dict_get (py "error") (error_tags src ep e) = Some v /\
            v = take 200 (str_of_exn e) /\ length v <= 200.
Proof.
  exists (take 200 (str_of_exn e)). split; [reflexivity|]. split; [reflexivity|].
  rewrite length_take. lia.
Qed.

(** C8 (the code departs from the claim): the first fetch of a run raises
    an exception whose text has 201 characters. The run recorded with
    status [error] carries the whole text in its details. *)
Theorem error_run_keeps_whole_message :
  let d := after Sample.plain_lib
                 (Sample.world T1 (fun _ _ => Fails (Error long_message)))
                 Sample.empty_store in
  map IngestionRun.status (st_runs d) = [py "error"] /\
  last_details d = [(py "error", JStr long_message)] /\
  length long_message = 201.
Proof. vm_compute. repeat split; reflexivity. Qed.

End RunProps.

(** ** The content hash *)

Module ContentHashProps.
Import Models Db Ingest Hashing TextClean TextCleanProps.

Lemma encode_cp_inj c1 c2 e1 e2 r1 r2 :
  encode_cp c1 = Some e1 -> encode_cp c2 = Some e2 ->
  e1 ++ r1 = e2 ++ r2 -> c1 = c2 /\ r1 = r2.
Proof.
  unfold encode_cp. intros H1 H2 H.
  assert (Hz : Z.of_N c1 = Z.of_N c2 /\ r1 = r2); [|destruct Hz as [Hz ?]; split; [lia|assumption]].
  pose proof (N2Z.is_nonneg c1). pose proof (N2Z.is_nonneg c2).
  set (z1 := Z.of_N c1) in *. set (z2 := Z.of_N c2) in *. clearbody z1 z2.
  repeat match type of H1 with
         | context [if ?b then _ else _] => destruct b eqn:?
         end; try discriminate; injection H1 as <-;
  repeat match type of H2 with
         | context [if ?b then _ else _] => destruct b eqn:?
         end; try discriminate; injection H2 as <-;
  simpl in H; simplify_eq; split; try reflexivity;
  Z.to_euclidean_division_equations; lia.
Qed.

Lemma encode_cp_nonempty c e : encode_cp c = Some e -> e <> [].
Proof.
  unfold encode_cp. intros H.
  repeat match type of H with
         | context [if ?b then _ else _] => destruct b
         end; try discriminate; injection H as <-; discriminate.
Qed.

Lemma encode_utf8_inj x : forall y b,
  encode_utf8 x = Some b -> encode_utf8 y = Some b -> x = y.
Proof.
  induction x as [|c x IH]; intros [|d y] b Hx Hy; simpl in *.
  - reflexivity.
  - destruct (encode_cp d) as [e|] eqn:Ed; [|discriminate].
    destruct (encode_utf8 y); [|discriminate]. simplify_eq.
    apply encode_cp_nonempty in Ed. destruct e; [contradiction | discriminate].
  - destruct (encode_cp c) as [e|] eqn:Ec; [|discriminate].
    destruct (encode_utf8 x); [|discriminate]. simplify_eq.
    apply encode_cp_nonempty in Ec. destruct e; [contradiction | discriminate].
  - destruct (encode_cp c) as [e1|] eqn:Ec; [|discriminate].
    destruct (encode_utf8 x) as [b1|] eqn:Ex; [|discriminate].
    destruct (encode_cp d) as [e2|] eqn:Ed; [|discriminate].
    destruct (encode_utf8 y) as [b2|] eqn:Ey; [|discriminate].
    injection Hx as <-. injection Hy as Hy. symmetry in Hy.
    destruct (encode_cp_inj _ _ _ _ _ _ Ec Ed Hy) as [-> ->].
    f_equal. eapply IH; [reflexivity | exact Ey].
Qed.

Lemma split_at_newline (a1 a2 r1 r2 : str) :
  LF ∉ a1 -> LF ∉ a2 -> a1 ++ LF :: r1 = a2 ++ LF :: r2 -> a1 = a2 /\ r1 = r2.
Proof.
  revert a2. induction a1 as [|x a1 IH]; intros [|y a2] H1 H2 H; simpl in H.
  - injection H as ->. split; reflexivity.
  - injection H as <- _. exfalso. apply H2. apply list_elem_of_here.
  - injection H as -> _. exfalso. apply H1. apply list_elem_of_here.
  - injection H as -> H. apply not_elem_of_cons in H1 as [_ H1].
    apply not_elem_of_cons in H2 as [_ H2].
    destruct (IH a2 H1 H2 H) as [-> ->]. split; reflexivity.
Qed.

Lemma hash_input_joined title summary html :
  hash_input title summary html
  = Py.or_str title [] ++ LF :: Py.or_str summary [] ++ LF :: html.
Proof. reflexivity. Qed.

Lemma or_str_or_none x : Py.or_str (Py.or_none x) [] = x.
Proof. destruct x; reflexivity. Qed.

Lemma strip_markup_no_newline lib s : LF ∉ strip_markup_to_text lib s.
Proof.
  intros Hin.
  assert (H : only_plain_space (strip_markup_to_text lib s)).
  { unfold strip_markup_to_text. destruct (Py.truthy s); simpl; [|constructor].
    rewrite re_sub_ws. apply strip_Forall, collapse_plain. }
  unfold only_plain_space in H. rewrite Forall_forall in H.
  specialize (H LF Hin eq_refl). discriminate.
Qed.

Lemma filter_perm {A} (f : A -> bool) l l' :
  l ≡ₚ l' -> List.filter f l ≡ₚ List.filter f l'.
Proof.
  induction 1 as [|x l l' _ IH|x y l|l l' l'' _ IH1 _ IH2]; simpl.
  - reflexivity.
  - destruct (f x); [constructor|]; exact IH.
  - destruct (f x), (f y); try reflexivity. apply perm_swap.
  - etransitivity; eassumption.
Qed.

Lemma findall_at_most_one tag t a x cs :
  NoDup (map tag_of cs) -> length (findall tag (Elem t a x cs)) <= 1.
Proof.
  unfold findall. cbn [children_of].
  induction cs as [|c cs IH]; simpl; intros Hnd; [lia|].
  apply NoDup_cons in Hnd as [Hc Hnd]. specialize (IH Hnd).
  case_bool_decide as Ht; simpl; [|lia].
  assert (Hnil : List.filter (fun c0 => bool_decide (tag_of c0 = tag)) cs = []).
  { destruct (List.filter _ cs) as [|d l] eqn:E; [reflexivity|]. exfalso.
    assert (Hd : In d (List.filter (fun c0 => bool_decide (tag_of c0 = tag)) cs))
      by (rewrite E; left; reflexivity).
    apply filter_In in Hd as [Hd1 Hd2]. apply bool_decide_eq_true in Hd2.
    apply Hc. rewrite Ht, <- Hd2. apply list_elem_of_fmap. exists d.
    split; [reflexivity | apply list_elem_of_In, Hd1]. }
  rewrite Hnil. simpl. lia.
Qed.

Lemma find_order tag t a x cs cs' :
  cs ≡ₚ cs' -> NoDup (map tag_of cs) ->
  find tag (Elem t a x cs) = find tag (Elem t a x cs').
Proof.
  intros Hp Hnd. unfold find.
  pose proof (findall_at_most_one tag t a x cs Hnd) as Hlen.
  assert (Hperm : findall tag (Elem t a x cs) ≡ₚ findall tag (Elem t a x cs'))
    by (apply filter_perm, Hp).
  destruct (findall tag (Elem t a x cs)) as [|c [|d l]]; simpl in Hlen; [| |lia].
  - symmetry in Hperm. apply Permutation_nil_r in Hperm. rewrite Hperm. reflexivity.
  - symmetry in Hperm. apply Permutation_singleton_r in Hperm. rewrite Hperm. reflexivity.
Qed.

Lemma rss_item_order t a x cs cs' :
  cs ≡ₚ cs' -> NoDup (map tag_of cs) ->
  rss_item (Elem t a x cs) = rss_item (Elem t a x cs').
Proof.
  intros Hp Hnd. unfold rss_item.
  rewrite !(fun tag => find_order tag t a x cs cs' Hp Hnd). reflexivity.
Qed.




End ContentHashProps.

(** ** Truncation *)

Module TruncationProps.
Import Models Db Ingest TextClean TextCleanProps StaticBuild Scenario.

Lemma rstrip_length s : length (Py.rstrip s) <= length s.
Proof.
  destruct (rstrip_prefix s) as [t Ht]. rewrite Ht at 2. rewrite length_app. lia.
Qed.

Lemma or_none_length (x s : str) : Py.or_none x = Some s -> s = x.
Proof. unfold Py.or_none. destruct (Py.truthy x); congruence. Qed.

(** C9 (as amended): [_clean_title] returns at most 140 characters: the
    cleaned title itself when it has at most 140, otherwise its first 137
    characters, stripped of trailing whitespace, followed by a horizontal
    ellipsis. The feed parser keeps the first 500 characters of an entry's
    summary as they are, a plain prefix with no ellipsis. Lengths are counted
    in characters of the decoded text. *)
Theorem truncation_of_titles_and_summaries :
  (forall lib s,
     let full := _strip_html lib (Py.or_str s []) in
     let t := _clean_title lib s in
     length t <= 140 /\
     (length full <= 140 -> t = full) /\
     (140 < length full ->
      t = Py.rstrip (take 137 full) ++ [ELLIPSIS] /\
      exists rest, full = Py.rstrip (take 137 full) ++ rest)) /\
  (forall it e,
     rss_item it = Ok e ->
     Entry.summary e = Py.or_none (take 500 (_text (find (py "description") it))) /\
     forall s, Entry.summary e = Some s ->
               length s <= 500 /\ exists rest, _text (find (py "description") it) = s ++ rest) /\
  (forall lib entry e,
     atom_entry lib entry = Ok e ->
     Entry.summary e = Py.or_none (take 500 (_text (find (atom (py "summary")) entry))) /\
     forall s, Entry.summary e = Some s ->
               length s <= 500 /\ exists rest, _text (find (atom (py "summary")) entry) = s ++ rest).
Proof.
  split; [|split].
  - intros lib s full t. subst t. unfold _clean_title. fold full.
    destruct (Py.truthy full) eqn:Ht; simpl negb; cbv iota.
    + destruct (Nat.ltb_spec 140 (length full)) as [Hlt|Hge].
      * split; [|split].
        -- rewrite length_app. simpl.
           pose proof (rstrip_length (take 137 full)) as H. rewrite length_take in H. lia.
        -- lia.
        -- intros _. split; [reflexivity|].
           destruct (rstrip_prefix (take 137 full)) as [r Hr].
           exists (r ++ drop 137 full).
           rewrite app_assoc, <- Hr. symmetry. apply take_drop.
      * split; [lia|]. split; [reflexivity | lia].
    + destruct full; [|discriminate]. simpl. split; [lia|]. split; [reflexivity | lia].
  - intros it e H. unfold rss_item in H.
    destruct (sha_or_raise _); [|discriminate..]. injection H as <-. cbn [Entry.summary].
    split; [reflexivity|]. intros s Hs. apply or_none_length in Hs. subst s.
    split; [rewrite length_take; lia|].
    exists (drop 500 (_text (find (py "description") it))). symmetry. apply take_drop.
  - intros lib entry e H. unfold atom_entry in H.
    destruct (sha_or_raise _); [|discriminate..]. injection H as <-. cbn [Entry.summary].
    rewrite ContentHashProps.or_str_or_none.
    split; [reflexivity|]. intros s Hs. apply or_none_length in Hs. subst s.
    split; [rewrite length_take; lia|].
    exists (drop 500 (_text (find (atom (py "summary")) entry))). symmetry. apply take_drop.
Qed.

Lemma truncation_of_titles_and_summaries_witness :
  let lib := Sample.plain_lib in
  _clean_title lib (Some (py "Storm Warning")) = _strip_html lib (py "Storm Warning") /\
  _clean_title lib (Some (repeat 97%N 141))
  = Py.rstrip (take 137 (_strip_html lib (repeat 97%N 141))) ++ [ELLIPSIS] /\
  (exists e s, rss_item long_item = Ok e /\ Entry.summary e = Some s /\ length s <= 500).
Proof.
  intros lib.
  destruct truncation_of_titles_and_summaries as (Htitle & Hrss & _).
  split; [|split].
  - apply (Htitle lib (Some (py "Storm Warning"))). vm_compute. lia.
  - apply (Htitle lib (Some (repeat 97%N 141))). vm_compute. lia.
  - destruct (rss_item long_item) as [e| |] eqn:E; [|discriminate E..].
    destruct (Hrss long_item e E) as [Hs Hlen].
    exists e, (take 500 (_text (find (py "description") long_item))).
    split; [reflexivity|].
    assert (Hsum : Entry.summary e
                   = Some (take 500 (_text (find (py "description") long_item))))
      by (rewrite Hs; reflexivity).
    split; [exact Hsum | apply (Hlen _ Hsum)].
Defined.

(** A description of 501 characters is cut to its first 500, both by the
    parser and in the stored item, and no ellipsis marks the cut. *)
Lemma summary_cut_has_no_ellipsis :
  (exists e, rss_item long_item = Ok e /\ Entry.summary e = Some (repeat 97%N 500)) /\
  map Item.summary (st_items (after long_lib (storm_world T1) (desk_store None None)))
  = [Some (repeat 97%N 500)] /\
  ELLIPSIS ∉ repeat 97%N 500.
Proof.
  split; [|split].
  - eexists. split; vm_compute; reflexivity.
  - vm_compute. reflexivity.
  - intros H. apply list_elem_of_In, repeat_spec in H. discriminate.
Qed.

End TruncationProps.

(** ** Alerts *)

Module AlertProps.
Import Models Db Ingest Invariants MonadProps Scenario.
Local Open Scope py_scope.

(** *** Queries *)

Lemma select_spec {A} (p : A -> bool) (l : list A) i x :
  (i, x) ∈ select p l <-> l !! i = Some x /\ p x = true.
Proof.
  unfold select. rewrite list_elem_of_In, filter_In, <- list_elem_of_In.
  rewrite list_elem_of_lookup. cbn [snd]. split.
  - intros [[j Hj] Hp]. rewrite list_lookup_imap in Hj.
    destruct (l !! j) as [y|] eqn:E; simpl in Hj; [|discriminate].
    injection Hj as <- <-. split; assumption.
  - intros [Hl Hp]. split; [|exact Hp]. exists i.
    rewrite list_lookup_imap, Hl. reflexivity.
Qed.

Lemma select_nil {A} (p : A -> bool) (l : list A) :
  select p l = [] -> Forall (fun x => p x = false) l.
Proof.
  intros H. apply Forall_forall. intros x Hx.
  apply list_elem_of_lookup in Hx as [i Hi].
  destruct (p x) eqn:E; [|reflexivity].
  assert (Hin : (i, x) ∈ select p l) by (apply select_spec; split; assumption).
  rewrite H in Hin. inversion Hin.
Qed.

Lemma one_or_none_some {A} (p : A -> bool) (t : table A) i x :
  one_or_none p t = Ok (Some (i, x)) -> rows t !! i = Some x /\ p x = true.
Proof.
  unfold one_or_none. intros H.
  destruct (select p (rows t)) as [|r [|r' l]] eqn:E; try discriminate.
  injection H as ->. apply select_spec. rewrite E. apply list_elem_of_here.
Qed.

Lemma one_or_none_none {A} (p : A -> bool) (t : table A) :
  one_or_none p t = Ok None -> Forall (fun x => p x = false) (rows t).
Proof.
  unfold one_or_none. intros H.
  destruct (select p (rows t)) as [|r [|r' l]] eqn:E; try discriminate.
  apply select_nil, E.
Qed.

(** *** The alert half of the loop body *)

Lemma nws_alert_spec lib scope now u props acc st :
  nws_alert lib scope now u props acc st =
  match one_or_none (by_url u) (alerts (ses st)) with
  | Ok (Some (ix, _)) =>
      (Ok (acc.1, S acc.2),
       State (durable st)
             (set_alerts (update ix (overwritten lib scope now u props) (alerts (ses st))) (ses st))
             (tick st) (uuids st))
  | Ok None =>
      (Ok (S acc.1, acc.2),
       State (durable st)
             (set_alerts (add (alert_of lib scope now u props None now) (alerts (ses st))) (ses st))
             (tick st) (uuids st))
  | Raise e => (Raise e, st)
  | Abort => (Abort, st)
  end.
Proof.
  unfold nws_alert, bind, get_ses, lift.
  destruct (one_or_none (by_url u) (alerts (ses st))) as [[[ix a]|]|e|]; reflexivity.
Qed.

Lemma alert_urls_app l1 l2 : alert_urls (l1 ++ l2) = alert_urls l1 ++ alert_urls l2.
Proof. apply omap_app. Qed.

Lemma alert_urls_cons a l :
  alert_urls (a :: l) =
  match Alert.trigger_url a with Some u => u :: alert_urls l | None => alert_urls l end.
Proof. reflexivity. Qed.

Lemma alert_urls_alter (F : Alert.t -> Alert.t) ix l a :
  l !! ix = Some a -> Alert.trigger_url (F a) = Alert.trigger_url a ->
  alert_urls (alter F ix l) = alert_urls l.
Proof.
  revert ix. induction l as [|x l IH]; intros [|ix] Hl HF; try discriminate.
  - injection Hl as ->. change (alter F 0 (a :: l)) with (F a :: l).
    rewrite !alert_urls_cons, HF. reflexivity.
  - change (alter F (S ix) (x :: l)) with (x :: alter F ix l).
    rewrite !alert_urls_cons, (IH ix Hl HF). reflexivity.
Qed.

Lemma not_in_alert_urls u l :
  Forall (fun a => by_url u a = false) l -> u ∉ alert_urls l.
Proof.
  intros H Hin. unfold alert_urls in Hin. apply list_elem_of_omap in Hin as (a & Ha & Hu).
  rewrite Forall_forall in H. specialize (H a Ha). unfold by_url in H.
  apply bool_decide_eq_false in H. contradiction.
Qed.

Lemma nws_item_keeps_alerts lib src ep now u props :
  stable (keeps alerts) (nws_item lib src ep now u props).
Proof.
  unfold nws_item.
  repeat match goal with
         | |- stable _ (if ?b then _ else _) => destruct b
         | |- stable _ (match ?x with _ => _ end) => destruct x
         | _ => stable_step
         end.
Qed.

Lemma nws_feature_skip lib src ep scope now acc f st :
  Py.truthy (trigger_of f) = false ->
  nws_feature lib src ep scope now acc f st = (Ok acc, st).
Proof. intros H. unfold nws_feature. rewrite H. reflexivity. Qed.

Lemma nws_feature_run lib src ep scope now acc f st :
  Py.truthy (trigger_of f) = true ->
  let props := match Feature.properties f with Some p => p | None => Props.empty end in
  nws_feature lib src ep scope now acc f st =
  match nws_item lib src ep now (trigger_of f) props st with
  | (Ok _, st1) => nws_alert lib scope now (trigger_of f) props acc st1
  | (Raise e, st1) => (Raise e, st1)
  | (Abort, st1) => (Abort, st1)
  end.
Proof. intros H props. unfold nws_feature. rewrite H. reflexivity. Qed.

Lemma nws_feature_distinct lib src ep scope now acc f fs st :
  at_most_one_alert (all_alerts (ses st)) ->
  fresh_for (f :: fs) (ses st) ->
  NoDup (List.filter Py.truthy (map trigger_of (f :: fs))) ->
  let st' := (nws_feature lib src ep scope now acc f st).2 in
  at_most_one_alert (all_alerts (ses st')) /\ fresh_for fs (ses st').
Proof.
  intros Hone Hfresh Hnd st'. subst st'.
  apply Forall_cons in Hfresh as [Hf Hfs].
  destruct (Py.truthy (trigger_of f)) eqn:Ht;
    [|rewrite nws_feature_skip by exact Ht; split; assumption].
  rewrite nws_feature_run by exact Ht.
  pose proof (nws_item_keeps_alerts lib src ep now (trigger_of f)
                (match Feature.properties f with Some p => p | None => Props.empty end) st) as Hk.
  destruct (nws_item _ _ _ _ _ _ st) as [[[]|e|] st1]; unfold keeps in Hk;
    cbn [snd] in Hk; cbv beta iota; cbn [snd].
  2,3: unfold all_alerts, fresh_for in *; rewrite Hk; split; assumption.
  rewrite nws_alert_spec. rewrite Hk.
  assert (Hone1 : at_most_one_alert (rows (alerts (ses st)) ++ pending (alerts (ses st))))
    by exact Hone.
  destruct (one_or_none (by_url (trigger_of f)) (alerts (ses st))) as [[[ix a]|]|e|] eqn:E;
    cbn [snd ses alerts set_alerts all_alerts].
  - apply one_or_none_some in E as [Hrow Hp].
    unfold update, all_alerts, fresh_for, set_alerts. cbn [alerts rows pending]. split.
    + unfold at_most_one_alert. rewrite alert_urls_app.
      rewrite (alert_urls_alter _ ix _ a Hrow).
      * rewrite <- alert_urls_app. exact Hone1.
      * unfold by_url in Hp. apply bool_decide_eq_true in Hp. rewrite Hp. reflexivity.
    + exact Hfs.
  - apply one_or_none_none in E.
    unfold add, all_alerts, fresh_for, set_alerts. cbn [alerts rows pending]. split.
    + unfold at_most_one_alert. rewrite app_assoc, alert_urls_app.
      unfold alert_urls at 2. cbn. apply NoDup_app. split; [exact Hone1|]. split.
      * intros x Hx Hx'. apply list_elem_of_singleton in Hx'. subst x.
        rewrite alert_urls_app in Hx. apply elem_of_app in Hx as [Hx|Hx].
        -- exact (not_in_alert_urls _ _ E Hx).
        -- exact (Hf eq_refl Hx).
      * apply NoDup_singleton.
    + simpl in Hnd. rewrite Ht in Hnd. apply NoDup_cons in Hnd as [Hnot _].
      rewrite Forall_forall in Hfs |- *. intros g Hg Hgt.
      rewrite alert_urls_app. intros Hin. apply elem_of_app in Hin as [Hin|Hin].
      * exact (Hfs g Hg Hgt Hin).
      * unfold alert_urls in Hin. cbn in Hin. apply list_elem_of_singleton in Hin.
        apply Hnot. rewrite <- Hin. apply list_elem_of_In, filter_In. split; [|exact Hgt].
        apply in_map, list_elem_of_In, Hg.
  - unfold all_alerts, fresh_for. rewrite Hk. split; assumption.
  - unfold all_alerts, fresh_for. rewrite Hk. split; assumption.
Qed.

Lemma nws_fold_distinct lib src ep scope now fs : forall acc st,
  at_most_one_alert (all_alerts (ses st)) ->
  fresh_for fs (ses st) ->
  NoDup (List.filter Py.truthy (map trigger_of fs)) ->
  at_most_one_alert
    (all_alerts (ses (foldM (nws_feature lib src ep scope now) fs acc st).2)).
Proof.
  induction fs as [|f fs IH]; intros acc st Hone Hfresh Hnd; [exact Hone|].
  cbn [foldM]. unfold bind.
  destruct (nws_feature_distinct lib src ep scope now acc f fs st Hone Hfresh Hnd)
    as [Hone1 Hfresh1].
  destruct (nws_feature lib src ep scope now acc f st) as [[b|e|] st1];
    cbn [snd] in *; [|exact Hone1..].
  apply IH; [exact Hone1 | exact Hfresh1 |].
  simpl in Hnd. destruct (Py.truthy (trigger_of f)); [|exact Hnd].
  apply NoDup_cons in Hnd as [_ Hnd]. exact Hnd.
Qed.

Lemma same_alerts_refl st : same_alerts st st.
Proof. split; [reflexivity | auto]. Qed.

Lemma same_alerts_trans a b c : same_alerts a b -> same_alerts b c -> same_alerts a c.
Proof. intros [H1 H2] [H3 H4]. split; [congruence | auto]. Qed.

Lemma db_flush_same_alerts : stable same_alerts db_flush.
Proof.
  intros st. unfold db_flush, flush.
  destruct (items_unique _); cbn [snd]; [|apply same_alerts_refl].
  split; cbn [ses alerts flush_table all_alerts rows pending]; [|reflexivity].
  unfold all_alerts. cbn. rewrite app_nil_r. reflexivity.
Qed.

Ltac same_alerts_step :=
  first
    [ apply stable_ret; apply same_alerts_refl
    | apply stable_raise; apply same_alerts_refl
    | apply stable_abort; apply same_alerts_refl
    | apply stable_lift; apply same_alerts_refl
    | apply stable_get_ses; apply same_alerts_refl
    | apply db_flush_same_alerts
    | apply stable_bind; [apply same_alerts_trans | | intros ?]
    | apply stable_modify_ses; intros ?; apply same_alerts_refl
    | (intros ?; split; [reflexivity | auto]) ].

Lemma get_or_create_same_alerts W : stable same_alerts (_get_or_create_nws_source W).
Proof.
  unfold _get_or_create_nws_source.
  repeat match goal with
         | |- stable _ (match ?x with _ => _ end) => destruct x
         | |- stable _ (let '(_, _) := ?x in _) => destruct x
         | _ => same_alerts_step
         end.
Qed.

Lemma fetch_json_state lib W url st :
  (_fetch_json lib W url st).2 = st /\
  forall fs, (_fetch_json lib W url st).1 = Ok fs ->
             exists raw, json_loads_features lib raw = inl fs.
Proof.
  unfold _fetch_json.
  destruct (urlopen W url _) as [code raw hdrs|e|]; cbn; [|split; [reflexivity|discriminate]..].
  destruct (json_loads_features lib raw) as [fs|msg] eqn:E; cbn; split; try reflexivity.
  - intros fs' [= <-]. exists raw. exact E.
  - discriminate.
Qed.

Lemma ingest_nws_alerts_distinct lib W point scope st :
  (forall raw fs, json_loads_features lib raw = inl fs ->
                  NoDup (List.filter Py.truthy (map trigger_of fs))) ->
  pending (alerts (ses st)) = [] ->
  at_most_one_alert (rows (alerts (ses st))) ->
  at_most_one_alert (all_alerts (ses (ingest_nws_alerts lib W point scope st).2)).
Proof.
  intros Hdoc Hpend Hone. unfold ingest_nws_alerts.
  assert (Hone0 : at_most_one_alert (all_alerts (ses st))).
  { unfold all_alerts. rewrite Hpend, app_nil_r. exact Hone. }
  unfold bind at 1.
  pose proof (get_or_create_same_alerts W st) as [Hsame Hp1].
  destruct (_get_or_create_nws_source W st) as [[[src ep]|e|] st1]; cbn [snd] in *;
    [|rewrite Hsame; exact Hone0..].
  unfold bind at 1.
  destruct (fetch_json_state lib W
              (py "https://api.weather.gov/alerts/active?point=" ++ point) st1) as [Hst Hfs].
  destruct (_fetch_json lib W _ st1) as [[fs|e|] st2]; cbn [fst snd] in *; subst st2;
    [|rewrite Hsame; exact Hone0..].
  destruct (Hfs fs eq_refl) as [raw Hraw].
  unfold bind at 1. cbn [now].
  unfold bind at 1.
  match goal with
  | |- context [foldM ?f fs ?acc ?s] =>
      pose proof (nws_fold_distinct lib src ep scope (utcnow W (tick st1)) fs acc s) as Hfold;
      destruct (foldM f fs acc s) as [[acc'|e|] st3]
  end; cbn [snd ses] in *; apply Hfold;
    try (rewrite Hsame; exact Hone0);
    try (unfold fresh_for; rewrite (Hp1 Hpend); apply Forall_forall; intros g _ _ Hin; inversion Hin);
    try (exact (Hdoc raw fs Hraw)).
Qed.

(** Generic traversal of a computation for a relation with its reflexivity
    and transitivity lemmas; [leaf] closes the primitive steps. *)
Ltac stable_with refl trans leaf :=
  repeat match goal with
         | |- stable _ (if ?b then _ else _) => destruct b
         | |- stable _ (match ?x with _ => _ end) => destruct x
         | |- stable _ (ret _) => apply stable_ret; apply refl
         | |- stable _ (raise _) => apply stable_raise; apply refl
         | |- stable _ abort => apply stable_abort; apply refl
         | |- stable _ (lift _) => apply stable_lift; apply refl
         | |- stable _ get_ses => apply stable_get_ses; apply refl
         | |- stable _ (bind _ _) => apply stable_bind; [apply trans | | intros ?]
         | |- stable _ (try_except _ _) => apply stable_try_except; [apply trans | | intros ?]
         | |- stable _ (foldM _ _ _) => apply stable_foldM; [apply refl | apply trans | intros ? ?]
         | |- stable _ _ => leaf
         end.

Lemma same_durable_refl st : same_durable st st.
Proof. reflexivity. Qed.
Lemma same_durable_trans a b c : same_durable a b -> same_durable b c -> same_durable a c.
Proof. unfold same_durable. congruence. Qed.

Ltac unfold_ingest :=
  progress unfold ingest_nws_alerts, ingest_rss_atom, feed_endpoint, feed_entries,
    store_validators, feed_item, add_metric, nws_feature, nws_item, nws_alert,
    _get_or_create_nws_source, _fetch_json, _fetch_bytes, begin_run.

Ltac prim_leaf :=
  first
    [ unfold_ingest
    | solve [intros ?; reflexivity]
    | solve [intros ?; unfold db_flush; destruct (flush _); reflexivity] ].

Lemma nws_same_durable lib W point scope :
  stable same_durable (ingest_nws_alerts lib W point scope).
Proof. stable_with same_durable_refl same_durable_trans prim_leaf. Qed.

Lemma feeds_same_durable lib W n :
  stable same_durable (ingest_rss_atom lib W n).
Proof. stable_with same_durable_refl same_durable_trans prim_leaf. Qed.

Lemma begin_run_same_durable started point scope :
  stable same_durable (begin_run started point scope).
Proof. stable_with same_durable_refl same_durable_trans prim_leaf. Qed.

Lemma preserves_refl I st : preserves I st st.
Proof. intros H. exact H. Qed.
Lemma preserves_trans I a b c : preserves I a b -> preserves I b c -> preserves I a c.
Proof. unfold preserves. auto. Qed.

Lemma all_alerts_flush s s' : flush s = Ok s' -> all_alerts s' = all_alerts s /\ pending (alerts s') = [].
Proof.
  unfold flush. destruct (items_unique _); [|discriminate]. intros [= <-].
  unfold all_alerts. cbn. rewrite app_nil_r. split; reflexivity.
Qed.

Ltac ok_leaf :=
  first
    [ progress unfold feed_endpoint, feed_entries, store_validators, feed_item,
        add_metric, _fetch_bytes, ingest_rss_atom, finish_run, record_error, begin_run
    | solve [intros ? ?; assumption]
    | solve [intros st [[Hd Hs] Hp]; unfold db_flush;
             destruct (flush (ses st)) as [s'| |] eqn:E; cbn [snd]; [|repeat split; assumption..];
             apply all_alerts_flush in E as [E1 E2];
             split; [split; [exact Hd | cbn [ses]; rewrite E1; exact Hs] | exact E2]]
    | solve [intros st [Hd Hs]; unfold db_commit;
             destruct (flush (ses st)) as [s'| |] eqn:E; cbn [snd]; [|split; assumption..];
             apply all_alerts_flush in E as [E1 E2];
             split; cbn [durable ses snapshot st_alerts];
             [unfold all_alerts in E1; rewrite E2, app_nil_r in E1; rewrite E1; exact Hs
             |rewrite E1; exact Hs]] ].

Lemma begin_run_ok started point scope :
  stable (preserves alerts_ok_fresh) (begin_run started point scope).
Proof. stable_with (preserves_refl alerts_ok_fresh) (preserves_trans alerts_ok_fresh) ok_leaf. Qed.

Lemma feeds_ok lib W n : stable (preserves alerts_ok) (ingest_rss_atom lib W n).
Proof. stable_with (preserves_refl alerts_ok) (preserves_trans alerts_ok) ok_leaf. Qed.

Lemma finish_run_ok W ix scope res feed_res :
  stable (preserves alerts_ok) (finish_run W ix scope res feed_res).
Proof. stable_with (preserves_refl alerts_ok) (preserves_trans alerts_ok) ok_leaf. Qed.

Lemma record_error_ok started e : stable (preserves alerts_ok) (record_error started e).
Proof. stable_with (preserves_refl alerts_ok) (preserves_trans alerts_ok) ok_leaf. Qed.

Lemma with_session_ok {A} (C : M A) st :
  (forall st0, alerts_ok_fresh st0 -> alerts_ok (C st0).2) ->
  at_most_one_alert (st_alerts (durable st)) ->
  at_most_one_alert (st_alerts (durable (with_session C st).2)).
Proof.
  intros HC Hgood. unfold with_session.
  match goal with
  | |- context [C ?s0] =>
      assert (H0 : alerts_ok_fresh s0);
      [|specialize (HC s0 H0); destruct (C s0) as [[a|e|] st']; cbn [snd durable] in *;
        apply HC]
  end.
  split; [split|]; cbn [durable ses open_session alerts pending]; [exact Hgood| |reflexivity].
  unfold all_alerts. cbn. rewrite app_nil_r. exact Hgood.
Qed.

Lemma nws_ok lib W point scope st :
  (forall raw fs, json_loads_features lib raw = inl fs ->
                  NoDup (List.filter Py.truthy (map trigger_of fs))) ->
  alerts_ok_fresh st -> alerts_ok (ingest_nws_alerts lib W point scope st).2.
Proof.
  intros Hdoc [[Hd Hs] Hp]. split.
  - rewrite (nws_same_durable lib W point scope st). exact Hd.
  - apply ingest_nws_alerts_distinct; [exact Hdoc | exact Hp |].
    unfold all_alerts in Hs. rewrite Hp, app_nil_r in Hs. exact Hs.
Qed.

Lemma run_body_ok lib W started point scope n st0 :
  (forall raw fs, json_loads_features lib raw = inl fs ->
                  NoDup (List.filter Py.truthy (map trigger_of fs))) ->
  alerts_ok_fresh st0 ->
  alerts_ok
    ((run_ix <- begin_run started point scope ;;
      res <- ingest_nws_alerts lib W point scope ;;
      feed_res <- ingest_rss_atom lib W n ;;
      finish_run W run_ix scope res feed_res) st0).2.
Proof.
  intros Hdoc H0. unfold bind.
  pose proof (begin_run_ok started point scope st0 H0) as H1.
  destruct (begin_run started point scope st0) as [[ix|e|] s1]; cbn [snd] in *;
    [|exact (proj1 H1)..].
  pose proof (nws_ok lib W point scope s1 Hdoc H1) as H2.
  destruct (ingest_nws_alerts lib W point scope s1) as [[res|e|] s2]; cbn [snd] in *;
    [|exact H2..].
  pose proof (feeds_ok lib W n s2 H2) as H3.
  destruct (ingest_rss_atom lib W n s2) as [[feed_res|e|] s3]; cbn [snd] in *;
    [|exact H3..].
  exact (finish_run_ok W ix scope res feed_res s3 H3).
Qed.

Lemma ingest_alerts_ok lib W st :
  (forall raw fs, json_loads_features lib raw = inl fs ->
                  NoDup (List.filter Py.truthy (map trigger_of fs))) ->
  at_most_one_alert (st_alerts (durable st)) ->
  at_most_one_alert (st_alerts (durable (ingest lib W st).2)).
Proof.
  intros Hdoc Hgood. unfold ingest. unfold bind at 1. cbn [now].
  set (st1 := State (durable st) (ses st) (S (tick st)) (uuids st)).
  assert (Hgood1 : at_most_one_alert (st_alerts (durable st1))) by exact Hgood.
  clearbody st1. clear Hgood.
  unfold try_except at 1.
  match goal with
  | |- context [with_session ?C st1] =>
      pose proof (with_session_ok C st1
                    (fun st0 H0 => run_body_ok lib W _ _ _ _ st0 Hdoc H0) Hgood1) as Hbody;
      destruct (with_session C st1) as [[[]|e|] st2]; cbn [snd] in Hbody |- *
  end; [exact Hbody | | exact Hbody].
  unfold try_except.
  match goal with
  | |- context [with_session ?C st2] =>
      pose proof (with_session_ok C st2
                    (fun st0 H0 => record_error_ok _ _ st0 (proj1 H0)) Hbody) as Herr;
      destruct (with_session C st2) as [[[]|e'|] st3]; cbn [snd] in Herr |- *
  end; exact Herr.
Qed.

Lemma severity_table lib nws :
  let v := str_lower lib (Py.strip (Py.or_str nws [])) in
  match _map_nws_severity lib nws with
  | AlertSeverity.EMERGENCY => v = py "extreme"
  | AlertSeverity.WARNING => v = py "severe"
  | AlertSeverity.ADVISORY => v = py "moderate"
  | AlertSeverity.INFO => v <> py "extreme" /\ v <> py "severe" /\ v <> py "moderate"
  end.
Proof.
  intros v. unfold _map_nws_severity. fold v.
  repeat case_bool_decide; try assumption. repeat split; assumption.
Qed.

Lemma upsert_existing lib scope now u props acc st ix a :
  one_or_none (by_url u) (alerts (ses st)) = Ok (Some (ix, a)) ->
  let r := nws_alert lib scope now u props acc st in
  r.1 = Ok (acc.1, S acc.2) /\
  pending (alerts (ses r.2)) = pending (alerts (ses st)) /\
  length (rows (alerts (ses r.2))) = length (rows (alerts (ses st))) /\
  (forall j, j <> ix -> rows (alerts (ses r.2)) !! j = rows (alerts (ses st)) !! j) /\
  rows (alerts (ses r.2)) !! ix
  = Some (alert_of lib scope now u props (Alert.trigger_source_id a) (Alert.created_at a)).
Proof.
  intros H r. subst r. rewrite nws_alert_spec, H.
  apply one_or_none_some in H as [Hrow _].
  cbn [fst snd ses alerts set_alerts update rows pending].
  split; [reflexivity|]. split; [reflexivity|]. split; [apply length_alter|]. split.
  - intros j Hj. apply list_lookup_alter_ne. congruence.
  - rewrite list_lookup_alter_eq, Hrow. reflexivity.
Qed.




End AlertProps.

(** ** The fetcher's throttling *)

Module DiscoverProps.
Import Discover Scenario.

Section Limiter.
Local Open Scope Z_scope.

Lemma limiter_set f h l h' :
  _limiter (set_limiter f h l) h' = if decide (h = h') then l else _limiter f h'.
Proof.
  unfold _limiter, set_limiter. cbn [_limiters].
  destruct (decide (h = h')) as [->|Hne].
  - rewrite lookup_insert_eq. reflexivity.
  - rewrite lookup_insert_ne by exact Hne. reflexivity.
Qed.

Lemma tasks_set_task f i p j :
  tasks (set_task f i p) !! j
  = if decide (i = j) then set_pc p <$> tasks f !! i else tasks f !! j.
Proof.
  unfold set_task. cbn [tasks]. destruct (decide (i = j)) as [->|Hne].
  - apply list_lookup_alter_eq.
  - apply list_lookup_alter_ne. exact Hne.
Qed.

Lemma Forall_alter_delay m (l : list task) i p :
  Forall (fun t => m <= delay t) l -> Forall (fun t => m <= delay t) (alter (set_pc p) i l).
Proof.
  intros H. apply Forall_alter; [exact H|]. intros t _ Ht. exact Ht.
Qed.

(** A step that moves task [i] to a point with the same pass time and
    leaves the limiters alone keeps the invariant. *)
Lemma inv_same_pass m f i t p' (sem : nat) :
  limiter_inv m f -> tasks f !! i = Some t ->
  passed_at (set_pc p' t) = passed_at t ->
  (forall u, p' <> Sleeping u) ->
  limiter_inv m (set_task (set_sem f sem) i p').
Proof.
  intros (Hd & Hn & Hs & Hl) Hi Hp Hns. repeat split.
  - cbn [set_task set_sem tasks]. apply Forall_alter_delay, Hd.
  - intros j tj q Hj Hq. rewrite tasks_set_task in Hj. cbn [set_sem tasks] in Hj.
    unfold _limiter. cbn [set_task set_sem _limiters]. fold (_limiter f (host tj)).
    destruct (decide (i = j)) as [<-|Hne].
    + rewrite Hi in Hj. injection Hj as <-. rewrite Hp in Hq. exact (Hn i t q Hi Hq).
    + exact (Hn j tj q Hj Hq).
  - intros a b ta tb p q Hab Ha Hb Hh Hpa Hpb.
    rewrite tasks_set_task in Ha, Hb. cbn [set_sem tasks] in Ha, Hb.
    destruct (decide (i = a)) as [<-|Hia]; destruct (decide (i = b)) as [<-|Hib];
      try contradiction.
    + rewrite Hi in Ha. injection Ha as <-. rewrite Hp in Hpa.
      exact (Hs i b t tb p q Hab Hi Hb Hh Hpa Hpb).
    + rewrite Hi in Hb. injection Hb as <-. rewrite Hp in Hpb.
      exact (Hs a i ta t p q Hab Ha Hi Hh Hpa Hpb).
    + exact (Hs a b ta tb p q Hab Ha Hb Hh Hpa Hpb).
  - intros j tj u Hj Hu. rewrite tasks_set_task in Hj. cbn [set_sem tasks] in Hj.
    unfold _limiter. cbn [set_task set_sem _limiters]. fold (_limiter f (host tj)).
    destruct (decide (i = j)) as [<-|Hne].
    + rewrite Hi in Hj. injection Hj as <-. cbn in Hu. exfalso. exact (Hns u Hu).
    + exact (Hl j tj u Hj Hu).
Qed.

(** Task [i] passes its host's limiter now; nobody else sleeps on it. *)
Lemma inv_pass m f i t :
  0 <= m -> limiter_inv m f -> tasks f !! i = Some t -> passed_at t = None ->
  _next_ok (_limiter f (host t)) <= clock f ->
  (forall j tj u, j <> i -> tasks f !! j = Some tj -> host tj = host t ->
                  at_ tj <> Sleeping u) ->
  limiter_inv m (set_task (set_limiter f (host t)
                     {| _lock := None; _next_ok := clock f + delay t |})
                  i (Waiting (clock f))).
Proof.
  intros Hm (Hd & Hn & Hs & Hl) Hi Hnone Hok Hothers.
  assert (Hdt : m <= delay t).
  { rewrite Forall_forall in Hd. apply Hd. apply list_elem_of_lookup. exists i. exact Hi. }
  repeat split.
  - cbn [set_task set_limiter tasks]. apply Forall_alter_delay, Hd.
  - intros j tj q Hj Hq. rewrite tasks_set_task in Hj. cbn [set_limiter tasks] in Hj.
    assert (Hlim : forall h, _limiter (set_task (set_limiter f (host t)
                     {| _lock := None; _next_ok := clock f + delay t |}) i (Waiting (clock f))) h
                   = if decide (host t = h) then {| _lock := None; _next_ok := clock f + delay t |}
                     else _limiter f h).
    { intros h. apply (limiter_set f (host t) _ h). }
    rewrite Hlim.
    destruct (decide (i = j)) as [<-|Hne].
    + rewrite Hi in Hj. injection Hj as <-. cbn in Hq. injection Hq as <-.
      cbn [host set_pc]. rewrite decide_True by reflexivity. cbn. lia.
    + destruct (decide (host t = host tj)) as [Hh|Hh]; [|exact (Hn j tj q Hj Hq)].
      cbn. pose proof (Hn j tj q Hj Hq) as H. rewrite <- Hh in H. lia.
  - intros a b ta tb p q Hab Ha Hb Hh Hpa Hpb.
    rewrite tasks_set_task in Ha, Hb. cbn [set_limiter tasks] in Ha, Hb.
    destruct (decide (i = a)) as [<-|Hia]; destruct (decide (i = b)) as [<-|Hib];
      try contradiction.
    + rewrite Hi in Ha. injection Ha as <-. cbn in Hpa. injection Hpa as <-.
      cbn [host set_pc] in Hh. pose proof (Hn b tb q Hb Hpb) as H. rewrite <- Hh in H. lia.
    + rewrite Hi in Hb. injection Hb as <-. cbn in Hpb. injection Hpb as <-.
      cbn [host set_pc] in Hh. pose proof (Hn a ta p Ha Hpa) as H. rewrite Hh in H. lia.
    + exact (Hs a b ta tb p q Hab Ha Hb Hh Hpa Hpb).
  - intros j tj u Hj Hu. rewrite tasks_set_task in Hj. cbn [set_limiter tasks] in Hj.
    change (_limiter (set_limiter f (host t)
                     {| _lock := None; _next_ok := clock f + delay t |}) (host tj)
            = {| _lock := Some j; _next_ok := u |}).
    rewrite limiter_set.
    destruct (decide (i = j)) as [<-|Hne].
    + rewrite Hi in Hj. injection Hj as <-. discriminate Hu.
    + destruct (decide (host t = host tj)) as [Hh|Hh]; [|exact (Hl j tj u Hj Hu)].
      exfalso. exact (Hothers j tj u (not_eq_sym Hne) Hj (eq_sym Hh) Hu).
Qed.

(** Task [i] finds the limiter free and its time not yet come: it takes the
    lock and sleeps. *)
Lemma inv_sleep m f i t :
  limiter_inv m f -> tasks f !! i = Some t -> at_ t = Called ->
  _lock (_limiter f (host t)) = None ->
  limiter_inv m (set_task (set_limiter f (host t)
                     {| _lock := Some i; _next_ok := _next_ok (_limiter f (host t)) |})
                  i (Sleeping (_next_ok (_limiter f (host t))))).
Proof.
  intros (Hd & Hn & Hs & Hl) Hi Hat Hlock.
  assert (Hnone : passed_at t = None) by (unfold passed_at; rewrite Hat; reflexivity).
  repeat split.
  - cbn [set_task set_limiter tasks]. apply Forall_alter_delay, Hd.
  - intros j tj q Hj Hq. rewrite tasks_set_task in Hj. cbn [set_limiter tasks] in Hj.
    change (q + m <= _next_ok (_limiter (set_limiter f (host t)
              {| _lock := Some i; _next_ok := _next_ok (_limiter f (host t)) |}) (host tj))).
    rewrite limiter_set.
    destruct (decide (i = j)) as [<-|Hne].
    + rewrite Hi in Hj. injection Hj as <-. discriminate Hq.
    + destruct (decide (host t = host tj)) as [Hh|Hh]; [|exact (Hn j tj q Hj Hq)].
      cbn. rewrite Hh. exact (Hn j tj q Hj Hq).
  - intros a b ta tb p q Hab Ha Hb Hh Hpa Hpb.
    rewrite tasks_set_task in Ha, Hb. cbn [set_limiter tasks] in Ha, Hb.
    destruct (decide (i = a)) as [<-|Hia]; destruct (decide (i = b)) as [<-|Hib];
      try contradiction.
    + rewrite Hi in Ha. injection Ha as <-. discriminate Hpa.
    + rewrite Hi in Hb. injection Hb as <-. discriminate Hpb.
    + exact (Hs a b ta tb p q Hab Ha Hb Hh Hpa Hpb).
  - intros j tj u Hj Hu. rewrite tasks_set_task in Hj. cbn [set_limiter tasks] in Hj.
    change (_limiter (set_limiter f (host t)
              {| _lock := Some i; _next_ok := _next_ok (_limiter f (host t)) |}) (host tj)
            = {| _lock := Some j; _next_ok := u |}).
    rewrite limiter_set.
    destruct (decide (i = j)) as [<-|Hne].
    + rewrite Hi in Hj. injection Hj as <-. cbn in Hu. injection Hu as <-.
      cbn [host set_pc]. rewrite decide_True by reflexivity. reflexivity.
    + destruct (decide (host t = host tj)) as [Hh|Hh]; [|exact (Hl j tj u Hj Hu)].
      exfalso. pose proof (Hl j tj u Hj Hu) as H. rewrite <- Hh in H.
      rewrite H in Hlock. discriminate Hlock.
Qed.

Lemma inv_step m f e f' : 0 <= m -> limiter_inv m f -> step f e = Some f' -> limiter_inv m f'.
Proof.
  intros Hm Hinv Hstep. destruct e as [dt|i]; cbn [step] in Hstep.
  - destruct (0 <=? dt); [|discriminate]. injection Hstep as <-. exact Hinv.
  - destruct (tasks f !! i) as [t|] eqn:Hi; [|discriminate].
    destruct (at_ t) as [|until|passed|passed started|sent] eqn:Hat.
    + destruct (cached t || negb (allowed t)).
      * injection Hstep as <-.
        apply (inv_same_pass m f i t (Returned None) (_sem f)) in Hinv;
          [destruct f; exact Hinv | exact Hi | unfold passed_at; cbn; rewrite Hat; reflexivity
          | discriminate].
      * destruct (_lock (_limiter f (host t))) eqn:Hlock; [discriminate|].
        destruct (Z.ltb_spec (clock f) (_next_ok (_limiter f (host t)))) as [Hlt|Hge];
          injection Hstep as <-.
        -- apply inv_sleep; assumption.
        -- apply inv_pass; try assumption.
           ++ unfold passed_at. rewrite Hat. reflexivity.
           ++ intros j tj u Hne Hj Hh Hu.
              destruct Hinv as (_ & _ & _ & Hl). pose proof (Hl j tj u Hj Hu) as H.
              rewrite Hh in H. rewrite H in Hlock. discriminate Hlock.
    + destruct (Z.leb_spec until (clock f)) as [Hle|Hgt]; [|discriminate].
      injection Hstep as <-.
      pose proof Hinv as (_ & _ & _ & Hl).
      pose proof (Hl i t until Hi Hat) as Hlim.
      apply inv_pass; try assumption.
      * unfold passed_at. rewrite Hat. reflexivity.
      * rewrite Hlim. exact Hle.
      * intros j tj u Hne Hj Hh Hu. pose proof (Hl j tj u Hj Hu) as H.
        rewrite Hh, Hlim in H. injection H as H _. congruence.
    + destruct (_sem f) as [|k]; [discriminate|]. injection Hstep as <-.
      apply (inv_same_pass m f i t); [exact Hinv | exact Hi | | discriminate].
      unfold passed_at. cbn. rewrite Hat. reflexivity.
    + injection Hstep as <-.
      apply (inv_same_pass m f i t); [exact Hinv | exact Hi | | discriminate].
      unfold passed_at. cbn. rewrite Hat. reflexivity.
    + discriminate.
Qed.

Lemma inv_run m es : forall f f', 0 <= m -> limiter_inv m f -> run f es = Some f' -> limiter_inv m f'.
Proof.
  induction es as [|e es IH]; intros f f' Hm Hinv Hrun; cbn [run] in Hrun.
  - injection Hrun as <-. exact Hinv.
  - destruct (step f e) as [f1|] eqn:E; [|discriminate].
    exact (IH f1 f' Hm (inv_step m f e f1 Hm Hinv E) Hrun).
Qed.

Lemma fresh_inv m mx f : fresh m mx f -> limiter_inv m f.
Proof.
  intros [Hl Ht]. rewrite Forall_forall in Ht.
  assert (Hc : forall i t, tasks f !! i = Some t -> at_ t = Called).
  { intros i t Hi. apply Ht. apply list_elem_of_lookup. exists i. exact Hi. }
  repeat split.
  - apply Forall_forall. intros t Hin. apply Ht in Hin. lia.
  - intros i t p Hi Hp. unfold passed_at in Hp. rewrite (Hc i t Hi) in Hp. discriminate.
  - intros i j ti tj p q _ Hi _ _ Hp _. unfold passed_at in Hp.
    rewrite (Hc i ti Hi) in Hp. discriminate.
  - intros i t u Hi Hu. rewrite (Hc i t Hi) in Hu. discriminate.
Qed.

(** X16: the limiter does what it is there for: whatever the schedule, two
    calls for one host leave [wait_turn] at least [min_delay] apart. *)
Lemma limiter_spaces_passes min_delay max_delay f es f' :
  0 <= min_delay -> fresh min_delay max_delay f -> run f es = Some f' ->
  spaced min_delay f'.
Proof.
  intros Hm Hf Hrun.
  exact (proj1 (proj2 (proj2 (inv_run min_delay es f f' Hm (fresh_inv _ _ _ Hf) Hrun)))).
Qed.

End Limiter.

Lemma limiter_spaces_passes_witness :
  exists f', run fetcher0 schedule = Some f' /\ spaced 10000%Z f'.
Proof.
  eexists. split.
  - vm_compute. reflexivity.
  - eapply (limiter_spaces_passes 10000%Z 30000%Z fetcher0 schedule).
    + lia.
    + split; [reflexivity|]. repeat constructor; simpl; lia.
    + vm_compute. reflexivity.
Defined.

(** C7 (the code departs from the claim): with the four slots taken by
    slow hosts, two requests to one host pass the limiter 10 seconds apart,
    as the limiter demands, and then wait for a slot; they are sent 0.2
    seconds apart, although [min_delay] is 10 seconds. *)
Theorem throttled_requests_start_together :
  fresh 10000 30000 fetcher0 /\
  exists f, run fetcher0 schedule = Some f /\
    map host (drop 4 (tasks f)) = [py "news.example"; py "news.example"] /\
    map passed_at (drop 4 (tasks f))
    = [Some 1700000000000; Some 1700000010000]%Z /\
    map started_at (drop 4 (tasks f))
    = [Some 1700000020000; Some 1700000020200]%Z /\
    (1700000020200 - 1700000020000 < 10000)%Z.
Proof.
  split.
  - split; [reflexivity|]. repeat constructor; simpl; lia.
  - eexists. split; [vm_compute; reflexivity|].
    split; [reflexivity|]. split; [reflexivity|]. split; [reflexivity | lia].
Qed.

End DiscoverProps.

(** ** Further properties of the ingest code *)

Module TextFacts.
Import TextCleanProps.

Lemma drop_while_keep {A} (f : A -> bool) s c :
  head s = Some c -> f c = false -> Py.drop_while f s = s.
Proof. destruct s as [|x s]; [discriminate|]. intros [= ->] H. simpl. rewrite H. reflexivity. Qed.

Lemma drop_while_app_stop {A} (f : A -> bool) s c r :
  f c = false -> Py.drop_while f (s ++ c :: r) = Py.drop_while f s ++ c :: r.
Proof.
  intros Hc. induction s as [|x s IH]; simpl.
  - rewrite Hc. reflexivity.
  - destruct (f x); [exact IH | reflexivity].
Qed.

Lemma lstrip_fixed s : Py.lstrip (Py.strip s) = Py.strip s.
Proof.
  unfold Py.lstrip. destruct (head (Py.strip s)) as [c|] eqn:E.
  - apply (drop_while_keep _ _ c E). exact (strip_head s c E).
  - destruct (Py.strip s); [reflexivity | discriminate].
Qed.

Lemma rstrip_fixed s : Py.rstrip (Py.strip s) = Py.strip s.
Proof.
  unfold Py.rstrip at 1. destruct (last (Py.strip s)) as [c|] eqn:E.
  - rewrite (drop_while_keep _ (rev (Py.strip s)) c).
    + apply rev_involutive.
    + rewrite <- last_rev_head, rev_involutive. exact E.
    + exact (strip_last s c E).
  - apply last_None in E. rewrite E. reflexivity.
Qed.

Lemma strip_idem s : Py.strip (Py.strip s) = Py.strip s.
Proof. unfold Py.strip at 1. rewrite lstrip_fixed. apply rstrip_fixed. Qed.

Lemma lstrip_idem s : Py.lstrip (Py.lstrip s) = Py.lstrip s.
Proof.
  unfold Py.lstrip. induction s as [|x s IH]; [reflexivity|]. simpl.
  destruct (Py.isspace x) eqn:E; [exact IH|]. simpl. rewrite E. reflexivity.
Qed.

Lemma strip_lstrip s : Py.strip (Py.lstrip s) = Py.strip s.
Proof. unfold Py.strip. rewrite lstrip_idem. reflexivity. Qed.

Lemma rstrip_app_stop s c r :
  Py.isspace c = false -> Py.rstrip (s ++ c :: r) = s ++ c :: Py.rstrip r.
Proof.
  intros Hc. unfold Py.rstrip. rewrite rev_app_distr. simpl rev at 1.
  rewrite <- app_assoc. simpl app at 2.
  rewrite drop_while_app_stop by exact Hc.
  rewrite rev_app_distr. simpl. rewrite rev_involutive, <- app_assoc. reflexivity.
Qed.

Lemma take_while_stop {A} (f : A -> bool) s c r :
  Forall (fun x => f x = true) s -> f c = false -> Py.take_while f (s ++ c :: r) = s.
Proof.
  intros Hs Hc. induction Hs as [|x s Hx _ IH]; simpl.
  - rewrite Hc. reflexivity.
  - rewrite Hx, IH. reflexivity.
Qed.

Lemma take_while_all {A} (f : A -> bool) s :
  Forall (fun x => f x = true) s -> Py.take_while f s = s.
Proof. induction 1 as [|x s Hx _ IH]; simpl; [reflexivity|]. rewrite Hx, IH. reflexivity. Qed.

Lemma take_while_Forall {A} (f : A -> bool) s : Forall (fun x => f x = true) (Py.take_while f s).
Proof.
  induction s as [|x s IH]; simpl; [constructor|].
  destruct (f x) eqn:E; constructor; assumption.
Qed.

End TextFacts.

Module UrlProps.
Import Models Db Ingest TextCleanProps TextFacts.

Lemma not_hash_Forall (s : str) :
  35%N ∉ s <-> Forall (fun c => negb (c =? 35)%N = true) s.
Proof.
  rewrite Forall_forall. split.
  - intros H c Hc. apply negb_true_iff, N.eqb_neq. intros ->. exact (H Hc).
  - intros H Hin. apply H in Hin. discriminate.
Qed.

(** X1: a normalized URL holds no [#]: the fragment is cut off. *)
Theorem normalize_url_drops_fragment (u : str) : 35%N ∉ _normalize_url u.
Proof.
  apply not_hash_Forall. unfold _normalize_url.
  destruct (negb (Py.truthy (Py.strip u))); [constructor|].
  set (v := Py.strip (Py.take_while _ _)).
  assert (Hv : Forall (fun c => negb (c =? 35)%N = true) v).
  { apply strip_Forall. apply take_while_Forall. }
  destruct (Py.endswith v (py "/")); [|exact Hv].
  apply Forall_take. exact Hv.
Qed.

(** X2: appending a fragment to a URL that has none does not change its
    normalized form. *)
Theorem normalize_url_ignores_fragment (u frag : str) :
  35%N ∉ u -> _normalize_url (u ++ 35%N :: frag) = _normalize_url u.
Proof.
  intros Hu. unfold _normalize_url.
  assert (Hs : Py.strip (u ++ 35%N :: frag) = Py.lstrip u ++ 35%N :: Py.rstrip frag).
  { unfold Py.strip, Py.lstrip. rewrite drop_while_app_stop by reflexivity.
    apply rstrip_app_stop. reflexivity. }
  rewrite Hs.
  assert (Hl : Forall (fun c => negb (c =? 35)%N = true) (Py.lstrip u)).
  { apply (drop_while_Forall (fun c => negb (c =? 35)%N = true)). apply not_hash_Forall. exact Hu. }
  rewrite take_while_stop by (exact Hl || reflexivity).
  rewrite strip_lstrip.
  replace (Py.truthy (Py.lstrip u ++ 35%N :: Py.rstrip frag)) with true
    by (destruct (Py.lstrip u); reflexivity).
  cbn [negb].
  destruct (Py.truthy (Py.strip u)) eqn:E; cbn [negb].
  - rewrite take_while_all.
    + rewrite strip_idem. reflexivity.
    + apply strip_Forall. apply not_hash_Forall. exact Hu.
  - destruct (Py.strip u); [reflexivity | discriminate].
Qed.

Lemma normalize_url_ignores_fragment_witness :
  _normalize_url (py "https://news.example/a/" ++ 35%N :: py "top")
  = _normalize_url (py "https://news.example/a/").
Proof.
  apply (normalize_url_ignores_fragment (py "https://news.example/a/") (py "top")).
  apply (bool_decide_eq_true_1 _). vm_compute. reflexivity.
Defined.

End UrlProps.

Module DenylistProps.
Import Models Db Ingest Outcomes TextCleanProps TextFacts.

Lemma denylist_fold (lines : list str) : forall (acc : gset str) x,
  x ∈ fold_left (fun denied ln =>
                   let ln := Py.strip ln in
                   if negb (Py.truthy ln) || startswith ln (py "#") then denied
                   else denied ∪ {[ _normalize_url ln ]})
                lines acc
  <-> x ∈ acc \/ exists ln, ln ∈ lines /\ listed ln /\ x = _normalize_url (Py.strip ln).
Proof.
  induction lines as [|l lines IH]; intros acc x; cbn [fold_left].
  - split; [auto|]. intros [H|(ln & Hin & _)]; [exact H|]. inversion Hin.
  - rewrite IH. clear IH. cbv zeta.
    destruct (negb (Py.truthy (Py.strip l)) || startswith (Py.strip l) (py "#")) eqn:E.
    + split.
      * intros [H|(ln & Hin & Hl)]; [auto|]. right. exists ln. split; [|exact Hl].
        apply list_elem_of_further. exact Hin.
      * intros [H|(ln & Hin & Hl & Hx)]; [auto|].
        apply elem_of_cons in Hin as [->|Hin].
        -- exfalso. destruct Hl as [Hne Hc]. rewrite Hc, orb_false_r in E.
           destruct (Py.strip l); [congruence | discriminate].
        -- right. exists ln. auto.
    + apply orb_false_iff in E as [E1 E2]. split.
      * intros [H|(ln & Hin & Hl)].
        -- apply elem_of_union in H as [H|H]; [auto|]. apply elem_of_singleton in H.
           right. exists l. split; [apply list_elem_of_here|]. split; [|exact H].
           split; [|exact E2]. destruct (Py.strip l); [discriminate | congruence].
        -- right. exists ln. split; [|exact Hl]. apply list_elem_of_further. exact Hin.
      * intros [H|(ln & Hin & Hl & Hx)].
        -- left. apply elem_of_union. auto.
        -- apply elem_of_cons in Hin as [->|Hin].
           ++ left. apply elem_of_union. right. apply elem_of_singleton. exact Hx.
           ++ right. exists ln. auto.
Qed.

(** X3: the deny set holds exactly the normalized forms of the lines of the
    denylist file that are neither blank nor comments; when the file cannot
    be read the set is empty. *)
Theorem denylist_holds_the_listed_urls (W : World) (x : str) :
  x ∈ _load_denylist_urls W
  <-> exists lines ln,
        read_lines W (Py.strip (Py.or_str (environ W (py "MSPMETRO_DENYLIST_URLS_FILE"))
                                          (py "backend/config/denylist_urls.txt")))
        = Some lines /\
        ln ∈ lines /\ listed ln /\ x = _normalize_url (Py.strip ln).
Proof.
  unfold _load_denylist_urls.
  destruct (read_lines W _) as [lines|].
  - rewrite denylist_fold. split.
    + intros [H|(ln & H)]; [set_solver|]. exists lines, ln. auto.
    + intros (lines' & ln & [= <-] & H). right. exists ln. exact H.
  - split; [set_solver|]. intros (? & ? & H & _). discriminate.
Qed.

(** X4: the User-Agent sent with a request is never empty, whatever the
    environment holds. *)
Theorem user_agent_never_empty (W : World) : _user_agent W <> [].
Proof.
  unfold _user_agent.
  destruct (Py.truthy (Py.strip _)) eqn:E.
  - intros H. rewrite H in E. discriminate.
  - repeat case_bool_decide; discriminate.
Qed.

Lemma first_spec (vals : list str) :
  Py.strip (_first vals) = _first vals /\
  (_first vals = [] <-> Forall (fun v => Py.strip v = []) vals).
Proof.
  induction vals as [|v vals [IH1 IH2]]; cbn [_first].
  - split; [reflexivity|]. split; auto.
  - cbv zeta. destruct (Py.truthy (Py.strip v)) eqn:E.
    + split; [apply strip_idem|]. split.
      * intros H. rewrite H in E. discriminate.
      * intros H. apply Forall_cons in H as [H _]. rewrite H in E. discriminate.
    + assert (Hv : Py.strip v = []) by (destruct (Py.strip v); [reflexivity | discriminate]).
      split; [exact IH1|]. rewrite IH2. split.
      * intros H. constructor; assumption.
      * intros H. apply Forall_cons in H as [_ H]. exact H.
Qed.

(** X5: [_first] returns a stripped text, and returns the empty text only
    when every one of its arguments is blank. *)
Theorem first_is_stripped_and_blank_only_if_all_blank (vals : list str) :
  Py.strip (_first vals) = _first vals /\
  (_first vals = [] <-> Forall (fun v => Py.strip v = []) vals).
Proof. exact (first_spec vals). Qed.

End DenylistProps.

Module DigestProps.
Import Hashing Outcomes.

Lemma be_bytes_octets n x : Forall (fun b => 0 <= b < 256)%Z (be_bytes n x).
Proof.
  induction n as [|n IH]; simpl; constructor; [|exact IH].
  apply Z.mod_pos_bound. lia.
Qed.

Lemma length_be_bytes n x : length (be_bytes n x) = n.
Proof. induction n as [|n IH]; simpl; [reflexivity|]. rewrite IH. reflexivity. Qed.

Lemma sha256_octets msg :
  length (sha256 msg) = 32 /\ Forall (fun b => 0 <= b < 256)%Z (sha256 msg).
Proof.
  unfold sha256. cbv zeta. set (h := fold_left _ _ _). clearbody h.
  cbn [flat_map]. split.
  - rewrite !length_app, !length_be_bytes. reflexivity.
  - repeat (apply Forall_app; split); try apply be_bytes_octets. constructor.
Qed.

Lemma hex_digit_hex n : (0 <= n < 16)%Z -> hex_char (hex_digit n).
Proof.
  intros H. unfold hex_digit, hex_char.
  destruct (Z.ltb_spec n 10); lia.
Qed.

Lemma hexdigest_shape d :
  Forall (fun b => 0 <= b < 256)%Z d ->
  length (hexdigest d) = 2 * length d /\ Forall hex_char (hexdigest d).
Proof.
  induction 1 as [|b d Hb _ [IH1 IH2]]; cbn [hexdigest flat_map].
  - split; [reflexivity | constructor].
  - fold (hexdigest d). split.
    + cbn [app length]. rewrite IH1. lia.
    + cbn [app]. constructor; [|constructor; [|exact IH2]]; apply hex_digit_hex.
      * split; [apply Z.div_pos; lia | apply Z.div_lt_upper_bound; lia].
      * apply Z.mod_pos_bound. lia.
Qed.

Lemma digest_shape (value h : str) :
  _sha256_text value = Some h -> length h = 64 /\ Forall hex_char h.
Proof.
  unfold _sha256_text. destruct (encode_utf8 value) as [b|]; [|discriminate].
  intros [= <-]. destruct (sha256_octets b) as [Hl Ho].
  destruct (hexdigest_shape _ Ho) as [H1 H2]. rewrite Hl in H1. split; [exact H1 | exact H2].
Qed.

(** X6: the digest [_sha256_text] returns has 64 characters, each a digit
    or a letter from a to f. *)
Theorem digest_is_64_hex_digits (value h : str) :
  _sha256_text value = Some h ->
  length h = 64 /\ Forall (fun c => (48 <= c <= 57 \/ 97 <= c <= 102)%N) h.
Proof. exact (digest_shape value h). Qed.

Lemma digest_is_64_hex_digits_witness :
  length (py "ba7816bf8f01cfea414140de5dae2223b00361a396177a9cb410ff61f20015ad") = 64 /\
  Forall (fun c => (48 <= c <= 57 \/ 97 <= c <= 102)%N)
         (py "ba7816bf8f01cfea414140de5dae2223b00361a396177a9cb410ff61f20015ad").
Proof.
  apply (digest_is_64_hex_digits (py "abc")). vm_compute. reflexivity.
Defined.

Lemma encode_cp_none c :
  (c < 0x110000)%N -> (encode_cp c = None <-> surrogate c).
Proof.
  intros Hc. unfold encode_cp, surrogate. cbv zeta.
  destruct (Z.ltb_spec (Z.of_N c) 0x80); [split; [discriminate | lia]|].
  destruct (Z.ltb_spec (Z.of_N c) 0x800); [split; [discriminate | lia]|].
  destruct (Z.ltb_spec (Z.of_N c) 0x10000).
  - destruct (Z.leb_spec 0xD800 (Z.of_N c)); destruct (Z.leb_spec (Z.of_N c) 0xDFFF);
      cbn [andb]; split; (discriminate || lia || reflexivity || idtac).
  - destruct (Z.ltb_spec (Z.of_N c) 0x110000); [split; [discriminate | lia]|]. lia.
Qed.

(** X7: on a text of valid code points, [_sha256_text] fails (the
    [UnicodeEncodeError] of [encode]) exactly when the text holds a
    surrogate. *)
Theorem hashing_fails_on_surrogates_only (value : str) :
  Forall (fun c => (c < 0x110000)%N) value ->
  (_sha256_text value = None <-> Exists (fun c => (0xD800 <= c <= 0xDFFF)%N) value).
Proof.
  intros Hv. unfold _sha256_text.
  assert (H : encode_utf8 value = None <-> Exists surrogate value).
  { induction Hv as [|c s Hc _ IH]; cbn [encode_utf8].
    - split; [discriminate|]. intros H. inversion H.
    - rewrite Exists_cons. rewrite <- IH, <- (encode_cp_none c Hc).
      destruct (encode_cp c), (encode_utf8 s); split; intros; try discriminate; auto.
      destruct H as [H|H]; discriminate. }
  rewrite <- H. destruct (encode_utf8 value); split; intros; (discriminate || reflexivity).
Qed.

Lemma hashing_fails_on_surrogates_only_witness :
  _sha256_text [97; 0xD83D]%N = None.
Proof.
  apply (hashing_fails_on_surrogates_only [97; 0xD83D]%N).
  - repeat constructor.
  - apply Exists_cons. right. apply Exists_cons. left. lia.
Defined.

End DigestProps.

Module FeedParseProps.
Import Models Db Ingest TextCleanProps TextFacts Scenario.

Lemma map_outcome_length {A B} (f : A -> outcome B) l : forall ys,
  map_outcome f l = Ok ys -> length ys = length l.
Proof.
  induction l as [|x l IH]; intros ys; cbn [map_outcome].
  - intros [= <-]. reflexivity.
  - destruct (f x); try discriminate. destruct (map_outcome f l); try discriminate.
    intros [= <-]. cbn [length]. f_equal. apply IH. reflexivity.
Qed.

Lemma map_outcome_Forall {A B} (f : A -> outcome B) (P : B -> Prop) l :
  (forall x y, f x = Ok y -> P y) ->
  forall ys, map_outcome f l = Ok ys -> Forall P ys.
Proof.
  intros Hf. induction l as [|x l IH]; intros ys; cbn [map_outcome].
  - intros [= <-]. constructor.
  - destruct (f x) eqn:E; try discriminate. destruct (map_outcome f l); try discriminate.
    intros [= <-]. constructor; [exact (Hf _ _ E) | apply IH; reflexivity].
Qed.

Lemma slice_to_length {A} (n : Z) (l : list A) :
  (0 <= n)%Z -> length (slice_to n l) <= Z.to_nat n.
Proof.
  intros H. unfold slice_to. destruct (Z.leb_spec 0 n); [|lia].
  rewrite length_take. lia.
Qed.

(** X8: for a limit that is not negative, [_parse_feed_xml] returns at most
    [limit] entries. *)
Theorem parsed_entries_within_limit (lib : PyLib) (feed_url : str) (raw : list Z)
    (limit : Z) kind feed_title items :
  (0 <= limit)%Z ->
  _parse_feed_xml lib feed_url raw limit = Ok (kind, feed_title, items) ->
  length items <= Z.to_nat limit.
Proof.
  intros Hl. unfold _parse_feed_xml. cbv zeta.
  destruct (ET_fromstring lib _) as [root|msg]; [|discriminate].
  destruct (find (py "channel") root) as [channel|].
  - destruct (map_outcome _ _) as [ys| |] eqn:E; try discriminate.
    intros [= _ _ <-]. rewrite (map_outcome_length _ _ _ E). apply slice_to_length, Hl.
  - destruct (map_outcome _ _) as [ys| |] eqn:E; try discriminate.
    intros [= _ _ <-]. rewrite (map_outcome_length _ _ _ E). apply slice_to_length, Hl.
Qed.

Lemma parsed_entries_within_limit_witness :
  exists kind feed_title items,
    _parse_feed_xml (storm_lib []) (py "https://desk.example/feed.xml") storm_bytes 0
    = Ok (kind, feed_title, items) /\ length items <= 0.
Proof.
  eexists _, _, _. split.
  - vm_compute. reflexivity.
  - apply (parsed_entries_within_limit (storm_lib []) (py "https://desk.example/feed.xml")
             storm_bytes 0 (py "rss") (Some (py "Weather Desk")) []).
    + lia.
    + vm_compute. reflexivity.
Defined.

Lemma strip_plain (s : str) :
  Forall (fun c => Py.isspace c = false) s -> Py.strip s = s.
Proof.
  intros H. unfold Py.strip.
  assert (Hk : forall t : str, Forall (fun c => Py.isspace c = false) t ->
                               Py.drop_while Py.isspace t = t).
  { intros t Ht. destruct Ht as [|c t Hc _]; [reflexivity|]. simpl. rewrite Hc. reflexivity. }
  unfold Py.lstrip. rewrite (Hk s H). unfold Py.rstrip. rewrite Hk.
  - apply rev_involutive.
  - apply Forall_forall. intros c Hc. rewrite Forall_forall in H. apply H.
    apply list_elem_of_In. apply in_rev. apply list_elem_of_In. exact Hc.
Qed.

Lemma hex_not_space c : (48 <= c <= 57 \/ 97 <= c <= 102)%N -> Py.isspace c = false.
Proof.
  intros H. unfold Py.isspace.
  repeat (apply orb_false_intro);
    try (apply N.eqb_neq; lia);
    apply andb_false_iff; rewrite !N.leb_gt; lia.
Qed.

Lemma digest_plain s h : sha_or_raise s = Ok h -> h <> [] /\ Py.strip h = h.
Proof.
  unfold sha_or_raise. destruct (Hashing._sha256_text s) as [d|] eqn:E; [|discriminate].
  intros [= <-]. destruct (DigestProps.digest_shape s d E) as [Hl Hx]. split.
  - intros ->. discriminate.
  - apply strip_plain. eapply Forall_impl; [exact Hx|]. intros c. apply hex_not_space.
Qed.

Lemma first_with_digest a b h :
  h <> [] -> Py.strip h = h ->
  _first [a; b; h] <> [] /\ Py.strip (_first [a; b; h]) = _first [a; b; h].
Proof.
  intros Hne Hs.
  destruct (DenylistProps.first_spec [a; b; h]) as [H1 H2].
  split; [|exact H1]. intros H. apply H2 in H.
  apply Forall_cons in H as [_ H]. apply Forall_cons in H as [_ H].
  apply Forall_cons in H as [H _]. congruence.
Qed.

(** X9: every entry [_parse_feed_xml] returns has an external id that is
    not empty and carries no surrounding whitespace: where the feed gives
    neither id nor link, the digest of title and date stands in. *)
Theorem parsed_entries_have_ids (lib : PyLib) (feed_url : str) (raw : list Z)
    (limit : Z) kind feed_title items :
  _parse_feed_xml lib feed_url raw limit = Ok (kind, feed_title, items) ->
  Forall (fun e => Entry.external_id e <> [] /\
                   Py.strip (Entry.external_id e) = Entry.external_id e) items.
Proof.
  unfold _parse_feed_xml. cbv zeta.
  destruct (ET_fromstring lib _) as [root|msg]; [|discriminate].
  destruct (find (py "channel") root) as [channel|].
  - destruct (map_outcome _ _) as [ys| |] eqn:E; try discriminate.
    intros [= _ _ <-]. revert E. apply map_outcome_Forall.
    intros it e. unfold rss_item. cbv zeta.
    destruct (sha_or_raise _) as [h| |] eqn:Eh; try discriminate.
    intros [= <-]. cbn [Entry.external_id].
    destruct (digest_plain _ _ Eh). apply first_with_digest; assumption.
  - destruct (map_outcome _ _) as [ys| |] eqn:E; try discriminate.
    intros [= _ _ <-]. revert E. apply map_outcome_Forall.
    intros it e. unfold atom_entry. cbv zeta.
    destruct (sha_or_raise _) as [h| |] eqn:Eh; try discriminate.
    intros [= <-]. cbn [Entry.external_id].
    destruct (digest_plain _ _ Eh). apply first_with_digest; assumption.
Qed.

Lemma parsed_entries_have_ids_witness :
  exists kind feed_title items,
    _parse_feed_xml (storm_lib []) (py "https://desk.example/feed.xml") storm_bytes 25
    = Ok (kind, feed_title, items) /\
    Forall (fun e => Entry.external_id e <> [] /\
                     Py.strip (Entry.external_id e) = Entry.external_id e) items.
Proof.
  eexists _, _, _. split.
  - vm_compute. reflexivity.
  - eapply (parsed_entries_have_ids (storm_lib []) (py "https://desk.example/feed.xml")
              storm_bytes 25). vm_compute. reflexivity.
Defined.

End FeedParseProps.

Module SurvivalProps.
Import Models Db Ingest Invariants MonadProps Outcomes.
Local Open Scope py_scope.

Lemma survives_ret {A} (a : A) : survives (ret a).
Proof. intros st. discriminate. Qed.
Lemma survives_raise {A} e : survives (@raise A e).
Proof. intros st. discriminate. Qed.
Lemma survives_lift {A} (o : outcome A) : o <> Abort -> survives (lift o).
Proof. intros H st. exact H. Qed.
Lemma survives_get_ses : survives get_ses.
Proof. intros st. discriminate. Qed.
Lemma survives_modify_ses f : survives (modify_ses f).
Proof. intros st. discriminate. Qed.
Lemma survives_now W : survives (now W).
Proof. intros st. discriminate. Qed.
Lemma survives_new_uuid W : survives (new_uuid W).
Proof. intros st. discriminate. Qed.
Lemma survives_db_flush : survives db_flush.
Proof. intros st. unfold db_flush, flush. destruct (items_unique _); discriminate. Qed.
Lemma survives_db_commit : survives db_commit.
Proof. intros st. unfold db_commit, flush. destruct (items_unique _); discriminate. Qed.

Lemma survives_bind {A B} (c : M A) (k : A -> M B) :
  survives c -> (forall a, survives (k a)) -> survives (bind c k).
Proof.
  intros Hc Hk st. unfold bind. specialize (Hc st).
  destruct (c st) as [[a|e|] st']; cbn [fst] in *; [apply Hk | discriminate | contradiction].
Qed.

Lemma survives_try_except {A} (c : M A) (h : exn -> M A) :
  survives c -> (forall e, survives (h e)) -> survives (try_except c h).
Proof.
  intros Hc Hh st. unfold try_except. specialize (Hc st).
  destruct (c st) as [[a|e|] st']; cbn [fst] in *; [discriminate | apply Hh | contradiction].
Qed.

Lemma survives_foldM {A B} (f : B -> A -> M B) (l : list A) :
  (forall b a, survives (f b a)) -> forall b, survives (foldM f l b).
Proof.
  intros Hf. induction l as [|x l IH]; intros b; cbn [foldM].
  - apply survives_ret.
  - apply survives_bind; [apply Hf | exact IH].
Qed.

Lemma survives_with_session {A} (c : M A) : survives c -> survives (with_session c).
Proof.
  intros Hc st. unfold with_session. cbv zeta.
  match goal with |- context [c ?s] => specialize (Hc s); destruct (c s) as [[a|e|] st'] end;
    cbn [fst] in *; [discriminate | discriminate | contradiction].
Qed.

Lemma one_or_none_lives {A} (p : A -> bool) t : one_or_none p t <> Abort.
Proof. unfold one_or_none. destruct (select p (rows t)) as [|? [|? ?]]; discriminate. Qed.

Lemma sha_or_raise_lives s : sha_or_raise s <> Abort.
Proof. unfold sha_or_raise. destruct (Hashing._sha256_text s); discriminate. Qed.

Lemma map_outcome_lives {A B} (f : A -> outcome B) l :
  (forall x, f x <> Abort) -> map_outcome f l <> Abort.
Proof.
  intros Hf. induction l as [|x l IH]; cbn [map_outcome]; [discriminate|].
  specialize (Hf x). destruct (f x); [|discriminate|contradiction].
  destruct (map_outcome f l); [discriminate | discriminate | contradiction].
Qed.

Lemma parse_feed_lives lib url raw limit : _parse_feed_xml lib url raw limit <> Abort.
Proof.
  unfold _parse_feed_xml. cbv zeta.
  destruct (ET_fromstring lib _); [|discriminate].
  destruct (find _ _).
  - match goal with |- context [map_outcome ?f ?l] =>
      pose proof (map_outcome_lives f l) as H; destruct (map_outcome f l) end;
      try discriminate.
    exfalso. apply H; [|reflexivity]. intros x. unfold rss_item. cbv zeta.
    pose proof (sha_or_raise_lives (_text (find (py "title") x) ++ _text (find (py "pubDate") x))).
    destruct (sha_or_raise _); [discriminate | discriminate | contradiction].
  - match goal with |- context [map_outcome ?f ?l] =>
      pose proof (map_outcome_lives f l) as H; destruct (map_outcome f l) end;
      try discriminate.
    exfalso. apply H; [|reflexivity]. intros x. unfold atom_entry. cbv zeta.
    match goal with |- context [sha_or_raise ?s] =>
      pose proof (sha_or_raise_lives s); destruct (sha_or_raise s) end;
      [discriminate | discriminate | contradiction].
Qed.

Section Alive.
Context (lib : PyLib) (W : World) (Hlive : process_lives W).

Lemma survives_fetch_json url : survives (_fetch_json lib W url).
Proof.
  intros st. unfold _fetch_json.
  match goal with |- context [urlopen W ?u ?h] =>
    pose proof (Hlive u h); destruct (urlopen W u h) as [c raw hd|e|] end;
    [|discriminate|contradiction].
  destruct (json_loads_features lib raw); discriminate.
Qed.

Lemma survives_fetch_bytes url accept e m : survives (_fetch_bytes lib W url accept e m).
Proof.
  intros st. unfold _fetch_bytes. cbv zeta.
  match goal with |- context [urlopen W ?u ?h] =>
    pose proof (Hlive u h); destruct (urlopen W u h) as [c raw hd|[code msg|msg]|] end;
    [discriminate| |discriminate|contradiction].
  destruct (code =? 304)%Z; discriminate.
Qed.

Ltac survive :=
  repeat match goal with
         | |- survives (if ?b then _ else _) => destruct b
         | |- survives (ret _) => apply survives_ret
         | |- survives (raise _) => apply survives_raise
         | |- survives get_ses => apply survives_get_ses
         | |- survives (modify_ses _) => apply survives_modify_ses
         | |- survives (now _) => apply survives_now
         | |- survives (new_uuid _) => apply survives_new_uuid
         | |- survives db_flush => apply survives_db_flush
         | |- survives db_commit => apply survives_db_commit
         | |- survives (_fetch_json _ _ _) => apply survives_fetch_json
         | |- survives (_fetch_bytes _ _ _ _ _ _) => apply survives_fetch_bytes
         | |- survives (lift (one_or_none _ _)) => apply survives_lift, one_or_none_lives
         | |- survives (lift (sha_or_raise _)) => apply survives_lift, sha_or_raise_lives
         | |- survives (lift (content_hash _ _ _)) => apply survives_lift, sha_or_raise_lives
         | |- survives (bind _ _) => apply survives_bind; [|intros ?]
         | |- survives (try_except _ _) => apply survives_try_except; [|intros ?]
         | |- survives (foldM _ _ _) => apply survives_foldM; intros ? ?
         | |- survives (with_session _) => apply survives_with_session
         | |- survives (match ?x with _ => _ end) => destruct x
         | |- survives _ =>
             progress unfold ingest_nws_alerts, ingest_rss_atom, feed_endpoint,
               store_validators, feed_item, add_metric, nws_feature, nws_item, nws_alert,
               _get_or_create_nws_source, begin_run, finish_run, record_error
         end.

Lemma survives_feed_entries deny mx results src ep fetched :
  survives (feed_entries lib W deny mx results src ep fetched).
Proof.
  unfold feed_entries. cbv zeta.
  destruct (_ || _); [apply survives_ret|].
  pose proof (parse_feed_lives lib (SourceEndpoint.url ep) (body fetched) mx) as H.
  destruct (_parse_feed_xml _ _ _ _) as [[[k t] items]|e|]; [| |contradiction]; survive.
Qed.

Lemma survives_nws point scope : survives (ingest_nws_alerts lib W point scope).
Proof. survive. Qed.

Lemma survives_feeds n : survives (ingest_rss_atom lib W n).
Proof.
  unfold ingest_rss_atom. cbv zeta. apply survives_bind; [apply survives_get_ses|]. intros db.
  apply survives_foldM. intros results q. unfold feed_endpoint. cbv zeta.
  apply survives_bind; [apply survives_get_ses|]. intros db'.
  apply survives_bind; [survive|]. intros [f|]; [|apply survives_ret].
  apply survives_bind; [survive | intros _; apply survives_feed_entries].
Qed.

Lemma survives_ingest : survives (ingest lib W).
Proof.
  unfold ingest. cbv zeta.
  apply survives_bind; [apply survives_now|]. intros started.
  apply survives_try_except.
  - apply survives_with_session.
    apply survives_bind; [survive|]. intros ix.
    apply survives_bind; [apply survives_nws|]. intros res.
    apply survives_bind; [apply survives_feeds|]. intros fr. survive.
  - intros e. survive.
Qed.

End Alive.

Lemma ingest_swallows lib W st e : (ingest lib W st).1 <> Raise e.
Proof.
  unfold ingest. cbv zeta. unfold bind at 1. cbn [now].
  unfold try_except at 1.
  match goal with |- context [with_session ?c ?s] => destruct (with_session c s) as [[[]|e'|] st'] end;
    cbn [fst]; try discriminate.
  unfold try_except.
  match goal with |- context [with_session ?c ?s] => destruct (with_session c s) as [[[]|e''|] st''] end;
    cbn [fst]; discriminate.
Qed.



End SurvivalProps.

Module AtomicityProps.
Import Models Db Ingest Invariants Outcomes MonadProps AlertProps.
Local Open Scope py_scope.

Lemma runs_kept_refl st : runs_kept st st.
Proof. intros _. reflexivity. Qed.

Lemma runs_kept_trans a b c : runs_kept a b -> runs_kept b c -> runs_kept a c.
Proof.
  unfold runs_kept. intros H1 H2 Hp. specialize (H1 Hp). rewrite <- H1. apply H2.
  rewrite H1. exact Hp.
Qed.

Ltac runs_leaf :=
  first
    [ unfold_ingest
    | solve [intros ? _; reflexivity]
    | solve [intros st Hp; unfold db_flush, flush; destruct (items_unique _); [|reflexivity];
             cbn [snd ses runs]; destruct (runs (ses st)) as [r p]; cbn in Hp; subst p;
             unfold flush_table; cbn [rows pending]; rewrite app_nil_r; reflexivity] ].

Lemma nws_runs_kept lib W point scope :
  stable runs_kept (ingest_nws_alerts lib W point scope).
Proof. stable_with runs_kept_refl runs_kept_trans runs_leaf. Qed.

Lemma feeds_runs_kept lib W n :
  stable runs_kept (ingest_rss_atom lib W n).
Proof. stable_with runs_kept_refl runs_kept_trans runs_leaf. Qed.


Lemma begin_run_spec started point scope st :
  pending (runs (ses st)) = [] ->
  let r := begin_run started point scope st in
  durable r.2 = durable st /\
  (forall ix, r.1 = Ok ix ->
     ix = length (rows (runs (ses st))) /\
     runs (ses r.2) = Table (rows (runs (ses st)) ++ [running_row started point scope]) []).
Proof.
  intros Hp r. subst r. split; [apply begin_run_same_durable|].
  unfold begin_run, bind, get_ses, modify_ses, db_flush, flush.
  cbn [ses items set_runs rows pending add].
  destruct (items_unique _); cbn [fst snd ses runs flush_table rows pending add ret];
    [|discriminate].
  intros ix [= <-]. unfold flush_table, set_runs, add. cbn [runs rows pending].
  rewrite Hp. cbn [length app]. split; [lia | reflexivity].
Qed.

Lemma finish_run_spec W ix scope res feed_res st :
  let r := finish_run W ix scope res feed_res st in
  match r.1 with
  | Ok _ =>
      st_runs (durable r.2)
      = alter (set_run (utcnow W (tick st)) (py "ok")
                 [(py "nws_inserted", JInt (Z.of_nat (inserted res)));
                  (py "nws_updated", JInt (Z.of_nat (updated res)));
                  (py "feeds", feeds_json feed_res)]) ix (rows (runs (ses st)))
        ++ pending (runs (ses st))
  | _ => durable r.2 = durable st
  end.
Proof.
  unfold finish_run, add_metric, bind, modify_ses, now, db_commit, flush.
  cbn [ses durable tick uuids items set_runs set_metrics rows pending add update runs fst snd].
  destruct (items_unique _); cbn [fst snd durable]; reflexivity.
Qed.


Lemma alter_last {A} (f : A -> A) (l : list A) (x : A) :
  alter f (length l) (l ++ [x]) = l ++ [f x].
Proof. induction l as [|y l IH]; [reflexivity|]. cbn. f_equal. exact IH. Qed.

Lemma bind_raise {A B} (c : M A) (k : A -> M B) st e st' :
  c st = (Raise e, st') -> bind c k st = (Raise e, st').
Proof. intros H. unfold bind. rewrite H. reflexivity. Qed.

Lemma bind_abort {A B} (c : M A) (k : A -> M B) st st' :
  c st = (Abort, st') -> bind c k st = (Abort, st').
Proof. intros H. unfold bind. rewrite H. reflexivity. Qed.

Ltac bind_case E :=
  first [ rewrite (bind_ok _ _ _ _ _ E)
        | rewrite (bind_raise _ _ _ _ _ E)
        | rewrite (bind_abort _ _ _ _ E) ].

Lemma run_body_spec lib W started point scope n st0 :
  pending (runs (ses st0)) = [] ->
  let r := (run_ix <- begin_run started point scope ;;
            res <- ingest_nws_alerts lib W point scope ;;
            feed_res <- ingest_rss_atom lib W n ;;
            finish_run W run_ix scope res feed_res) st0 in
  match r.1 with
  | Ok _ => exists row, st_runs (durable r.2) = rows (runs (ses st0)) ++ [row] /\
                        IngestionRun.status row = py "ok"
  | _ => durable r.2 = durable st0
  end.
Proof.
  intros Hp. cbv zeta.
  destruct (begin_run_spec started point scope st0 Hp) as [Hd1 Hr1].
  destruct (begin_run started point scope st0) as [[ix|e|] s1] eqn:E1; bind_case E1;
    cbn [fst snd] in *; [|exact Hd1..].
  destruct (Hr1 ix eq_refl) as [-> Hruns1]. clear Hr1.
  pose proof (nws_same_durable lib W point scope s1) as Hd2.
  pose proof (nws_runs_kept lib W point scope s1) as Hr2.
  destruct (ingest_nws_alerts lib W point scope s1) as [[res|e|] s2] eqn:E2; bind_case E2;
    cbn [fst snd] in *; [|unfold same_durable in Hd2; congruence..].
  pose proof (feeds_same_durable lib W n s2) as Hd3.
  pose proof (feeds_runs_kept lib W n s2) as Hr3.
  destruct (ingest_rss_atom lib W n s2) as [[fr|e|] s3] eqn:E3; bind_case E3;
    cbn [fst snd] in *; [|unfold same_durable in *; congruence..].
  assert (Hruns3 : runs (ses s3)
                   = Table (rows (runs (ses st0)) ++ [running_row started point scope]) []).
  { unfold runs_kept in *. rewrite Hr3, Hr2; [exact Hruns1 | | ].
    - rewrite Hruns1. reflexivity.
    - rewrite Hr2; rewrite Hruns1; reflexivity. }
  pose proof (finish_run_spec W (length (rows (runs (ses st0)))) scope res fr s3) as Hf.
  cbv zeta in Hf.
  destruct (finish_run W _ scope res fr s3) as [[[]|e|] s4]; cbn [fst snd] in *;
    [|unfold same_durable in *; congruence..].
  rewrite Hruns3 in Hf. cbn [rows pending] in Hf. rewrite alter_last, app_nil_r in Hf.
  eexists. split; [exact Hf | reflexivity].
Qed.

Lemma record_error_spec started e st :
  let r := with_session (record_error started e) st in
  let d := durable st in
  let d' := durable r.2 in
  st_sources d' = st_sources d /\ st_endpoints d' = st_endpoints d /\
  st_items d' = st_items d /\ st_alerts d' = st_alerts d /\ st_metrics d' = st_metrics d /\
  (st_runs d' = st_runs d \/
   exists row, st_runs d' = st_runs d ++ [row] /\ IngestionRun.status row = py "error").
Proof.
  unfold with_session, record_error, bind, modify_ses, db_commit, flush. cbv zeta.
  cbn [ses durable tick uuids items set_runs open_session rows pending add runs fst snd].
  destruct (items_unique _); cbn [fst snd durable].
  - unfold snapshot, flush_table. cbn. rewrite !app_nil_r.
    repeat split. right. eexists. split; reflexivity.
  - repeat split. left. reflexivity.
Qed.


End AtomicityProps.

Module CountProps.
Import Models Db Ingest Invariants Outcomes MonadProps AlertProps AtomicityProps Scenario.
Local Open Scope py_scope.

Lemma nws_feature_counts lib src ep scope now acc f st acc' st' :
  nws_feature lib src ep scope now acc f st = (Ok acc', st') ->
  acc'.1 + acc'.2 = acc.1 + acc.2 + (if identified f then 1 else 0).
Proof.
  unfold identified. destruct (Py.truthy (trigger_of f)) eqn:E.
  - rewrite (nws_feature_run _ _ _ _ _ _ _ _ E). cbv zeta.
    destruct (nws_item _ _ _ _ _ _ _) as [[[]|e|] s1]; try discriminate.
    rewrite nws_alert_spec.
    destruct (one_or_none _ _) as [[[ix a]|]|e|]; try discriminate;
      intros [= <- _]; cbn [fst snd]; lia.
  - rewrite (nws_feature_skip _ _ _ _ _ _ _ _ E). intros [= <- _]. lia.
Qed.

Lemma nws_fold_counts lib src ep scope now fs : forall acc st acc' st',
  foldM (nws_feature lib src ep scope now) fs acc st = (Ok acc', st') ->
  acc'.1 + acc'.2 = acc.1 + acc.2 + length (List.filter identified fs).
Proof.
  induction fs as [|f fs IH]; intros acc st acc' st'; cbn [foldM List.filter].
  - intros [= <- _]. cbn. lia.
  - destruct (nws_feature lib src ep scope now acc f st) as [[a1|e|] s1] eqn:E; bind_case E;
      try discriminate.
    intros H. apply IH in H. apply nws_feature_counts in E.
    destruct (identified f); cbn [length]; lia.
Qed.

(** X12: when [ingest_nws_alerts] returns, inserted plus updated is the
    number of features of the fetched document that carry a trigger URL;
    features without one are skipped. *)
Theorem every_identified_feature_is_counted (lib : PyLib) (W : World) (point scope : str)
    (st st' : state) (r : IngestResult) :
  ingest_nws_alerts lib W point scope st = (Ok r, st') ->
  exists code raw hdrs fs,
    urlopen W (py "https://api.weather.gov/alerts/active?point=" ++ point)
            [(py "User-Agent", _user_agent W); (py "Accept", py "application/geo+json")]
    = Response code raw hdrs /\
    json_loads_features lib raw = inl fs /\
    inserted r + updated r = length (List.filter (fun f => Py.truthy (trigger_of f)) fs).
Proof.
  unfold ingest_nws_alerts.
  destruct (_get_or_create_nws_source W st) as [[[src ep]|e|] s1] eqn:E1; bind_case E1;
    try discriminate.
  cbn [fst snd].
  match goal with
  | |- context [_fetch_json lib W ?u] =>
      destruct (_fetch_json lib W u s1) as [[fs|e|] s2] eqn:E2
  end; bind_case E2; try discriminate.
  unfold bind at 1. cbn [now].
  match goal with
  | |- context [bind (foldM ?f fs ?a) _ ?s] => destruct (foldM f fs a s) as [[acc|e|] s3] eqn:E3
  end; bind_case E3; try discriminate.
  intros [= <- _]. cbn [inserted updated].
  apply nws_fold_counts in E3. cbn [fst snd] in E3.
  unfold _fetch_json in E2.
  destruct (urlopen W _ _) as [code raw hdrs|e|] eqn:Eu; try discriminate.
  destruct (json_loads_features lib raw) as [fs'|msg] eqn:Ej; try discriminate.
  injection E2 as <- _. exists code, raw, hdrs, fs'. repeat split; [exact Ej | exact E3].
Qed.

Lemma every_identified_feature_is_counted_witness :
  exists r st',
    ingest_nws_alerts (storm_lib [alert_feature (py "urn:a1") (py "Severe");
                                  {| Feature.id := None; Feature.properties := None |}])
                      (storm_world T1) (py "44.9778,-93.2650") (py "twin-cities")
                      (Sample.boot Sample.empty_store) = (Ok r, st') /\
    inserted r + updated r = 1.
Proof.
  eexists _, _. split.
  - vm_compute. reflexivity.
  - edestruct (every_identified_feature_is_counted
                 (storm_lib [alert_feature (py "urn:a1") (py "Severe");
                             {| Feature.id := None; Feature.properties := None |}])
                 (storm_world T1) (py "44.9778,-93.2650") (py "twin-cities")
                 (Sample.boot Sample.empty_store)) as (code & raw & hdrs & fs & Hu & Hj & Hc).
    + vm_compute. reflexivity.
    + injection Hj as <-. exact Hc.
Defined.

End CountProps.

Module FeedLoopProps.
Import Models Db Ingest Invariants Outcomes MonadProps AlertProps AtomicityProps Scenario.
Local Open Scope py_scope.

Lemma bind_inv {A B} (c : M A) (k : A -> M B) st b st' :
  bind c k st = (Ok b, st') ->
  exists a s1, c st = (Ok a, s1) /\ k a s1 = (Ok b, st').
Proof.
  unfold bind. destruct (c st) as [[a|e|] s1]; try discriminate.
  intros H. exists a, s1. split; [reflexivity | exact H].
Qed.

(** X13: when the request for a feed fails (other than with HTTP 304), the
    loop body ends normally: the source is reported with zero counts, one
    metric [feed_fetch_error] is added whose error text is cut at 200
    characters, and nothing else changes. *)
Theorem fetch_failure_is_recorded_and_skipped (lib : PyLib) (W : World)
    (deny_urls : gset str) (max_items : Z) (results : gmap str IngestResult)
    (q : nat * SourceEndpoint.t * Source.t) (st : state) (e : exn) :
  let ep := default q.1.2 (rows (endpoints (ses st)) !! q.1.1) in
  (forall headers, urlopen W (SourceEndpoint.url ep) headers = Fails e) ->
  (forall msg, e <> HTTPError 304 msg) ->
  feed_endpoint lib W deny_urls max_items results q st
  = (Ok (<[Source.name q.2 := {| inserted := 0; updated := 0 |}]> results),
     with_metric (error_metric (py "feed_fetch_error") q.2 ep e) st).
Proof.
  intros ep Hnet Hcode. unfold feed_endpoint. cbv zeta.
  unfold bind at 1. cbn [get_ses]. fold ep.
  assert (Hf : _fetch_bytes lib W (SourceEndpoint.url ep) ACCEPT (SourceEndpoint.http_etag ep)
                 (SourceEndpoint.http_last_modified ep) st = (Raise e, st)).
  { unfold _fetch_bytes. cbv zeta. rewrite Hnet. destruct e as [code msg|msg]; [|reflexivity].
    destruct (Z.eqb_spec code 304) as [->|_]; [|reflexivity].
    exfalso. exact (Hcode msg eq_refl). }
  unfold bind at 1, try_except. rewrite (bind_raise _ _ _ _ _ Hf).
  reflexivity.
Qed.



Lemma fetch_failure_is_recorded_and_skipped_witness :
  let W := Sample.world T1 (fun _ _ => Fails (Error (py "timed out"))) in
  let st := Sample.boot (desk_store None None) in
  feed_endpoint Sample.plain_lib W ∅ 25 ∅ (0, desk_feed None None, desk) st
  = (Ok {[ py "Weather Desk" := {| inserted := 0; updated := 0 |} ]},
     with_metric (error_metric (py "feed_fetch_error") desk (desk_feed None None)
                               (Error (py "timed out"))) st).
Proof.
  intros W st.
  apply (fetch_failure_is_recorded_and_skipped Sample.plain_lib W ∅ 25 ∅
           (0, desk_feed None None, desk) st (Error (py "timed out"))).
  - intros headers. reflexivity.
  - intros msg. discriminate.
Defined.


Lemma feed_entries_result lib W deny mx results src ep fetched st res st' :
  feed_entries lib W deny mx results src ep fetched st = (Ok res, st') ->
  exists r, res = <[Source.name src := r]> results.
Proof.
  unfold feed_entries. cbv zeta.
  destruct (_ || _); [intros [= <- _]; eexists; reflexivity|].
  destruct (_parse_feed_xml _ _ _ _) as [[[k t] items]|e|].
  - intros H.
    apply bind_inv in H as (t0 & s1 & _ & H).
    apply bind_inv in H as (acc & s2 & _ & H).
    apply bind_inv in H as (u1 & s3 & _ & H).
    apply bind_inv in H as (u2 & s4 & _ & H).
    injection H as <- _. eexists. reflexivity.
  - intros H. apply bind_inv in H as (u & s1 & _ & H). injection H as <- _.
    eexists. reflexivity.
  - discriminate.
Qed.

Lemma feed_endpoint_result lib W deny mx results q st res st' :
  feed_endpoint lib W deny mx results q st = (Ok res, st') ->
  exists r, res = <[Source.name q.2 := r]> results.
Proof.
  unfold feed_endpoint. cbv zeta. intros H.
  apply bind_inv in H as (db & s1 & _ & H).
  apply bind_inv in H as ([f|] & s2 & _ & H).
  - apply bind_inv in H as (u & s3 & _ & H). eapply feed_entries_result, H.
  - injection H as <- _. eexists. reflexivity.
Qed.

Lemma feed_loop_keys lib W deny mx qs : forall results st res st',
  foldM (feed_endpoint lib W deny mx) qs results st = (Ok res, st') ->
  dom res = dom results ∪ list_to_set (map (fun q => Source.name q.2) qs).
Proof.
  induction qs as [|q qs IH]; intros results st res st'; cbn [foldM map list_to_set].
  - intros [= <- _]. rewrite (right_id_L ∅ (∪)). reflexivity.
  - intros H. apply bind_inv in H as (r1 & s1 & H1 & H).
    apply IH in H. apply feed_endpoint_result in H1 as [r ->].
    rewrite H, dom_insert_L. apply set_eq. intros x.
    rewrite !elem_of_union, elem_of_singleton. tauto.
Qed.

(** X15: the result of [ingest_rss_atom] has an entry for the name of
    every enabled source with an enabled RSS or Atom endpoint, and for nothing
    else. *)
Theorem every_polled_source_is_reported (lib : PyLib) (W : World) (max_items : Z)
    (st st' : state) (res : gmap str IngestResult) :
  ingest_rss_atom lib W max_items st = (Ok res, st') ->
  dom res = list_to_set (map (fun q => Source.name q.2) (feed_endpoints (ses st))).
Proof.
  unfold ingest_rss_atom. cbv zeta. intros H.
  apply bind_inv in H as (db & s1 & Hdb & H). injection Hdb as <- <-.
  apply feed_loop_keys in H. rewrite H, dom_empty_L. apply (left_id_L ∅ (∪)).
Qed.

Lemma every_polled_source_is_reported_witness :
  exists res st',
    ingest_rss_atom (storm_lib []) (storm_world T1) 25 (Sample.boot (desk_store None None))
    = (Ok res, st') /\
    dom res = list_to_set (map (fun q => Source.name q.2)
                               (feed_endpoints (ses (Sample.boot (desk_store None None))))).
Proof.
  eexists _, _. split.
  - vm_compute. reflexivity.
  - eapply (every_polled_source_is_reported (storm_lib []) (storm_world T1) 25
              (Sample.boot (desk_store None None))).
    vm_compute. reflexivity.
Defined.

End FeedLoopProps.

(** ** The fetcher's semaphore and cache *)

Module SemaphoreProps.
Import Discover Scenario.

Lemma sum_alter (l : list task) i t p :
  l !! i = Some t ->
  sum_list (map (fun t => flying (at_ t)) (alter (set_pc p) i l)) + flying (at_ t)
  = sum_list (map (fun t => flying (at_ t)) l) + flying p.
Proof.
  revert i. induction l as [|x l IH]; intros [|i] H; try discriminate.
  - injection H as ->. cbn. lia.
  - cbn in H. cbn [alter list_alter map sum_list]. specialize (IH i H).
    change (list_alter (set_pc p) i l) with (alter (set_pc p) i l). lia.
Qed.

Lemma step_slots f e f' :
  step f e = Some f' -> in_flight f' + _sem f' = in_flight f + _sem f.
Proof.
  unfold in_flight. destruct e as [dt|i]; cbn [step].
  - destruct (0 <=? dt)%Z; [|discriminate]. intros [= <-]. reflexivity.
  - destruct (tasks f !! i) as [t|] eqn:Hi; [|discriminate].
    destruct (at_ t) as [|until|passed|passed started|sent] eqn:Hat.
    + destruct (cached t || negb (allowed t)).
      * intros [= <-]. cbn [set_task tasks _sem].
        pose proof (sum_alter (tasks f) i t (Returned None) Hi) as H.
        rewrite Hat in H. cbn [flying] in H. lia.
      * destruct (_lock (_limiter f (host t))); [discriminate|].
        destruct (clock f <? _next_ok (_limiter f (host t)))%Z; intros [= <-];
          cbn [set_task set_limiter tasks _sem].
        -- pose proof (sum_alter (tasks f) i t (Sleeping (_next_ok (_limiter f (host t)))) Hi) as H.
           rewrite Hat in H. cbn [flying] in H. lia.
        -- pose proof (sum_alter (tasks f) i t (Waiting (clock f)) Hi) as H.
           rewrite Hat in H. cbn [flying] in H. lia.
    + destruct (until <=? clock f)%Z; [|discriminate]. intros [= <-].
      cbn [set_task set_limiter tasks _sem].
      pose proof (sum_alter (tasks f) i t (Waiting (clock f)) Hi) as H.
      rewrite Hat in H. cbn [flying] in H. lia.
    + destruct (_sem f) as [|k] eqn:Hs; [discriminate|]. intros [= <-].
      cbn [set_task set_sem tasks _sem].
      pose proof (sum_alter (tasks f) i t (InFlight passed (clock f)) Hi) as H.
      rewrite Hat in H. cbn [flying] in H. lia.
    + intros [= <-]. cbn [set_task set_sem tasks _sem].
      pose proof (sum_alter (tasks f) i t (Returned (Some (passed, started))) Hi) as H.
      rewrite Hat in H. cbn [flying] in H. lia.
    + discriminate.
Qed.

Lemma run_slots es : forall f f',
  run f es = Some f' -> in_flight f' + _sem f' = in_flight f + _sem f.
Proof.
  induction es as [|e es IH]; intros f f'; cbn [run].
  - intros [= <-]. reflexivity.
  - destruct (step f e) as [f1|] eqn:E; [|discriminate].
    intros H. rewrite (IH _ _ H). exact (step_slots _ _ _ E).
Qed.

Lemma fresh_none_flying mn mx f : fresh mn mx f -> in_flight f = 0.
Proof.
  intros [_ H]. unfold in_flight. induction H as [|t l [Ht _] _ IH]; [reflexivity|].
  cbn. rewrite Ht, IH. reflexivity.
Qed.

(** X17: the semaphore bounds the requests running at once: under every
    schedule their number plus the free slots is the configured
    concurrency. *)
Theorem requests_in_flight_within_concurrency (min_delay max_delay : Z)
    (f f' : Fetcher) (es : list event) :
  fresh min_delay max_delay f -> run f es = Some f' ->
  in_flight f' + _sem f' = _sem f.
Proof.
  intros Hf Hr. rewrite (run_slots _ _ _ Hr), (fresh_none_flying _ _ _ Hf). reflexivity.
Qed.

Lemma requests_in_flight_within_concurrency_witness :
  exists f', run fetcher0 (take 9 schedule) = Some f' /\ in_flight f' + _sem f' = 4.
Proof.
  eexists. split.
  - vm_compute. reflexivity.
  - eapply (requests_in_flight_within_concurrency 10000 30000 fetcher0 _ (take 9 schedule)).
    + split; [reflexivity|]. repeat constructor; simpl; lia.
    + vm_compute. reflexivity.
Defined.

Lemma step_task f e f' i t :
  step f e = Some f' -> tasks f !! i = Some t ->
  exists t', tasks f' !! i = Some t' /\
             host t' = host t /\ cached t' = cached t /\ allowed t' = allowed t /\
             delay t' = delay t /\
             (cached t || negb (allowed t) = true -> idle t -> idle t').
Proof.
  intros Hs Hi.
  assert (Hsame : forall g, tasks g = tasks f ->
            exists t', tasks g !! i = Some t' /\ host t' = host t /\ cached t' = cached t /\
                       allowed t' = allowed t /\ delay t' = delay t /\
                       (cached t || negb (allowed t) = true -> idle t -> idle t')).
  { intros g ->. exists t. repeat split; auto. }
  assert (Halt : forall g j p, tasks g = alter (set_pc p) j (tasks f) ->
            (j = i -> cached t || negb (allowed t) = true -> idle t -> p = Returned None) ->
            exists t', tasks g !! i = Some t' /\ host t' = host t /\ cached t' = cached t /\
                       allowed t' = allowed t /\ delay t' = delay t /\
                       (cached t || negb (allowed t) = true -> idle t -> idle t')).
  { intros g j p -> Hp. destruct (decide (j = i)) as [->|Hne].
    - exists (set_pc p t). rewrite list_lookup_alter_eq, Hi. repeat split; auto.
      intros Hc Hidle. right. cbn. exact (Hp eq_refl Hc Hidle).
    - exists t. rewrite list_lookup_alter_ne by exact Hne. repeat split; auto. }
  destruct e as [dt|j]; cbn [step] in Hs.
  - destruct (0 <=? dt)%Z; [|discriminate]. injection Hs as <-. apply Hsame. reflexivity.
  - destruct (tasks f !! j) as [u|] eqn:Hj; [|discriminate].
    destruct (at_ u) as [|until|passed|passed started|sent] eqn:Hat.
    + destruct (cached u || negb (allowed u)) eqn:Hc.
      * injection Hs as <-. eapply Halt; [reflexivity|]. auto.
      * destruct (_lock (_limiter f (host u))); [discriminate|].
        destruct (clock f <? _next_ok (_limiter f (host u)))%Z; injection Hs as <-;
          (eapply Halt; [reflexivity|]); intros ->; rewrite Hi in Hj; injection Hj as ->;
          congruence.
    + destruct (until <=? clock f)%Z; [|discriminate]. injection Hs as <-.
      eapply Halt; [reflexivity|]. intros ->. rewrite Hi in Hj. injection Hj as ->.
      intros _ [H|H]; congruence.
    + destruct (_sem f); [discriminate|]. injection Hs as <-.
      eapply Halt; [reflexivity|]. intros ->. rewrite Hi in Hj. injection Hj as ->.
      intros _ [H|H]; congruence.
    + injection Hs as <-.
      eapply Halt; [reflexivity|]. intros ->. rewrite Hi in Hj. injection Hj as ->.
      intros _ [H|H]; congruence.
    + discriminate.
Qed.

Lemma run_task es : forall f f' i t,
  run f es = Some f' -> tasks f !! i = Some t ->
  cached t || negb (allowed t) = true -> idle t ->
  exists t', tasks f' !! i = Some t' /\ idle t'.
Proof.
  induction es as [|e es IH]; intros f f' i t; cbn [run].
  - intros [= <-] Hi _ Hidle. exists t. auto.
  - destruct (step f e) as [f1|] eqn:E; [|discriminate].
    intros Hr Hi Hc Hidle.
    destruct (step_task _ _ _ i t E Hi) as (t1 & Hi1 & _ & Hc1 & Ha1 & _ & Hk).
    apply (IH f1 f' i t1 Hr Hi1); [rewrite Hc1, Ha1; exact Hc | auto].
Qed.

(** X18: a call for a page that the cache holds, or that robots.txt forbids,
    never passes a limiter and never sends a request, under any schedule. *)
Theorem cached_or_refused_call_sends_nothing (f f' : Fetcher) (es : list event)
    (i : nat) (t : task) :
  tasks f !! i = Some t -> at_ t = Called ->
  cached t || negb (allowed t) = true ->
  run f es = Some f' ->
  exists t', tasks f' !! i = Some t' /\ passed_at t' = None /\ started_at t' = None.
Proof.
  intros Hi Hat Hc Hr.
  destruct (run_task es f f' i t Hr Hi Hc (or_introl Hat)) as (t' & Hi' & Hidle).
  exists t'. split; [exact Hi'|].
  unfold passed_at, started_at. destruct Hidle as [-> | ->]; split; reflexivity.
Qed.


Lemma cached_or_refused_call_sends_nothing_witness :
  let held := {| host := py "news.example"; cached := true; allowed := true;
                 delay := 10000; at_ := Called |} in
  let f := {| clock := 1700000000000; _sem := 4; _limiters := ∅;
              tasks := [held; page (py "news.example")] |} in
  exists f', run f [Run 0; Run 1; Run 1] = Some f' /\
    exists t', tasks f' !! 0 = Some t' /\ passed_at t' = None /\ started_at t' = None.
Proof.
  intros held f. eexists. split.
  - vm_compute. reflexivity.
  - eapply (cached_or_refused_call_sends_nothing f _ [Run 0; Run 1; Run 1] 0 held).
    + reflexivity.
    + reflexivity.
    + reflexivity.
    + vm_compute. reflexivity.
Defined.

End SemaphoreProps.

(** ** The weather source, the alert texts and the keys of the items *)

Module SourceProps.
Import Models Db Ingest Invariants Outcomes MonadProps AlertProps AtomicityProps TextFacts Scenario.
Local Open Scope py_scope.

Lemma select_snoc {A} (p : A -> bool) (l : list A) (x : A) :
  select p (l ++ [x]) = select p l ++ (if p x then [(length l, x)] else []).
Proof.
  unfold select. rewrite imap_app, List.filter_app. f_equal.
  cbn [imap List.filter snd]. rewrite Nat.add_0_r. reflexivity.
Qed.

Lemma one_or_none_rows {A} (p : A -> bool) (t t' : table A) :
  rows t' = rows t -> one_or_none p t' = one_or_none p t.
Proof. intros H. unfold one_or_none. rewrite H. reflexivity. Qed.

Lemma one_or_none_created {A} (p : A -> bool) (t : table A) (x : A) :
  one_or_none p t = Ok None -> p x = true ->
  forall t', rows t' = rows t ++ [x] ->
  one_or_none p t' = Ok (Some (length (rows t), x)).
Proof.
  intros Hn Hx t' Hr. unfold one_or_none in *. rewrite Hr, select_snoc, Hx.
  destruct (select p (rows t)) as [|r [|r' l]]; try discriminate. reflexivity.
Qed.

Lemma get_or_create_found W st i src j ep :
  one_or_none is_nws (sources (ses st)) = Ok (Some (i, src)) ->
  one_or_none (is_api_of src) (endpoints (ses st)) = Ok (Some (j, ep)) ->
  _get_or_create_nws_source W st = (Ok (src, ep), st).
Proof.
  intros H1 H2. unfold _get_or_create_nws_source, bind, get_ses, lift.
  unfold is_nws in H1. rewrite H1. cbn [ret].
  unfold is_api_of in H2. rewrite H2. reflexivity.
Qed.

Lemma flush_rows s s' :
  flush s = Ok s' ->
  rows (sources s') = rows (sources s) ++ pending (sources s) /\
  rows (endpoints s') = rows (endpoints s) ++ pending (endpoints s) /\
  pending (sources s') = [] /\ pending (endpoints s') = [].
Proof.
  unfold flush. destruct (items_unique _); [|discriminate]. intros [= <-].
  repeat split.
Qed.

Lemma get_or_create_leaves_both W st src ep st' :
  pending (sources (ses st)) = [] -> pending (endpoints (ses st)) = [] ->
  _get_or_create_nws_source W st = (Ok (src, ep), st') ->
  (exists i, one_or_none is_nws (sources (ses st')) = Ok (Some (i, src))) /\
  (exists j, one_or_none (is_api_of src) (endpoints (ses st')) = Ok (Some (j, ep))).
Proof.
  intros Hps Hpe. unfold _get_or_create_nws_source, bind at 1, get_ses. cbn [fst snd].
  unfold bind at 1, lift. fold is_nws.
  destruct (one_or_none is_nws (sources (ses st))) as [[[i s0]|]|e|] eqn:E1; try discriminate.
  - (* the source exists *)
    cbn [ret]. unfold bind at 1. cbn [ret]. unfold bind at 1. unfold bind at 1.
    change (fun e : SourceEndpoint.t =>
              bool_decide (SourceEndpoint.source_id e = Source.id s0)
              && bool_decide (SourceEndpoint.kind e = EndpointKind.JSON_API))
      with (is_api_of s0).
    destruct (one_or_none (is_api_of s0) (endpoints (ses st))) as [[[j e0]|]|e|] eqn:E2;
      try discriminate.
    + cbn. intros [= <- <- <-]. split; eexists; eassumption.
    + unfold bind, new_uuid, modify_ses, db_flush. cbn [fst snd ses ret].
      destruct (flush _) as [s'| |] eqn:Ef; try discriminate.
      intros [= <- <- <-]. cbn [ses].
      apply flush_rows in Ef as (Hs & He & _ & _).
      cbn [sources endpoints set_endpoints add rows pending] in Hs, He.
      rewrite Hps, app_nil_r in Hs. rewrite Hpe in He. cbn [app] in He.
      split.
      * exists i. rewrite (one_or_none_rows _ _ _ Hs). exact E1.
      * eexists. eapply one_or_none_created; [exact E2 | | exact He].
        unfold is_api_of. cbn. rewrite !bool_decide_eq_true_2 by reflexivity. reflexivity.
  - (* the source is created *)
    unfold bind at 1. unfold bind at 1. unfold new_uuid at 1. cbn [fst snd].
    unfold bind at 1, modify_ses at 1. cbn [fst snd].
    unfold bind at 1, db_flush at 1. cbn [ses].
    destruct (flush _) as [s1| |] eqn:Ef1; try discriminate.
    cbn [ret]. unfold bind at 1. cbn [get_ses ses].
    unfold bind at 1.
    apply flush_rows in Ef1 as (Hs1 & He1 & Hps1 & Hpe1).
    cbn [sources endpoints set_sources add rows pending] in Hs1, He1.
    rewrite Hps in Hs1. cbn [app] in Hs1. rewrite Hpe, app_nil_r in He1.
    set (src0 := {| Source.id := uuid4 W (uuids st); Source.name := NWS_NAME |}) in *.
    change (fun e : SourceEndpoint.t =>
              bool_decide (SourceEndpoint.source_id e = Source.id src0)
              && bool_decide (SourceEndpoint.kind e = EndpointKind.JSON_API))
      with (is_api_of src0).
    assert (Hsrc : one_or_none is_nws (sources s1) = Ok (Some (length (rows (sources (ses st))), src0))).
    { eapply one_or_none_created; [exact E1 | | exact Hs1].
      unfold is_nws. apply bool_decide_eq_true_2. reflexivity. }
    unfold lift.
    destruct (one_or_none (is_api_of src0) (endpoints s1)) as [[[j e0]|]|e|] eqn:E2;
      try discriminate.
    + cbn. intros [= <- <- <-]. cbn [ses]. split; eexists; eassumption.
    + unfold bind, new_uuid, modify_ses, db_flush. cbn [fst snd ses ret].
      destruct (flush _) as [s2| |] eqn:Ef2; try discriminate.
      intros [= <- <- <-]. cbn [ses].
      apply flush_rows in Ef2 as (Hs2 & He2 & _ & _).
      cbn [sources endpoints set_endpoints add rows pending] in Hs2, He2.
      rewrite Hps1, app_nil_r in Hs2. rewrite Hpe1 in He2. cbn [app] in He2.
      split.
      * eexists. rewrite (one_or_none_rows _ _ _ Hs2). exact Hsrc.
      * eexists. eapply one_or_none_created; [exact E2 | | exact He2].
        unfold is_api_of. cbn. rewrite !bool_decide_eq_true_2 by reflexivity. reflexivity.
Qed.

(** X19: get-or-create creates once: in a session with no source or endpoint
    pending, a second call right after a first that returned gives the same
    source and endpoint and changes nothing. *)
Theorem nws_source_is_created_once (W : World) (st st' : state)
    (src : Source.t) (ep : SourceEndpoint.t) :
  pending (sources (ses st)) = [] -> pending (endpoints (ses st)) = [] ->
  _get_or_create_nws_source W st = (Ok (src, ep), st') ->
  _get_or_create_nws_source W st' = (Ok (src, ep), st').
Proof.
  intros Hps Hpe H.
  destruct (get_or_create_leaves_both W st src ep st' Hps Hpe H) as [[i Hi] [j Hj]].
  exact (get_or_create_found W st' i src j ep Hi Hj).
Qed.

Lemma nws_source_is_created_once_witness :
  exists src ep st',
    _get_or_create_nws_source (Sample.world T1 (fun _ _ => Dies))
                              (Sample.boot Sample.empty_store) = (Ok (src, ep), st') /\
    _get_or_create_nws_source (Sample.world T1 (fun _ _ => Dies)) st' = (Ok (src, ep), st').
Proof.
  eexists _, _, _. split.
  - vm_compute. reflexivity.
  - eapply (nws_source_is_created_once (Sample.world T1 (fun _ _ => Dies))
              (Sample.boot Sample.empty_store)).
    + reflexivity.
    + reflexivity.
    + vm_compute. reflexivity.
Defined.

End SourceProps.

Module AlertTextProps.
Import Models Db Ingest TextFacts.

(** X20: the title of an alert carries no surrounding whitespace, and its body
    is the title or a text of at most 4000 characters. *)
Theorem alert_title_is_stripped_and_body_capped (props : Props.t) :
  Py.strip (title_of props) = title_of props /\
  (body_of props = title_of props \/
   (body_of props <> [] /\ length (body_of props) <= 4000)).
Proof.
  split; [apply strip_idem|].
  unfold body_of. cbv zeta. unfold Py.or_else.
  destruct (Py.truthy (take 4000 _)) eqn:E; [right | left; reflexivity].
  split.
  - intros H. rewrite H in E. discriminate.
  - rewrite length_take. lia.
Qed.

End AlertTextProps.

Module KeyProps.
Import Models Db Ingest Invariants MonadProps AlertProps MergeProps.
Local Open Scope py_scope.

Lemma setattr_key i a v : item_key (setattr i a v) = item_key i.
Proof. destruct a, v; reflexivity. Qed.

Lemma merge_key kvs : forall i c, item_key (merge i c kvs).1 = item_key i.
Proof.
  induction kvs as [|[a v] rest IH]; intros i c; [reflexivity|].
  rewrite merge_cons. destruct (overwrites i (a, v)); rewrite IH; [apply setattr_key | reflexivity].
Qed.

Lemma keys_alter (l : list Item.t) ix row (F : Item.t -> Item.t) :
  l !! ix = Some row -> item_key (F row) = item_key row ->
  map item_key (alter F ix l) = map item_key l.
Proof.
  revert ix. induction l as [|x l IH]; intros [|ix] Hl HF; try discriminate.
  - injection Hl as ->. cbn. rewrite HF. reflexivity.
  - cbn. f_equal. exact (IH ix Hl HF).
Qed.

(** X21: reconciling a feed entry never removes or re-keys a stored row: the
    (endpoint, external id) pairs of the rows are the same, in the same
    order, whatever the entry holds and however the step ends. *)
Theorem reconcile_keeps_row_keys (lib : PyLib) (deny_urls : gset str) (src : Source.t)
    (ep : SourceEndpoint.t) (feed_title : option str) (now : datetime)
    (acc : nat * nat) (it : Entry.t) (st : state) :
  map item_key (rows (items (ses (feed_item lib deny_urls src ep feed_title now acc it st).2)))
  = map item_key (rows (items (ses st))).
Proof.
  unfold feed_item. cbv zeta.
  destruct (negb _); [reflexivity|].
  destruct (match Py.or_none _ with Some _ => _ | None => _ end); [reflexivity|].
  unfold bind at 1, get_ses. cbn [fst snd].
  unfold bind at 1, lift.
  destruct (one_or_none _ (items (ses st))) as [[[ix row]|]|e|] eqn:E; try reflexivity.
  - unfold bind at 1.
    destruct (content_hash _ _ _) as [h|e|]; try reflexivity.
    unfold bind, modify_ses. cbn [fst snd ses items set_items update rows].
    apply one_or_none_some in E as [Hrow _].
    apply (keys_alter _ _ row); [exact Hrow | apply merge_key].
  - unfold bind at 1.
    destruct (content_hash _ _ _) as [h|e|]; reflexivity.
Qed.

End KeyProps.

(** ** Slugs, snippets and feed candidates *)

Module SlugProps.
Import TextClean PyText TextCleanProps TextFacts StaticBuild.

Section Squeeze.
Context (class : N -> bool) (r : N).

Lemma run_of_in pre c rest :
  class c = true ->
  run_of class pre (c :: rest) = Some (S (length (Py.take_while class rest))).
Proof. intros E. unfold run_of. simpl. rewrite E. reflexivity. Qed.

Lemma run_of_out pre c rest : class c = false -> run_of class pre (c :: rest) = None.
Proof. intros E. unfold run_of. simpl. rewrite E. reflexivity. Qed.

Lemma sub_run_squeeze suf : forall pre,
  sub_loop (run_of class) [r] pre suf 0 = squeeze class r false suf /\
  sub_loop (run_of class) [r] pre suf (length (Py.take_while class suf))
  = squeeze class r true suf.
Proof.
  induction suf as [|c rest IH]; intros pre; [split; reflexivity|].
  destruct (IH (pre ++ [c])) as [IH0 IHk].
  destruct (class c) eqn:Ec.
  - split.
    + cbn [sub_loop squeeze]. rewrite (run_of_in _ _ _ Ec), Ec, IHk. reflexivity.
    + cbn [Py.take_while squeeze]. rewrite Ec. cbn [length sub_loop]. exact IHk.
  - assert (H0 : sub_loop (run_of class) [r] pre (c :: rest) 0
                 = squeeze class r false (c :: rest)).
    { cbn [sub_loop squeeze]. rewrite (run_of_out _ _ _ Ec), Ec, IH0. reflexivity. }
    split; [exact H0|].
    cbn [Py.take_while]. rewrite Ec. cbn [length]. rewrite H0.
    cbn [squeeze]. rewrite Ec. reflexivity.
Qed.

Lemma re_sub_run s : re_sub (run_of class) [r] s = squeeze class r false s.
Proof. apply sub_run_squeeze. Qed.

Lemma squeeze_chars s : forall b,
  Forall (fun c => class c = false \/ c = r) (squeeze class r b s).
Proof.
  induction s as [|c rest IH]; intros b; simpl; [constructor|].
  destruct (class c) eqn:E; [destruct b|].
  - apply IH.
  - constructor; [right; reflexivity | apply IH].
  - constructor; [left; exact E | apply IH].
Qed.

Lemma squeeze_head_in_run s c :
  head (squeeze class r true s) = Some c -> class c = false.
Proof.
  induction s as [|d rest IH]; simpl; [discriminate|].
  destruct (class d) eqn:E; [exact IH|]. simpl. intros [= <-]. exact E.
Qed.

Lemma no_double_cons a s :
  (forall b, head s = Some b -> ~ (a = r /\ b = r)) -> no_double r s -> no_double r (a :: s).
Proof. destruct s as [|b t]; simpl; auto. Qed.

Lemma squeeze_no_double s : class r = true -> forall b, no_double r (squeeze class r b s).
Proof.
  intros Hr. induction s as [|c rest IH]; intros b; simpl; [exact I|].
  destruct (class c) eqn:E; [destruct b|].
  - apply IH.
  - apply no_double_cons; [|apply IH].
    intros d Hd [_ ->]. apply squeeze_head_in_run in Hd. congruence.
  - apply no_double_cons; [|apply IH]. intros d _ [-> _]. congruence.
Qed.

End Squeeze.

Lemma no_double_tail c a s : no_double c (a :: s) -> no_double c s.
Proof. destruct s; simpl; tauto. Qed.

Lemma no_double_drop_while c f s : no_double c s -> no_double c (Py.drop_while f s).
Proof.
  induction s as [|x s IH]; simpl; [auto|].
  intros H. destruct (f x); [apply IH, (no_double_tail _ _ _ H) | exact H].
Qed.

Lemma no_double_app_l c s t : no_double c (s ++ t) -> no_double c s.
Proof.
  induction s as [|a s IH]; [intros _; exact I|].
  destruct s as [|b s']; [intros _; exact I|].
  intros [H1 H2]. split; [exact H1 | apply IH, H2].
Qed.

Lemma no_double_take c n s : no_double c s -> no_double c (take n s).
Proof. intros H. apply (no_double_app_l c _ (drop n s)). rewrite take_drop. exact H. Qed.

Lemma strip_char_prefix c s :
  exists t, Py.drop_while (fun x => (x =? c)%N) s = strip_char c s ++ t.
Proof.
  unfold strip_char.
  destruct (drop_while_suffix (fun x => (x =? c)%N)
              (rev (Py.drop_while (fun x => (x =? c)%N) s))) as [p Hp].
  exists (rev p). rewrite <- rev_app_distr, <- Hp, rev_involutive. reflexivity.
Qed.

Lemma strip_char_Forall (P : N -> Prop) c s : Forall P s -> Forall P (strip_char c s).
Proof.
  intros H. destruct (strip_char_prefix c s) as [t Ht].
  assert (Hd : Forall P (Py.drop_while (fun x => (x =? c)%N) s)).
  { clear Ht. induction H as [|x s Hx Hs IH]; simpl; [constructor|].
    destruct (x =? c)%N; [exact IH | constructor; [exact Hx | exact Hs]]. }
  rewrite Ht in Hd. apply Forall_app in Hd as [Hd _]. exact Hd.
Qed.

Lemma strip_char_no_double c d s : no_double d s -> no_double d (strip_char c s).
Proof.
  intros H. destruct (strip_char_prefix c s) as [t Ht].
  apply (no_double_app_l d _ t). rewrite <- Ht. apply no_double_drop_while, H.
Qed.

Lemma strip_char_head c s : head (strip_char c s) <> Some c.
Proof.
  intros H. destruct (strip_char_prefix c s) as [t Ht].
  assert (Hh : head (Py.drop_while (fun x => (x =? c)%N) s) = Some c).
  { rewrite Ht. apply head_app_some, H. }
  apply drop_while_head in Hh. rewrite N.eqb_refl in Hh. discriminate.
Qed.

Lemma head_take {A} n (s : list A) : 0 < n -> head (take n s) = head s.
Proof. destruct n; [lia|]. destruct s; reflexivity. Qed.

(** What the two slug functions share. *)
Lemma slug_shape (keep : N -> bool) (n : nat) (dflt s0 : str) :
  keep HYPHEN = false -> 0 < n ->
  dflt <> [] -> length dflt <= n -> Forall (fun c => keep c = true) dflt ->
  let t := strip_char HYPHEN (re_sub (run_of (fun c => negb (keep c))) [HYPHEN] s0) in
  let r := Py.or_else (take n t) dflt in
  r <> [] /\ length r <= n /\
  Forall (fun c => keep c = true \/ c = HYPHEN) r /\
  head r <> Some HYPHEN /\ no_double HYPHEN r.
Proof.
  intros Hk Hn Hd1 Hd2 Hd3 t r. subst r. unfold Py.or_else.
  destruct (Py.truthy (take n t)) eqn:E.
  - split; [intros H; rewrite H in E; discriminate|].
    split; [rewrite length_take; lia|].
    assert (Hc : Forall (fun c => keep c = true \/ c = HYPHEN)
                        (re_sub (run_of (fun c => negb (keep c))) [HYPHEN] s0)).
    { rewrite re_sub_run. eapply Forall_impl; [apply squeeze_chars|].
      intros c [H|H]; [left; apply negb_false_iff, H | right; exact H]. }
    split; [apply Forall_take, strip_char_Forall, Hc|].
    split.
    + rewrite head_take by exact Hn. apply strip_char_head.
    + apply no_double_take, strip_char_no_double. rewrite re_sub_run.
      apply squeeze_no_double. rewrite Hk. reflexivity.
  - split; [exact Hd1|]. split; [exact Hd2|].
    split; [eapply Forall_impl; [exact Hd3|]; intros c H; left; exact H|].
    split.
    + destruct dflt as [|c d]; [contradiction|]. cbn. intros [= ->].
      apply Forall_cons in Hd3 as [Hc _]. congruence.
    + clear Hd1 Hd2. induction Hd3 as [|a d Ha Hd IH]; [exact I|].
      apply no_double_cons; [|exact IH]. intros b _ [-> _]. congruence.
Qed.

(** X22: a slug is never empty, has at most 60 characters, each a lower-case
    letter, a digit or a hyphen, does not start with a hyphen and holds no
    two hyphens in a row. *)
Theorem slugify_shape (lib : PyLib) (s : str) :
  let r := _slugify lib s in
  r <> [] /\ length r <= 60 /\
  Forall (fun c => is_lower c || is_digit c = true \/ c = HYPHEN) r /\
  head r <> Some HYPHEN /\ no_double HYPHEN r.
Proof.
  unfold _slugify. cbv zeta.
  apply (slug_shape (fun c => is_lower c || is_digit c) 60 (py "item")
                    (str_lower lib (Py.strip s))).
  - reflexivity.
  - lia.
  - discriminate.
  - cbn. lia.
  - repeat constructor.
Qed.

End SlugProps.

Module SafeSlugProps.
Import TextClean PyText Discover SlugProps.

(** X23: [_safe_slug] returns a name that is never empty, has at most 80
    characters, each a letter, a digit or a hyphen, does not start with a
    hyphen and holds no two hyphens in a row. *)
Theorem safe_slug_shape (lib : PyLib) (s : str) :
  let r := _safe_slug lib s in
  r <> [] /\ length r <= 80 /\
  Forall (fun c => is_lower c || is_upper c || is_digit c = true \/ c = HYPHEN) r /\
  head r <> Some HYPHEN /\ no_double HYPHEN r.
Proof.
  unfold _safe_slug. cbv zeta.
  apply (slug_shape (fun c => is_lower c || is_upper c || is_digit c) 80 (py "site")
                    (str_lower lib (Py.strip s))).
  - reflexivity.
  - lia.
  - discriminate.
  - cbn. lia.
  - repeat constructor.
Qed.

End SafeSlugProps.

Module PageProps.
Import TextClean PyText TextCleanProps TextFacts StaticBuild.

(** X24: the groups named for a title are listed without repetition, at most
    four of them, each one of the seven the site knows. *)
Theorem affects_are_few_and_distinct (lib : PyLib) (title : str) :
  let r := _affects_from_title lib title in
  NoDup r /\ length r <= 4 /\ Forall (fun a => a ∈ AFFECTED) r.
Proof.
  cbv zeta. unfold _affects_from_title. cbv zeta.
  destruct (any_in _ _); destruct (any_in _ _); destruct (any_in _ _);
    destruct (any_in _ _); destruct (any_in _ _);
    (split; [apply (bool_decide_eq_true_1 _); vm_compute; reflexivity|]);
    (split; [vm_compute; lia|]);
    apply (bool_decide_eq_true_1 _); vm_compute; reflexivity.
Qed.

End PageProps.

Module SnippetProps.
Import TextClean PyText TextCleanProps TextFacts StaticBuild TruncationProps.

Lemma strip_fixed_ends (s : str) c d :
  head s = Some c -> Py.isspace c = false ->
  last s = Some d -> Py.isspace d = false -> Py.strip s = s.
Proof.
  intros Hh Hc Hl Hd. unfold Py.strip, Py.lstrip.
  rewrite (drop_while_keep _ s c Hh Hc). unfold Py.rstrip.
  rewrite (drop_while_keep _ (rev s) d).
  - apply rev_involutive.
  - rewrite <- last_rev_head, rev_involutive. exact Hl.
  - exact Hd.
Qed.

Lemma rstrip_keeps_head (s : str) c :
  head s = Some c -> Py.isspace c = false -> head (Py.rstrip s) = Some c.
Proof.
  intros Hh Hc. unfold Py.rstrip.
  destruct s as [|x s]; [discriminate|]. injection Hh as ->.
  cbn [rev].
  assert (H : forall (t : str), exists u, Py.drop_while Py.isspace (t ++ [c]) = u ++ [c]).
  { induction t as [|y t [u Hu]]; [exists []; simpl; rewrite Hc; reflexivity|].
    simpl. destruct (Py.isspace y); [exists u; exact Hu | exists (y :: t); reflexivity]. }
  destruct (H (rev s)) as [u Hu]. rewrite Hu, rev_app_distr. reflexivity.
Qed.

Lemma replace1_empty_removes a (s : str) : a ∉ Py.replace1 a [] s.
Proof.
  unfold Py.replace1. induction s as [|c s IH]; cbn [flat_map]; [apply not_elem_of_nil|].
  destruct (N.eqb_spec c a); cbn [app]; [exact IH|].
  apply not_elem_of_cons. split; [congruence | exact IH].
Qed.

Lemma replace1_empty_keeps_out a b (s : str) : b ∉ s -> b ∉ Py.replace1 a [] s.
Proof.
  unfold Py.replace1. induction s as [|c s IH]; cbn [flat_map]; [auto|].
  intros H. apply not_elem_of_cons in H as [Hb Hs].
  destruct (c =? a)%N; cbn [app]; [exact (IH Hs)|].
  apply not_elem_of_cons. split; [exact Hb | exact (IH Hs)].
Qed.

Lemma not_in_Forall (b : N) (s : str) : b ∉ s <-> Forall (fun c => c <> b) s.
Proof.
  rewrite Forall_forall. split.
  - intros H c Hc ->. exact (H Hc).
  - intros H Hb. exact (H b Hb eq_refl).
Qed.

(** X25: the snippet shown for a feed item has at most 240 characters, holds no
    square bracket and no surrounding whitespace. *)
Theorem feed_snippet_is_short_and_clean (lib : PyLib) (sre : SnippetRe) (s : str) :
  let r := _clean_feed_snippet lib sre s in
  length r <= 240 /\ (91%N ∉ r) /\ (93%N ∉ r) /\ Py.strip r = r.
Proof.
  cbv zeta. unfold _clean_feed_snippet. cbv zeta.
  assert (Hnil : length (@nil N) <= 240 /\ (91%N ∉ @nil N) /\ (93%N ∉ @nil N)
                 /\ Py.strip (@nil N) = []).
  { repeat split; try apply not_elem_of_nil. cbn. lia. }
  destruct (negb (Py.truthy (_strip_html lib s))); [exact Hnil|].
  destruct (_ && negb _); [exact Hnil|].
  destruct (_ && PyText.contains _ _); [exact Hnil|].
  set (s2 := Py.strip (Py.replace1 93 [] (Py.replace1 91 [] _))).
  assert (H91 : 91%N ∉ s2).
  { apply not_in_Forall. apply strip_Forall. apply not_in_Forall.
    apply replace1_empty_keeps_out, replace1_empty_removes. }
  assert (H93 : 93%N ∉ s2).
  { apply not_in_Forall. apply strip_Forall. apply not_in_Forall.
    apply replace1_empty_removes. }
  assert (Hhead : forall c, head s2 = Some c -> Py.isspace c = false)
    by (intros c; apply strip_head).
  assert (Hfix : Py.strip s2 = s2) by apply strip_idem.
  clearbody s2.
  destruct (Nat.ltb_spec 240 (length s2)) as [Hlong|Hshort].
  - assert (Hcut : exists t, take 237 s2 = Py.rstrip (take 237 s2) ++ t) by apply rstrip_prefix.
    destruct Hcut as [t Ht].
    assert (Hlen : length (Py.rstrip (take 237 s2)) <= 237).
    { etransitivity; [apply rstrip_length|]. rewrite length_take. lia. }
    assert (Hin : forall b, b ∉ s2 -> b <> ELLIPSIS -> b ∉ Py.rstrip (take 237 s2) ++ [ELLIPSIS]).
    { intros b Hb Hne Hin. apply elem_of_app in Hin as [Hin|Hin].
      - apply Hb. rewrite <- (take_drop 237 s2), Ht. apply elem_of_app. left.
        apply elem_of_app. left. exact Hin.
      - apply list_elem_of_singleton in Hin. contradiction. }
    split; [rewrite length_app; cbn; lia|].
    split; [apply Hin; [exact H91 | discriminate]|].
    split; [apply Hin; [exact H93 | discriminate]|].
    destruct s2 as [|c s2']; [cbn in Hlong; lia|].
    assert (Hc : Py.isspace c = false) by (apply Hhead; reflexivity).
    apply (strip_fixed_ends _ c ELLIPSIS).
    + apply head_app_some. apply rstrip_keeps_head; [reflexivity | exact Hc].
    + exact Hc.
    + apply last_snoc.
    + reflexivity.
  - split; [lia|]. split; [exact H91|]. split; [exact H93|]. exact Hfix.
Qed.

End SnippetProps.

Module CandidateProps.
Import TextClean PyText TextCleanProps TextFacts Discover.

Lemma normalize_url_no_fragment u : 35%N ∉ normalize_url u.
Proof.
  unfold normalize_url. cbv zeta. destruct (negb _); [apply not_elem_of_nil|].
  intros H.
  pose proof (take_while_Forall (fun c => negb (c =? 35)%N) (Py.strip u)) as Hf.
  rewrite Forall_forall in Hf. specialize (Hf _ H). discriminate.
Qed.

Lemma add_candidate_tidy out u : tidy out -> tidy (add_candidate out u).
Proof.
  intros [Hnd Hall]. unfold add_candidate. cbv zeta.
  destruct (Py.truthy (normalize_url u)) eqn:E; cbn [negb]; [|split; assumption].
  case_bool_decide as Hin; [split; assumption|].
  split.
  - apply NoDup_app. split; [exact Hnd|]. split; [|apply NoDup_singleton].
    intros x Hx Hx'. apply list_elem_of_singleton in Hx'. subst x. contradiction.
  - apply Forall_app. split; [exact Hall|]. constructor; [|constructor].
    split; [intros H; rewrite H in E; discriminate | apply normalize_url_no_fragment].
Qed.

Lemma add_candidate_grows out u x : x ∈ out -> x ∈ add_candidate out u.
Proof.
  intros H. unfold add_candidate. cbv zeta.
  destruct (negb _); [exact H|]. case_bool_decide; [exact H|].
  apply elem_of_app. left. exact H.
Qed.

Lemma add_candidate_holds out u :
  normalize_url u <> [] -> normalize_url u ∈ add_candidate out u.
Proof.
  intros H. unfold add_candidate. cbv zeta.
  destruct (normalize_url u) as [|c r] eqn:E; [contradiction|]. cbn [Py.truthy negb].
  case_bool_decide as Hin; [exact Hin|]. apply elem_of_app. right. apply list_elem_of_here.
Qed.

Lemma fold_tidy {A} (f : A -> str) (l : list A) : forall out,
  tidy out -> tidy (fold_left (fun out a => add_candidate out (f a)) l out).
Proof.
  induction l as [|a l IH]; intros out H; cbn [fold_left]; [exact H|].
  apply IH, add_candidate_tidy, H.
Qed.

Lemma fold_grows {A} (f : A -> str) (l : list A) : forall out x,
  x ∈ out -> x ∈ fold_left (fun out a => add_candidate out (f a)) l out.
Proof.
  induction l as [|a l IH]; intros out x H; cbn [fold_left]; [exact H|].
  apply IH, add_candidate_grows, H.
Qed.

Lemma fold_holds {A} (f : A -> str) (l : list A) : forall out a,
  a ∈ l -> normalize_url (f a) <> [] ->
  normalize_url (f a) ∈ fold_left (fun out a => add_candidate out (f a)) l out.
Proof.
  induction l as [|b l IH]; intros out a Hin Hne; [inversion Hin|].
  cbn [fold_left]. apply elem_of_cons in Hin as [->|Hin].
  - apply fold_grows, add_candidate_holds, Hne.
  - apply IH; assumption.
Qed.

(** X26: the candidate feed URLs of a page hold no URL twice, no empty URL and
    no fragment; and each of the seven common feed paths, joined to the
    origin of the page, is among them in normalized form. *)
Theorem candidates_are_distinct_and_cover_the_common_paths (lib : PyLib) (ul : UrlLib)
    (base : str) (html_bytes : list Z) :
  let out := candidate_feed_urls lib ul base html_bytes in
  NoDup out /\
  Forall (fun u => u <> [] /\ 35%N ∉ u) out /\
  Forall (fun path =>
            let u := normalize_url (urljoin ul (origin_of ul base) path) in
            u <> [] -> u ∈ out) COMMON_PATHS.
Proof.
  cbv zeta. unfold candidate_feed_urls. cbv zeta.
  set (hrefs := fold_left _ (start_tags ul _) []).
  set (out0 := fold_left _ hrefs []).
  assert (H0 : tidy out0).
  { apply (fold_tidy (fun href => urljoin ul base href)). split; [apply NoDup_nil_2 | constructor]. }
  destruct (fold_tidy (fun path => urljoin ul (origin_of ul base) path) COMMON_PATHS out0 H0)
    as [Hnd Hall].
  split; [exact Hnd|]. split; [exact Hall|].
  apply Forall_forall. intros path Hin Hne.
  apply (fold_holds (fun path => urljoin ul (origin_of ul base) path) COMMON_PATHS out0 path Hin Hne).
Qed.

End CandidateProps.
